(** * The booking engine of the barbershop reservation site

    A shallow embedding of the availability check (models/Booking.js), the
    slot lock (models/TimeLock.js), the blocked-date registry
    (models/BlockedDates.js, controllers/blockedDatesController.js), the
    booking life cycle (controllers/bookingController.js) and the cleanup
    sweeper (utils/autoCleanup.js), followed by the properties proved about
    them.

    Conventions of the model.
    - A JavaScript [Date] is its number of milliseconds since the epoch, and
      the process runs in the UTC time zone, so local midnight, the day of the
      week and the time of day are read off that number directly.  One
      request sees one value of the clock.
    - A MongoDB collection is the list of its documents in insertion order.
      Store operations always complete: network failures are outside the
      model.  A [save] of a loaded document writes the paths the handler
      modified, as Mongoose does.
    - Stored documents satisfy their schemas, and a request field that the
      validator of its route checks has passed it; a date in a request is a
      date and a flag a boolean.  A [save] is rejected, and the rejection
      lands in the handler's [catch], for what no validator of the route has
      checked: in [completeBooking] the country code, the phone number
      joined to it and the time of the body; in [blockDate] an hour outside
      10:00-19:00 (the route that is registered first for the blocked dates
      has no validator); and a counter that the code itself pushed past the
      schema's bound: [completeBooking] and [completeBookingService] add one
      to a client counter capped at 1000 without the guard that
      [Client.completeBooking] and [Client.incrementEmailCounter] have.  The
      mail module does the same to the booking's [emailCount], capped at 20,
      and catches the rejection itself.
    - The mail module (config/email.js) is represented by the verdict of each
      send and by the counters it bumps in the Booking and Client
      collections; its EmailUsage collection, the quota it derives from it
      and the SMTP transport are summed up in the verdict. *)

From Stdlib Require Import ZArith List String Ascii Bool Lia DecimalString.
From stdpp Require Import gmap strings.
Import ListNotations.
Local Open Scope Z_scope.

(** ** JavaScript values *)

Module Js.
(** [x || y] and [!x] on a number that may be absent: [null], [undefined]
    and [0] are falsy. *)
Definition truthyZ (x : option Z) : option Z :=
  match x with
  | Some 0 => None
  | _ => x
  end.

(** The same on strings: the empty string is falsy. *)
Definition truthyS (x : option string) : option string :=
  match x with
  | Some EmptyString => None
  | _ => x
  end.

Definition orElse {A} (x y : option A) : option A :=
  match x with
  | Some _ => x
  | None => y
  end.

(** [n.toString()] for an integer. *)
Definition toString (n : Z) : string := NilZero.string_of_int (Z.to_int n).

(** [s.padStart(2, '0')]. *)
Definition padStart2 (s : string) : string :=
  match String.length s with
  | O => "00"
  | S O => "0" +:+ s
  | _ => s
  end.

(** [s.slice(0, n)]. *)
Definition slice0 (n : nat) (s : string) : string := String.substring 0 n s.
End Js.

Module JsDate.
Definition msPerMinute : Z := 60000.
Definition msPerDay : Z := 24 * 60 * 60 * 1000.

(** [d.setHours(0, 0, 0, 0)] and [new Date(d.toDateString())]. *)
Definition startOfDay (d : Z) : Z := d - d mod msPerDay.

(** [d.setHours(h, m, s, ms)]. *)
Definition setHours (d h m s ms : Z) : Z :=
  startOfDay d + ((h * 60 + m) * 60 + s) * 1000 + ms.

(** [d.setHours(23, 59, 59, 999)]. *)
Definition endOfDay (d : Z) : Z := setHours d 23 59 59 999.

(** [d.getDay()]: 0 is Sunday; day 0 of the clock is a Thursday. *)
Definition getDay (d : Z) : Z := (d / msPerDay + 4) mod 7.

Definition getHours (d : Z) : Z := (d mod msPerDay) / 3600000.
Definition getMinutes (d : Z) : Z := (d mod 3600000) / msPerMinute.

(** [d.setDate(d.getDate() + n)] and [d.setMinutes(d.getMinutes() + n)]. *)
Definition addDays (d n : Z) : Z := d + n * msPerDay.
Definition addMinutes (d n : Z) : Z := d + n * msPerMinute.
End JsDate.

(** ** Time-of-day strings *)

Module TimeString.
Definition digit (c : ascii) : option Z :=
  let n := Z.of_N (N_of_ascii c) in
  if (48 <=? n) && (n <=? 57) then Some (n - 48) else None.

(** The pattern [/^([01]?[0-9]|2[0-3]):[0-5][0-9]$/] used by every schema
    and handler, together with the [parseInt] of the two halves of
    [time.split(':')]: [Some (hour, minute)] when the pattern matches. *)
Definition parse (s : string) : option (Z * Z) :=
  match list_ascii_of_string s with
  | [h0; c; m1; m0] =>
      if Ascii.eqb c ":" then
        match digit h0, digit m1, digit m0 with
        | Some h, Some a, Some b =>
            if a <=? 5 then Some (h, a * 10 + b) else None
        | _, _, _ => None
        end
      else None
  | [h1; h0; c; m1; m0] =>
      if Ascii.eqb c ":" then
        match digit h1, digit h0, digit m1, digit m0 with
        | Some x, Some y, Some a, Some b =>
            if ((x <=? 1) || ((x =? 2) && (y <=? 3))) && (a <=? 5)
            then Some (x * 10 + y, a * 10 + b)
            else None
        | _, _, _, _ => None
        end
      else None
  | _ => None
  end.

(** [regex.test(time)]. *)
Definition test (s : string) : bool :=
  match parse s with
  | Some _ => true
  | None => false
  end.

(** Minutes since midnight: [hour * 60 + minute]. *)
Definition minutes (s : string) : option Z :=
  match parse s with
  | Some (h, m) => Some (h * 60 + m)
  | None => None
  end.

(** [`${hour.toString().padStart(2, '0')}:${minute.toString().padStart(2, '0')}`]. *)
Definition format (hour minute : Z) : string :=
  Js.padStart2 (Js.toString hour) +:+ ":" +:+ Js.padStart2 (Js.toString minute).

(** [new Date(`${date.toDateString()} ${time}`)]: the local day of [date]
    at the given time of day; [None] is the invalid date. *)
Definition at_ (date : Z) (time : string) : option Z :=
  match parse time with
  | Some (h, m) => Some (JsDate.setHours date h m 0 0)
  | None => None
  end.
End TimeString.

(** ** Documents *)

Definition ObjectId := Z.

Inductive Status := pending | confirmed | declined | completed | cancelled.

#[global] Instance Status_eq_dec : EqDecision Status.
Proof. solve_decision. Defined.

Module Service.
Record t := mk {
  _id : Z;
  name : string;
  duration : Z;
  price : Z
}.
End Service.

Module Booking.
Record t := mk {
  _id : ObjectId;
  client : option ObjectId;
  clientName : string;
  phoneNumber : string;
  email : string;
  service : Z;
  date : Z;
  time : string;
  status : Status;
  verificationCode : option string;
  verified : bool;
  emailCount : Z;
  lastEmailSentAt : option Z;
  createdAt : Z;
  completedAt : option Z;
  notes : option string;
  countryCode : string
}.

Definition set_status (s : Status) (b : t) : t :=
  mk (_id b) (client b) (clientName b) (phoneNumber b) (email b) (service b)
     (date b) (time b) s (verificationCode b) (verified b) (emailCount b)
     (lastEmailSentAt b) (createdAt b) (completedAt b) (notes b) (countryCode b).

Definition set_notes (n : string) (b : t) : t :=
  mk (_id b) (client b) (clientName b) (phoneNumber b) (email b) (service b)
     (date b) (time b) (status b) (verificationCode b) (verified b) (emailCount b)
     (lastEmailSentAt b) (createdAt b) (completedAt b) (Some n) (countryCode b).

Definition set_completedAt (d : Z) (b : t) : t :=
  mk (_id b) (client b) (clientName b) (phoneNumber b) (email b) (service b)
     (date b) (time b) (status b) (verificationCode b) (verified b) (emailCount b)
     (lastEmailSentAt b) (createdAt b) (Some d) (notes b) (countryCode b).

(** [booking.emailCount += 1; booking.lastEmailSentAt = new Date(); await
    booking.save()] in the mail module: the schema bounds [emailCount] by 20,
    and a [save] rejected for it is caught there and writes nothing. *)
Definition count_email (now : Z) (b : t) : t :=
  if decide (emailCount b + 1 ≤ 20) then
    mk (_id b) (client b) (clientName b) (phoneNumber b) (email b) (service b)
       (date b) (time b) (status b) (verificationCode b) (verified b) (emailCount b + 1)
       (Some now) (createdAt b) (completedAt b) (notes b) (countryCode b)
  else b.
End Booking.

Module Client.
Record t := mk {
  _id : ObjectId;
  name : string;
  phoneNumber : string;
  email : string;
  countryCode : string;
  isBlocked : bool;
  blockReason : option string;
  blockDate : option Z;
  createdAt : Z;
  lastVisit : option Z;
  totalBookings : Z;
  completedBookings : Z;
  emailsSent : Z;
  lastEmailSentAt : option Z;
  notes : option string;
  lastModified : Z
}.

Definition set_contact (n p cc : string) (c : t) : t :=
  mk (_id c) n p (email c) cc (isBlocked c) (blockReason c) (blockDate c)
     (createdAt c) (lastVisit c) (totalBookings c) (completedBookings c)
     (emailsSent c) (lastEmailSentAt c) (notes c) (lastModified c).

Definition set_blocked (reason : string) (now : Z) (c : t) : t :=
  mk (_id c) (name c) (phoneNumber c) (email c) (countryCode c) true (Some reason)
     (Some now) (createdAt c) (lastVisit c) (totalBookings c) (completedBookings c)
     (emailsSent c) (lastEmailSentAt c) (notes c) (lastModified c).

Definition set_totalBookings (n : Z) (c : t) : t :=
  mk (_id c) (name c) (phoneNumber c) (email c) (countryCode c) (isBlocked c)
     (blockReason c) (blockDate c) (createdAt c) (lastVisit c) n
     (completedBookings c) (emailsSent c) (lastEmailSentAt c) (notes c)
     (lastModified c).

Definition set_completed (n : Z) (visit : Z) (c : t) : t :=
  mk (_id c) (name c) (phoneNumber c) (email c) (countryCode c) (isBlocked c)
     (blockReason c) (blockDate c) (createdAt c) (Some visit) (totalBookings c)
     n (emailsSent c) (lastEmailSentAt c) (notes c) (lastModified c).

Definition set_emailsSent (n : Z) (now : Z) (c : t) : t :=
  mk (_id c) (name c) (phoneNumber c) (email c) (countryCode c) (isBlocked c)
     (blockReason c) (blockDate c) (createdAt c) (lastVisit c) (totalBookings c)
     (completedBookings c) n (Some now) (notes c) (lastModified c).

(** The [pre('save')] hook: [this.lastModified = new Date()]. *)
Definition touch (now : Z) (c : t) : t :=
  mk (_id c) (name c) (phoneNumber c) (email c) (countryCode c) (isBlocked c)
     (blockReason c) (blockDate c) (createdAt c) (lastVisit c) (totalBookings c)
     (completedBookings c) (emailsSent c) (lastEmailSentAt c) (notes c) now.
End Client.

Module TimeLock.
Record t := mk {
  date : Z;
  time : string;
  serviceId : Z;
  lockedBy : string;
  lockedAt : Z
}.
End TimeLock.

Module BlockedDate.
Record t := mk {
  _id : ObjectId;
  date : Z;
  isFullDayBlocked : bool;
  blockedHours : list string;
  reason : string;
  createdBy : ObjectId;
  createdAt : Z;
  updatedAt : Z
}.
End BlockedDate.

(** ** Strings: what the schemas' [trim] and [lowercase] setters do *)

Module JsString.
Definition isSpace (c : ascii) : bool :=
  let n := Z.of_N (N_of_ascii c) in
  ((9 <=? n) && (n <=? 13)) || (n =? 32).

Fixpoint dropSpaces (l : list ascii) : list ascii :=
  match l with
  | c :: l' => if isSpace c then dropSpaces l' else l
  | [] => []
  end.

(** [s.trim()] (ASCII white space). *)
Definition trim (s : string) : string :=
  string_of_list_ascii
    (rev (dropSpaces (rev (dropSpaces (list_ascii_of_string s))))).

Definition lowerChar (c : ascii) : ascii :=
  let n := N_of_ascii c in
  if ((65 <=? n) && (n <=? 90))%N then ascii_of_N (n + 32) else c.

(** [s.toLowerCase()] (ASCII letters). *)
Definition toLowerCase (s : string) : string :=
  string_of_list_ascii (List.map lowerChar (list_ascii_of_string s)).

(** [s.replace(/^0/, '')]. *)
Definition dropLeadingZero (s : string) : string :=
  match s with
  | String c s' => if Ascii.eqb c "0" then s' else s
  | EmptyString => s
  end.
End JsString.

(** ** The store *)

Record Store := mkStore {
  services : list Service.t;
  bookings : list Booking.t;
  clients : list Client.t;
  timeLocks : list TimeLock.t;
  blockedDates : list BlockedDate.t
}.

Definition set_bookings (bs : list Booking.t) (st : Store) : Store :=
  mkStore (services st) bs (clients st) (timeLocks st) (blockedDates st).
Definition set_clients (cs : list Client.t) (st : Store) : Store :=
  mkStore (services st) (bookings st) cs (timeLocks st) (blockedDates st).
Definition set_timeLocks (ls : list TimeLock.t) (st : Store) : Store :=
  mkStore (services st) (bookings st) (clients st) ls (blockedDates st).
Definition set_blockedDates (ds : list BlockedDate.t) (st : Store) : Store :=
  mkStore (services st) (bookings st) (clients st) (timeLocks st) ds.

(** [Model.findById(id)]: the first document with that [_id]. *)
Definition Service_findById (st : Store) (id : Z) : option Service.t :=
  head (filter (λ s, Service._id s = id) (services st)).
Definition Booking_findById (st : Store) (id : ObjectId) : option Booking.t :=
  head (filter (λ b, Booking._id b = id) (bookings st)).
Definition Client_findById (st : Store) (id : ObjectId) : option Client.t :=
  head (filter (λ c, Client._id c = id) (clients st)).

(** [.populate('client')] on one booking: the referenced client, if the
    reference is set and resolves. *)
Definition populateClient (st : Store) (b : Booking.t) : option Client.t :=
  Booking.client b ≫= Client_findById st.

(** [doc.save()] of a loaded document: [f] writes the modified paths into the
    stored document with the same [_id]. *)
Definition Booking_update (id : ObjectId) (f : Booking.t → Booking.t) (st : Store) : Store :=
  set_bookings ((λ b, if decide (Booking._id b = id) then f b else b) <$> bookings st) st.
Definition Client_update (id : ObjectId) (f : Client.t → Client.t) (st : Store) : Store :=
  set_clients ((λ c, if decide (Client._id c = id) then f c else c) <$> clients st) st.

(** [Booking.findByIdAndDelete(id)]. *)
Definition Booking_findByIdAndDelete (id : ObjectId) (st : Store) : Store :=
  set_bookings (filter (λ b, Booking._id b ≠ id) (bookings st)) st.

(** The [_id] a new document receives: one the collection has not used. *)
Definition freshId (ids : list ObjectId) : ObjectId := 1 + foldr Z.max 0 ids.

(** ** models/Client.js *)

(** [Client.findByEmail(email)]. *)
Definition Client_findByEmail (st : Store) (email : string) : option Client.t :=
  if decide (email = "") then None
  else if decide (100 < String.length email)%nat then None
  else
    let cleanEmail := Js.slice0 100 (JsString.toLowerCase (JsString.trim email)) in
    head (filter (λ c, Client.email c = cleanEmail) (clients st)).

(** [client.incrementEmailCounter()] on a loaded document [doc]: the updated
    document and the store after the [save]. *)
Definition Client_incrementEmailCounter (now : Z) (doc : Client.t) (st : Store)
  : Client.t * Store :=
  if decide (1000 ≤ Client.emailsSent doc) then (doc, st)
  else
    let n := Client.emailsSent doc + 1 in
    (Client.touch now (Client.set_emailsSent n now doc),
     Client_update (Client._id doc) (λ c, Client.touch now (Client.set_emailsSent n now c)) st).

(** The assignments of [client.block(reason)], with the [trim] setter of
    [blockReason] and the [pre('save')] hook. *)
Definition Client_blocked (now : Z) (reason : option string) (c : Client.t) : Client.t :=
  let reason1 :=
    match reason with
    | Some r => if decide (200 < String.length r)%nat then Some (Js.slice0 200 r) else reason
    | None => None
    end in
  Client.touch now
    (Client.set_blocked (JsString.trim (default "No reason provided" (Js.truthyS reason1)))
       now c).

(** [client.block(reason)] on a loaded document. *)
Definition Client_block (now : Z) (reason : option string) (doc : Client.t) (st : Store)
  : Client.t * Store :=
  (Client_blocked now reason doc,
   Client_update (Client._id doc) (Client_blocked now reason) st).

(** ** config/email.js *)

Inductive MailKind := Verification | Confirmation | Rejection | UserBlocked.

(** What a send came to: refused or failed ([success: false], with the
    [error] text of the result); simulated in development mode
    ([success: true], nothing counted); really sent ([success: true],
    counters incremented). *)
Inductive MailVerdict := MailFailed (error : string) | MailMock | MailSent.

(** The verdict of each send, given what is sent, to whom and for which
    booking. *)
Definition Mailer := MailKind → string → option ObjectId → MailVerdict.

Record Usage := mkUsage {
  usage_success : bool;
  usage_remaining : option Z   (* the field the handlers read; never set *)
}.

(** [!usage.success || usage.remaining <= 0]; [undefined <= 0] is false. *)
Definition usageExhausted (u : Usage) : bool :=
  negb (usage_success u) ||
  match usage_remaining u with
  | Some r => bool_decide (r ≤ 0)
  | None => false
  end.

Definition getBookingEmailUsage (st : Store) (bookingId : ObjectId) : Usage :=
  match Booking_findById st bookingId with
  | Some _ => mkUsage true None
  | None => mkUsage false None
  end.

Definition getDailyEmailUsage (email : string) : Usage :=
  if decide (email = "") then mkUsage false None
  else if decide (100 < String.length email)%nat then mkUsage false None
  else mkUsage true None.

Definition incrementDailyEmailCounter (now : Z) (email : string) (st : Store) : Store :=
  match Client_findByEmail st email with
  | Some c => (Client_incrementEmailCounter now c st).2
  | None => st
  end.

Definition incrementBookingEmailCounter (now : Z) (bookingId : ObjectId) (st : Store) : Store :=
  Booking_update bookingId (Booking.count_email now) st.

(** The four senders: [success] of the result and the store afterwards. *)
Definition sendMail (mail : Mailer) (kind : MailKind) (now : Z) (to : string)
    (bookingId : option ObjectId) (st : Store) : bool * Store :=
  if decide (to = "") then (false, st)
  else
    match mail kind to bookingId with
    | MailFailed _ => (false, st)
    | MailMock => (true, st)
    | MailSent =>
        let st1 := incrementDailyEmailCounter now to st in
        (true,
         match bookingId with
         | Some id => incrementBookingEmailCounter now id st1
         | None => st1
         end)
    end.

Definition sendVerificationEmail mail now to (id : ObjectId) :=
  sendMail mail Verification now to (Some id).

(** [emailResult.error] of a [sendVerificationEmail] that did not succeed. *)
Definition sendVerificationEmail_error (mail : Mailer) (to : string) (id : ObjectId) : string :=
  if decide (to = "") then "Adresa de email este obligatorie"
  else
    match mail Verification to (Some id) with
    | MailFailed error => error
    | MailMock | MailSent => ""
    end.

Definition sendBookingConfirmationEmail mail now to (id : ObjectId) :=
  sendMail mail Confirmation now to (Some id).
Definition sendBookingRejectionEmail mail now to (id : ObjectId) :=
  sendMail mail Rejection now to (Some id).
Definition sendUserBlockedEmail mail now to :=
  sendMail mail UserBlocked now to None.

(** ** models/BlockedDates.js *)

Inductive BlockType := fullDay | specificHours.

#[global] Instance BlockType_eq_dec : EqDecision BlockType.
Proof. solve_decision. Defined.

Record BlockInfo := mkBlockInfo {
  isBlocked : bool;
  blockReason : option string;
  blockType : option BlockType
}.

Definition notBlocked : BlockInfo := mkBlockInfo false None None.

(** [BlockedDate.findOne({ date: { $gte: startOfDay, $lte: endOfDay } })]. *)
Definition BlockedDate_findForDay (st : Store) (date : Z) : option BlockedDate.t :=
  head (filter (λ d, JsDate.startOfDay date ≤ BlockedDate.date d ∧
                     BlockedDate.date d ≤ JsDate.endOfDay date)
               (blockedDates st)).

(** [BlockedDate.isDateTimeBlocked(date, time = null)]. *)
Definition isDateTimeBlocked (st : Store) (date : Z) (time : option string) : BlockInfo :=
  let malformed :=
    match Js.truthyS time with
    | Some t => negb (TimeString.test t)
    | None => false
    end in
  if malformed then notBlocked
  else
    match BlockedDate_findForDay st date with
    | None => notBlocked
    | Some blockedDate =>
        if BlockedDate.isFullDayBlocked blockedDate
        then mkBlockInfo true (Some (BlockedDate.reason blockedDate)) (Some fullDay)
        else
          match Js.truthyS time with
          | None => notBlocked
          | Some t =>
              let isHourBlocked := bool_decide (t ∈ BlockedDate.blockedHours blockedDate) in
              mkBlockInfo isHourBlocked
                (if isHourBlocked then Some (BlockedDate.reason blockedDate) else None)
                (if isHourBlocked then Some specificHours else None)
          end
    end.

Record BlockedHours := mkBlockedHours {
  bh_isFullDayBlocked : bool;
  bh_blockedHours : list string;
  bh_reason : option string
}.

(** [BlockedDate.getBlockedHours(date)]. *)
Definition getBlockedHours (st : Store) (date : Z) : BlockedHours :=
  match BlockedDate_findForDay st date with
  | None => mkBlockedHours false [] None
  | Some blockedDate =>
      mkBlockedHours (BlockedDate.isFullDayBlocked blockedDate)
        (BlockedDate.blockedHours blockedDate)
        (Some (BlockedDate.reason blockedDate))
  end.

(** ** models/Booking.js: the availability check *)

(** The three-way test both loops of [isTimeSlotAvailable] apply to the
    candidate [startTime, endTime] and an occupied [otherStart, otherEnd]. *)
Definition overlaps (startTime endTime otherStart otherEnd : Z) : bool :=
  ((startTime >=? otherStart) && (startTime <? otherEnd)) ||
  ((endTime >? otherStart) && (endTime <=? otherEnd)) ||
  ((startTime <=? otherStart) && (endTime >=? otherEnd)).

(** The day range of the two queries:
    [{ $gte: new Date(date.toDateString()), $lt: that + 24h }]. *)
Definition onDayOf (date d : Z) : Prop :=
  JsDate.startOfDay date ≤ d ∧ d < JsDate.startOfDay date + 24 * 60 * 60 * 1000.

#[global] Instance onDayOf_dec date d : Decision (onDayOf date d).
Proof. unfold onDayOf. apply _. Defined.

(** [TimeLock.find({ date: <day of date>, serviceId: { $in: serviceIds } }).limit(50)]. *)
Definition activeLocks (st : Store) (date : Z) : list TimeLock.t :=
  let serviceIds := Service._id <$> services st in
  take 50 (filter (λ l, onDayOf date (TimeLock.date l) ∧ TimeLock.serviceId l ∈ serviceIds)
                  (timeLocks st)).

(** One lock against the candidate: the lock's service gives the duration
    ([services.find(s => s._id === lock.serviceId)]; none: [continue]). *)
Definition lockBlocks (st : Store) (startTime endTime : Z) (lock : TimeLock.t) : bool :=
  match head (filter (λ s, Service._id s = TimeLock.serviceId lock) (services st)) with
  | None => false
  | Some lockService =>
      match TimeString.at_ (TimeLock.date lock) (TimeLock.time lock) with
      | None => false
      | Some lockStartTime =>
          let lockEndTime := lockStartTime + Service.duration lockService * 60000 in
          overlaps startTime endTime lockStartTime lockEndTime
      end
  end.

(** [Booking.find({ date: <day of date>, status: { $in: ['pending', 'confirmed'] } }).limit(50)]. *)
Definition overlappingBookings (st : Store) (date : Z) : list Booking.t :=
  take 50 (filter (λ b, onDayOf date (Booking.date b) ∧
                        (Booking.status b = pending ∨ Booking.status b = confirmed))
                  (bookings st)).

(** One booking against the candidate ([Service.findById(booking.service)];
    none: [continue]). *)
Definition bookingBlocks (st : Store) (startTime endTime : Z) (booking : Booking.t) : bool :=
  match Service_findById st (Booking.service booking) with
  | None => false
  | Some service =>
      match TimeString.at_ (Booking.date booking) (Booking.time booking) with
      | None => false
      | Some bookingStartTime =>
          let bookingEndTime := bookingStartTime + Service.duration service * 60000 in
          overlaps startTime endTime bookingStartTime bookingEndTime
      end
  end.

(** [isTimeSlotAvailable(date, time, duration)]. *)
Definition isTimeSlotAvailable (st : Store) (date : Z) (time : string) (duration : Z) : bool :=
  if decide (time = "") then false
  else if decide (duration ≤ 0 ∨ 240 < duration) then false
  else
    match TimeString.parse time with
    | None => false
    | Some (hour, minute) =>
        let startTime := JsDate.setHours date hour minute 0 0 in
        let endTime := startTime + duration * 60000 in
        let dayOfWeek := JsDate.getDay date in
        if decide (dayOfWeek = 0) then false
        else
          let timeInMinutes := hour * 60 + minute in
          let endTimeInMinutes := timeInMinutes + duration in
          let closed :=
            if decide (dayOfWeek = 6)
            then bool_decide (timeInMinutes < 10 * 60 ∨ 13 * 60 < endTimeInMinutes)
            else bool_decide (timeInMinutes < 10 * 60 ∨ 19 * 60 < endTimeInMinutes) in
          if closed then false
          else if existsb (lockBlocks st startTime endTime) (activeLocks st date) then false
          else if existsb (bookingBlocks st startTime endTime) (overlappingBookings st date) then false
          else if isBlocked (isDateTimeBlocked st date (Some time)) then false
          else
            let finalDayBlockCheck := isDateTimeBlocked st date None in
            if isBlocked finalDayBlockCheck && bool_decide (blockType finalDayBlockCheck = Some fullDay)
            then false
            else true
    end.

(** The 30-minute grid of a working day:
    [for (hour = startHour; hour < endHour; hour++) for (minute = 0; minute < 60; minute += 30)]. *)
Definition grid (startHour endHour : Z) : list (Z * Z) :=
  hour ← seqZ startHour (endHour - startHour); [(hour, 0); (hour, 30)].

Definition workingHours (dayOfWeek : Z) : Z * Z :=
  if decide (dayOfWeek = 6) then (10, 13) else (10, 19).

(** [generateAvailableTimeSlots(date, duration)]. *)
Definition generateAvailableTimeSlots (st : Store) (date : Z) (duration : Z) : list string :=
  let dayOfWeek := JsDate.getDay date in
  if decide (dayOfWeek = 0) then []
  else
    let dayBlockCheck := isDateTimeBlocked st date None in
    if isBlocked dayBlockCheck && bool_decide (blockType dayBlockCheck = Some fullDay) then []
    else
      let '(startHour, endHour) := workingHours dayOfWeek in
      '(hour, minute) ← grid startHour endHour;
      let startTime := TimeString.format hour minute in
      let startTimeInMinutes := hour * 60 + minute in
      let endTimeInMinutes := startTimeInMinutes + duration in
      if decide (endHour * 60 < endTimeInMinutes) then []
      else if isTimeSlotAvailable st date startTime duration then [startTime] else [].

(** ** [Date.prototype.toISOString] *)

Module Iso.
(** Civil date of a day number (days since 1970-01-01). *)
Definition civil (days : Z) : Z * Z * Z :=
  let z := days + 719468 in
  let era := z / 146097 in
  let doe := z - era * 146097 in
  let yoe := (doe - doe / 1460 + doe / 36524 - doe / 146096) / 365 in
  let doy := doe - (365 * yoe + yoe / 4 - yoe / 100) in
  let mp := (5 * doy + 2) / 153 in
  let d := doy - (153 * mp + 2) / 5 + 1 in
  let m := if mp <? 10 then mp + 3 else mp - 9 in
  let y := yoe + era * 400 + (if m <=? 2 then 1 else 0) in
  (y, m, d).

Definition pad (width : nat) (n : Z) : string :=
  let s := Js.toString n in
  string_of_list_ascii (replicate (width - String.length s) "0"%char) +:+ s.

(** [d.toISOString()], for the years 0000 to 9999. *)
Definition toISOString (d : Z) : string :=
  let '(y, m, dd) := civil (d / JsDate.msPerDay) in
  let t := d mod JsDate.msPerDay in
  pad 4 y +:+ "-" +:+ pad 2 m +:+ "-" +:+ pad 2 dd +:+ "T" +:+
  pad 2 (t / 3600000) +:+ ":" +:+ pad 2 (t / 60000 mod 60) +:+ ":" +:+
  pad 2 (t / 1000 mod 60) +:+ "." +:+ pad 3 (t mod 1000) +:+ "Z".
End Iso.

(** ** utils/autoCleanup.js *)

(** The documents [.populate('client')] attaches to the bookings of one query:
    bookings that refer to the same client share one document, so a change
    made through one booking is seen through the others. *)
Abbreviation Docs := (gmap ObjectId Client.t).

Definition populateClients (st : Store) (found : list Booking.t) : Docs :=
  foldr (λ b docs,
           match populateClient st b with
           | Some c => <[Client._id c := c]> docs
           | None => docs
           end) ∅ found.

(** [booking.client] after [populate]. *)
Definition clientDoc (docs : Docs) (booking : Booking.t) : option Client.t :=
  Booking.client booking ≫= (docs !!.).

Record Counts := mkCounts {
  cleaned : Z;
  errors : Z;
  emailsSent : Z
}.

Record Sweep := mkSweep {
  store : Store;
  docs : Docs;
  counts : Counts
}.

(** [sendAutoDeclineEmail(booking)]. *)
Definition sendAutoDeclineEmail (mail : Mailer) (now : Z) (booking : Booking.t)
    (st : Store) (ds : Docs) : bool * Store * Docs :=
  match Service_findById st (Booking.service booking) with
  | None => (false, st, ds)
  | Some service =>
      let '(success, st1) :=
        sendBookingRejectionEmail mail now (Booking.email booking) (Booking._id booking) st in
      if success then
        match clientDoc ds booking with
        | Some doc =>
            let '(doc1, st2) := Client_incrementEmailCounter now doc st1 in
            (true, st2, <[Client._id doc := doc1]> ds)
        | None => (true, st1, ds)
        end
      else (false, st1, ds)
  end.

(** [booking.client.totalBookings = Math.max(0, booking.client.totalBookings - 1);
     await booking.client.save()], when the booking has a client. *)
Definition releaseClientBooking (now : Z) (booking : Booking.t) (st : Store) (ds : Docs)
  : Store * Docs :=
  match clientDoc ds booking with
  | Some doc =>
      let total := Z.max 0 (Client.totalBookings doc - 1) in
      (Client_update (Client._id doc)
         (λ c, Client.touch now (Client.set_totalBookings total c)) st,
       <[Client._id doc := Client.touch now (Client.set_totalBookings total doc)]> ds)
  | None => (st, ds)
  end.

Definition autoDeclineNote (now : Z) : string :=
  "Respinsă automat - programarea a expirat la " +:+ Iso.toISOString now.

(** The scheduled moment of a booking has passed:
    [bookingDateTime.setHours(hours, minutes, 0, 0); bookingDateTime < now].
    (Stored times match the schema's pattern; an invalid date compares false.) *)
Definition isExpired (now : Z) (booking : Booking.t) : bool :=
  match TimeString.parse (Booking.time booking) with
  | Some (hours, minutes) =>
      bool_decide (JsDate.setHours (Booking.date booking) hours minutes 0 0 < now)
  | None => false
  end.

(** The body of the second loop of [cleanupExpiredBookings]. *)
Definition autoExpire (mail : Mailer) (now : Z) (acc : Sweep) (booking : Booking.t) : Sweep :=
  let '(emailSent, st1, ds1) := sendAutoDeclineEmail mail now booking (store acc) (docs acc) in
  let '(st2, ds2) := releaseClientBooking now booking st1 ds1 in
  let st3 :=
    Booking_update (Booking._id booking)
      (λ b, Booking.set_notes (autoDeclineNote now) (Booking.set_status declined b)) st2 in
  mkSweep st3 ds2
    (mkCounts (cleaned (counts acc) + 1) (errors (counts acc))
       (emailsSent (counts acc) + (if emailSent then 1 else 0))).

(** [Booking.find({ status: 'pending', verified: true })]. *)
Definition pendingVerifiedBookings (st : Store) : list Booking.t :=
  filter (λ b, Booking.status b = pending ∧ Booking.verified b = true) (bookings st).

(** The [expiredBookings] that the first loop of [cleanupExpiredBookings]
    collects. *)
Definition expiredBookings (now : Z) (st : Store) : list Booking.t :=
  List.filter (isExpired now) (pendingVerifiedBookings st).

(** [cleanupExpiredBookings()]. *)
Definition cleanupExpiredBookings (mail : Mailer) (now : Z) (st : Store) : Store * Counts :=
  match pendingVerifiedBookings st with
  | [] => (st, mkCounts 0 0 0)
  | _ =>
      match expiredBookings now st with
      | [] => (st, mkCounts 0 0 0)
      | _ =>
          let final :=
            foldl (autoExpire mail now)
              (mkSweep st (populateClients st (pendingVerifiedBookings st)) (mkCounts 0 0 0))
              (expiredBookings now st) in
          (store final, counts final)
      end
  end.

(** The body of the loop of [cleanupUnconfirmedBookings]. *)
Definition dropUnconfirmed (now : Z) (acc : Sweep) (booking : Booking.t) : Sweep :=
  let '(st1, ds1) := releaseClientBooking now booking (store acc) (docs acc) in
  mkSweep (Booking_findByIdAndDelete (Booking._id booking) st1) ds1
    (mkCounts (cleaned (counts acc) + 1) (errors (counts acc)) (emailsSent (counts acc))).

(** [Booking.find({ status: 'pending', verified: false,
                    createdAt: { $lt: fifteenMinutesAgo } })]. *)
Definition oldUnconfirmedBookings (now : Z) (st : Store) : list Booking.t :=
  let fifteenMinutesAgo := JsDate.addMinutes now (-15) in
  filter (λ b, Booking.status b = pending ∧ Booking.verified b = false ∧
               Booking.createdAt b < fifteenMinutesAgo) (bookings st).

(** [cleanupUnconfirmedBookings()]. *)
Definition cleanupUnconfirmedBookings (now : Z) (st : Store) : Store * Counts :=
  match oldUnconfirmedBookings now st with
  | [] => (st, mkCounts 0 0 0)
  | _ =>
      let final :=
        foldl (dropUnconfirmed now)
          (mkSweep st (populateClients st (oldUnconfirmedBookings now st)) (mkCounts 0 0 0))
          (oldUnconfirmedBookings now st) in
      (store final, counts final)
  end.

(** The filter [{ status: 'declined', createdAt: { $lt: sevenDaysAgo } }]. *)
Definition oldDeclined (now : Z) (b : Booking.t) : Prop :=
  Booking.status b = declined ∧ Booking.createdAt b < JsDate.addDays now (-7).

#[global] Instance oldDeclined_dec now b : Decision (oldDeclined now b).
Proof. unfold oldDeclined. apply _. Defined.

(** [cleanupDeclinedBookings()]. *)
Definition cleanupDeclinedBookings (now : Z) (st : Store) : Store * Counts :=
  let oldDeclinedBookings := filter (oldDeclined now) (bookings st) in
  match oldDeclinedBookings with
  | [] => (st, mkCounts 0 0 0)
  | _ =>
      (set_bookings (filter (λ b, ¬ oldDeclined now b) (bookings st)) st,
       mkCounts (Z.of_nat (length oldDeclinedBookings)) 0 0)
  end.

(** The filter [{ date: { $lt: yesterday } }], [yesterday] being the last
    millisecond of the day before [now]. *)
Definition blockExpired (now : Z) (d : BlockedDate.t) : Prop :=
  BlockedDate.date d < JsDate.endOfDay (JsDate.addDays now (-1)).

#[global] Instance blockExpired_dec now d : Decision (blockExpired now d).
Proof. unfold blockExpired. apply _. Defined.

(** [cleanupExpiredBlockedDates()]. *)
Definition cleanupExpiredBlockedDates (now : Z) (st : Store) : Store * Counts :=
  (set_blockedDates (filter (λ d, ¬ blockExpired now d) (blockedDates st)) st,
   mkCounts (Z.of_nat (length (filter (blockExpired now) (blockedDates st)))) 0 0).

Record CleanupResults := mkResults {
  r_expired : Counts;
  r_unconfirmed : Counts;
  r_declined : Counts;
  r_blockedDates : Counts;
  totalCleaned : Z;
  totalErrors : Z;
  timestamp : Z
}.

(** [runFullCleanup()]. *)
Definition runFullCleanup (mail : Mailer) (now : Z) (st : Store) : Store * CleanupResults :=
  let '(st1, sweptExpired) := cleanupExpiredBookings mail now st in
  let '(st2, sweptUnconfirmed) := cleanupUnconfirmedBookings now st1 in
  let '(st3, sweptDeclined) := cleanupDeclinedBookings now st2 in
  let '(st4, sweptBlocked) := cleanupExpiredBlockedDates now st3 in
  (st4,
   mkResults sweptExpired sweptUnconfirmed sweptDeclined sweptBlocked
     (cleaned sweptExpired + cleaned sweptUnconfirmed + cleaned sweptDeclined +
      cleaned sweptBlocked)
     (errors sweptExpired + errors sweptUnconfirmed + errors sweptDeclined +
      errors sweptBlocked)
     now).


(** ** controllers: responses, process state and the handler monad *)

Record ConflictingBooking := mkConflict {
  cb_id : ObjectId;
  cb_clientName : string;
  cb_time : string;
  cb_service : string;
  cb_status : Status;
  cb_conflictingHour : option string
}.

Inductive Body :=
| NoBody
| TimeSlots (timeSlots : list string)
| BookingData (serviceId : Z) (date : Z) (time : string)
| BookingId (bookingId : ObjectId)
| EmailStatus (emailStatus : string)
| BookingSummary (id : ObjectId) (status : Status)
| Conflicts (conflictingBookings : list ConflictingBooking)
| BlockedDateInfo (blockedDate : BlockedDate.t)
| CleanupReport (results : CleanupResults).

Record Response := mkResponse {
  statusCode : Z;
  success : bool;
  message : string;
  body : Body
}.

(** [errorResponse(res, status, message)]. *)
Definition errorResponse (status : Z) (message : string) : Response :=
  mkResponse status false message NoBody.

(** [serviceCache]: services by id, refreshed when older than [ttl]. *)
Record ServiceCache := mkCache {
  cachedServices : gmap Z Service.t;
  lastUpdated : Z
}.

Definition ttl : Z := 60000.

Definition refreshCache (now : Z) (st : Store) : ServiceCache :=
  mkCache (foldl (λ m service, <[Service._id service := service]> m) ∅ (services st)) now.

(** [rateLimit]: [attempts] and [resetTimers] are object literals used as
    maps.  Their own properties are the keys counted so far: [attempts] and
    [resetTimers] hold the own properties whose value is a number, and
    [notANumber] the keys whose own [attempts] value is [NaN] (what [++]
    leaves when it starts from an inherited property). *)
Record RateLimit := mkRateLimit {
  attempts : gmap string Z;
  resetTimers : gmap string Z;
  lastCleanup : Z;
  notANumber : gset string
}.

(** The names every object literal inherits from [Object.prototype]: read
    without an own property of that name, [attempts[key]] and
    [resetTimers[key]] are then a function, or for [__proto__] the prototype
    itself, not [undefined]. *)
Definition inheritedNames : list string :=
  ["constructor"; "hasOwnProperty"; "isPrototypeOf"; "propertyIsEnumerable";
   "toLocaleString"; "toString"; "valueOf"; "__defineGetter__"; "__defineSetter__";
   "__lookupGetter__"; "__lookupSetter__"; "__proto__"].

(** What [this.attempts[key]] reads. *)
Inductive Attempts := Counted (n : Z) | NaN | Inherited | Undefined.

Definition readAttempts (rl : RateLimit) (key : string) : Attempts :=
  match attempts rl !! key with
  | Some n => Counted n
  | None =>
      if decide (key ∈ notANumber rl) then NaN
      else if decide (key ∈ inheritedNames) then Inherited
      else Undefined
  end.

(** [this.attempts[key] = 0; this.resetTimers[key] = now + timeWindowMs].
    An assignment to [__proto__] of a value that is no object goes to the
    setter of [Object.prototype], which ignores it. *)
Definition restart (now : Z) (key : string) (timeWindowMs : Z) (rl : RateLimit) : RateLimit :=
  if decide (key = "__proto__") then rl
  else
    mkRateLimit (<[key := 0]> (attempts rl)) (<[key := now + timeWindowMs]> (resetTimers rl))
                (lastCleanup rl) (notANumber rl ∖ {[key]}).

(** [_cleanup()]: the [for ... in] runs over the own properties of
    [resetTimers]. *)
Definition rateLimit_cleanup (now : Z) (rl : RateLimit) : RateLimit :=
  let stale (key : string) : bool :=
    match resetTimers rl !! key with
    | Some t => bool_decide (t + 3600000 < now)
    | None => false
    end in
  mkRateLimit (filter (λ kv, stale kv.1 = false) (attempts rl))
              (filter (λ kv, stale kv.1 = false) (resetTimers rl))
              (lastCleanup rl)
              (filter (λ key, stale key = false) (notANumber rl)).

(** [rateLimit.check(key, maxAttempts, timeWindowMs)].  A comparison with
    [NaN], a function or [undefined] is false, and [++] on a function or on
    the prototype gives [NaN]. *)
Definition rateLimit_check (now : Z) (key : string) (maxAttempts timeWindowMs : Z)
    (rl : RateLimit) : bool * RateLimit :=
  let rl1 :=
    if decide (lastCleanup rl = 0 ∨ 3600000 < now - lastCleanup rl)
    then let c := rateLimit_cleanup now rl in
         mkRateLimit (attempts c) (resetTimers c) now (notANumber c)
    else rl in
  let rl2 :=
    match readAttempts rl1 key with
    | Counted 0 | NaN | Undefined => restart now key timeWindowMs rl1
    | Counted _ | Inherited => rl1
    end in
  let rl3 :=
    match resetTimers rl2 !! key with
    | Some t => if decide (t < now) then restart now key timeWindowMs rl2 else rl2
    | None => rl2
    end in
  match readAttempts rl3 key with
  | Counted n =>
      (bool_decide (n + 1 ≤ maxAttempts),
       mkRateLimit (<[key := n + 1]> (attempts rl3)) (resetTimers rl3) (lastCleanup rl3)
                   (notANumber rl3))
  | NaN => (false, rl3)
  | Inherited | Undefined =>
      (false,
       if decide (key = "__proto__") then rl3
       else mkRateLimit (attempts rl3) (resetTimers rl3) (lastCleanup rl3)
                        (notANumber rl3 ∪ {[key]}))
  end.

Record SessionBooking := mkSessionBooking {
  sb_serviceId : Z;
  sb_date : Z;
  sb_time : string;
  sb_createdAt : Z
}.

(** [req.session] as far as the booking flow uses it. *)
Record Session := mkSession {
  bookingData : option SessionBooking;
  bookingDataExpiry : option Z;
  sessionBookingId : option ObjectId
}.

(** What a request handler can read and change: the database, the two
    in-process tables and the session of the request. *)
Record World := mkWorld {
  db : Store;
  serviceCache : ServiceCache;
  rateLimit : RateLimit;
  session : option Session
}.

(** A handler step either goes on with a value or has already sent the
    response ([return res.status(...).json(...)]). *)
Definition Handler (A : Type) : Type := World → World * (Response + A).

Definition ret {A} (a : A) : Handler A := λ w, (w, inr a).
Definition bind {A B} (m : Handler A) (k : A → Handler B) : Handler B :=
  λ w, match m w with
       | (w1, inl r) => (w1, inl r)
       | (w1, inr a) => k a w1
       end.
Definition reply {A} (r : Response) : Handler A := λ w, (w, inl r).
Definition query {A} (f : Store → A) : Handler A := λ w, (w, inr (f (db w))).
Definition update (f : Store → Store) : Handler unit :=
  λ w, (mkWorld (f (db w)) (serviceCache w) (rateLimit w) (session w), inr tt).
Definition effect {A} (f : Store → A * Store) : Handler A :=
  λ w, let '(a, st) := f (db w) in
       (mkWorld st (serviceCache w) (rateLimit w) (session w), inr a).
Definition setSession (f : Session → Session) : Handler unit :=
  λ w, (mkWorld (db w) (serviceCache w) (rateLimit w) (f <$> session w), inr tt).
Definition when (c : bool) (m : Handler unit) : Handler unit :=
  if c then m else ret tt.

Definition run (h : Handler Response) (w : World) : World * Response :=
  match h w with
  | (w1, inl r) => (w1, r)
  | (w1, inr r) => (w1, r)
  end.

Declare Scope handler_scope.
Delimit Scope handler_scope with handler.
Notation "'do' x <- m ; k" := (bind m (λ x, k))
  (at level 10, x name, m at level 100, k at level 200) : handler_scope.
Notation "'do' ' p <- m ; k" := (bind m (λ x, let 'p := x in k))
  (at level 10, p pattern, m at level 100, k at level 200) : handler_scope.
Notation "m ;; k" := (bind m (λ _, k))
  (at level 100, k at level 200, right associativity) : handler_scope.
Local Open Scope handler_scope.

(** [serviceCache.getService(serviceId)]. *)
Definition getService (now : Z) (serviceId : Z) : Handler (option Service.t) :=
  λ w,
    let cache :=
      if decide (ttl < now - lastUpdated (serviceCache w))
      then refreshCache now (db w)
      else serviceCache w in
    (mkWorld (db w) cache (rateLimit w) (session w), inr (cachedServices cache !! serviceId)).

(** [serviceCache.getService(id)], then [Service.findById(id)] when the cache
    has no such service. *)
Definition lookupService (now : Z) (serviceId : Z) : Handler (option Service.t) :=
  do cached <- getService now serviceId;
  match cached with
  | Some service => ret (Some service)
  | None => query (λ st, Service_findById st serviceId)
  end.

(** ** controllers/bookingController.js: availability and the slot lock *)

Definition slotTaken (time : string) : string :=
  "Intervalul orar " +:+ time +:+
  " a fost rezervat de un alt client în același timp. Te rugăm să selectezi o altă oră.".

(** [getAvailableTimeSlots] once the service has been looked up: the
    filtering of the day's grid and the answer. *)
Definition slotsReply (now : Z) (date : Z) (found : option Service.t) : Handler Response :=
  let selectedDate := date in
  match found with
  | None =>
      reply (errorResponse 404
               "Serviciul nu a fost găsit. Vă rugăm să alegeți un serviciu valid.")
  | Some service =>
      let dayOfWeek := JsDate.getDay selectedDate in
      if decide (dayOfWeek = 0) then
        reply (mkResponse 200 true
                 "Nu sunt disponibile programări duminica. Program de lucru: Luni-Sâmbătă."
                 (TimeSlots []))
      else
        do dayBlockCheck <- query (λ st, isDateTimeBlocked st selectedDate None);
        if isBlocked dayBlockCheck && bool_decide (blockType dayBlockCheck = Some fullDay) then
          reply (mkResponse 200 true
                   (default "" (blockReason dayBlockCheck) +:+
                    ". Te rugăm să selectezi o altă dată.")
                   (TimeSlots []))
        else
          let isToday := bool_decide (JsDate.startOfDay selectedDate = JsDate.startOfDay now) in
          let '(startHour, endHour) := workingHours dayOfWeek in
          let allPossibleSlots :=
            filter (λ slot, slot.1 * 60 + slot.2 + Service.duration service ≤ endHour * 60)
                   (grid startHour endHour) in
          do availableSlots <-
            query (λ st,
              '(hour, minute) ← allPossibleSlots;
              let time := TimeString.format hour minute in
              let started :=
                isToday && bool_decide (JsDate.setHours selectedDate hour minute 0 0 ≤ now) in
              if started then []
              else if isTimeSlotAvailable st selectedDate time (Service.duration service)
                   then [time] else []);
          match availableSlots with
          | [] =>
              do blockedInfo <- query (λ st, getBlockedHours st selectedDate);
              let message1 :=
                if isToday then
                  "Nu mai există intervale orare disponibile pentru astăzi (ora curentă: " +:+
                  TimeString.format (JsDate.getHours now) (JsDate.getMinutes now) +:+
                  "). Te rugăm să selectezi o altă dată."
                else "Nu există intervale orare disponibile pentru data selectată." in
              let message2 :=
                match bh_blockedHours blockedInfo with
                | [] => message1
                | _ => default "" (bh_reason blockedInfo) +:+
                       ". Te rugăm să selectezi o altă dată."
                end in
              reply (mkResponse 200 true message2 (TimeSlots []))
          | _ => reply (mkResponse 200 true "" (TimeSlots availableSlots))
          end
  end.

(** [getAvailableTimeSlots(req, res)] for [req.body = { date, serviceId }]:
    the cleanup first, then the service, then the slots. *)
Definition getAvailableTimeSlots (mail : Mailer) (now : Z) (date serviceId : Z)
  : Handler Response :=
  do _ <- effect (λ st, let '(st1, results) := runFullCleanup mail now st in (results, st1));
  do found <- lookupService now serviceId;
  slotsReply now date found.

(** The unique index of [timeLockSchema] is on [(date, time, serviceId)]. *)
Definition lockKey (l : TimeLock.t) : Z * string * Z :=
  (TimeLock.date l, TimeLock.time l, TimeLock.serviceId l).

(** [timeLock.save()] of a new lock: [None] is the duplicate-key error
    (code 11000) that the unique index raises. *)
Definition TimeLock_save (lock : TimeLock.t) (st : Store) : option Store :=
  if decide (lockKey lock ∈ lockKey <$> timeLocks st) then None
  else Some (set_timeLocks (timeLocks st ++ [lock]) st).

(** [deleteOne(filter)]: the first matching document goes. *)
Fixpoint deleteOne {A} (matches : A → bool) (l : list A) : list A :=
  match l with
  | [] => []
  | x :: l' => if matches x then l' else x :: deleteOne matches l'
  end.

(** [TimeLock.deleteOne({ date, time, serviceId, lockedBy })]. *)
Definition TimeLock_deleteOne (date : Z) (time : string) (serviceId : Z) (lockedBy : string)
    (st : Store) : Store :=
  set_timeLocks
    (deleteOne (λ l, bool_decide (TimeLock.date l = date ∧ TimeLock.time l = time ∧
                                  TimeLock.serviceId l = serviceId ∧
                                  TimeLock.lockedBy l = lockedBy))
               (timeLocks st)) st.

(** The [try { await timeLock.save() } catch (lockError) { ... }] of
    [createBooking]: the insert, or the rejection on a duplicate key. *)
Definition acquireLock (now : Z) (sessionID : string) (serviceId date : Z) (time : string)
  : Handler unit :=
  λ w,
    match TimeLock_save (TimeLock.mk date time serviceId sessionID now) (db w) with
    | None => (w, inl (errorResponse 400 (slotTaken time)))
    | Some st => (mkWorld st (serviceCache w) (rateLimit w) (session w), inr tt)
    end.

Definition BOOKING_SESSION_TIMEOUT_MINS : Z := 15.
Definition MAX_BOOKING_DAYS_AHEAD : Z := 30.

(** [createBooking(req, res)] for [req.body = { serviceId, date, time }]. *)
Definition createBooking (now : Z) (sessionID : string) (serviceId date : Z) (time : string)
  : Handler Response :=
  do found <- lookupService now serviceId;
  match found with
  | None =>
      reply (errorResponse 404
               "Serviciul nu a fost găsit. Vă rugăm să alegeți un serviciu valid.")
  | Some service =>
      let selectedDate := date in
      do isAvailable <-
        query (λ st, isTimeSlotAvailable st selectedDate time (Service.duration service));
      if negb isAvailable then
        do blockCheck <- query (λ st, isDateTimeBlocked st selectedDate (Some time));
        if isBlocked blockCheck then
          reply (errorResponse 400
                   (default "" (blockReason blockCheck) +:+
                    ". Te rugăm să selectezi altă dată sau oră."))
        else reply (errorResponse 400 (slotTaken time))
      else
        do _ <- acquireLock now sessionID serviceId selectedDate time;
        do _ <- setSession (λ s,
                  mkSession (Some (mkSessionBooking serviceId selectedDate time now))
                            (Some (now + BOOKING_SESSION_TIMEOUT_MINS * 60 * 1000))
                            (sessionBookingId s));
        reply (mkResponse 200 true "Intervalul orar a fost rezervat temporar"
                 (BookingData (Service._id service) selectedDate time))
  end.

(** ** controllers/bookingController.js: creating the booking *)

(** [req.body] of [completeBooking]; an absent field is [None]. *)
Record ClientInfo := mkClientInfo {
  ci_clientName : string;
  ci_phoneNumber : string;
  ci_email : string;
  ci_countryCode : string;
  ci_serviceId : option Z;
  ci_date : option Z;
  ci_time : option string
}.

(** [new Client({ name, phoneNumber, email, countryCode })] with the schema's
    setters and defaults. *)
Definition newClient (id : ObjectId) (now : Z) (name phoneNumber email countryCode : string)
  : Client.t :=
  Client.mk id (JsString.trim name) (JsString.trim phoneNumber)
    (JsString.toLowerCase (JsString.trim email)) (JsString.trim countryCode)
    false None None now None 0 0 0 None None now.

(** [await client.save()] of a new client. *)
Definition Client_insert (c : Client.t) (st : Store) : Store :=
  set_clients (clients st ++ [c]) st.

(** [new Booking({ ... })] of [completeBooking], with the schema's setters
    and defaults. *)
Definition newBooking (id : ObjectId) (now : Z) (client : ObjectId)
    (clientName phoneNumber email countryCode : string) (service date : Z) (time : string)
    (verificationCode : string) : Booking.t :=
  Booking.mk id (Some client) (JsString.trim clientName) (JsString.trim phoneNumber)
    (JsString.toLowerCase (JsString.trim email)) service date time pending
    (Some verificationCode) false 0 None now None None (JsString.trim countryCode).

Definition Booking_insert (b : Booking.t) (st : Store) : Store :=
  set_bookings (bookings st ++ [b]) st.

(** The schema's [min: 0, max: 1000] on [totalBookings], [completedBookings]
    and [emailsSent]: [save] rejects a document whose counter [n] is outside
    the bounds with a ValidationError. *)
Definition validCount (n : Z) : bool := bool_decide (0 ≤ n ≤ 1000).

(** The validators of the paths that [completeBooking] fills from body
    fields the route has not checked: [phoneNumber] ([required], [trim],
    [maxlength: 30]) receives the country code joined to the number,
    [countryCode] ([trim], [maxlength: 5]) and the booking's [time]
    ([match] of the HH:MM pattern) come from the body as they are. *)
Definition validPhoneNumber (phoneNumber : string) : bool :=
  let stored := JsString.trim phoneNumber in
  bool_decide (stored ≠ "" ∧ (String.length stored ≤ 30)%nat).

Definition validCountryCode (countryCode : string) : bool :=
  bool_decide (String.length (JsString.trim countryCode) ≤ 5)%nat.

(** [client.save()] of [completeBooking], for a new client or a changed
    contact, validates the phone number and the country code ([name] and
    [email] have passed the validator of the route). *)
Definition validClientPaths (fullPhoneNumber countryCode : string) : bool :=
  validPhoneNumber fullPhoneNumber && validCountryCode countryCode.

(** [booking.save()] validates the same two and the time. *)
Definition validBookingPaths (fullPhoneNumber countryCode time : string) : bool :=
  validPhoneNumber fullPhoneNumber && validCountryCode countryCode && TimeString.test time.

(** [client.totalBookings = n; await client.save()] on a loaded document. *)
Definition Client_saveTotal (now : Z) (n : Z) (doc : Client.t) (st : Store) : Client.t * Store :=
  (Client.touch now (Client.set_totalBookings n doc),
   Client_update (Client._id doc) (λ c, Client.touch now (Client.set_totalBookings n c)) st).

(** The "find or create client" step of [completeBooking]: the client
    document the handler goes on with, the 403 for a blocked client, or the
    500 of the handler's [catch] when [client.save()] rejects the document. *)
Definition findOrCreateClient (now : Z) (clientName fullPhoneNumber email countryCode : string)
  : Handler Client.t :=
  do existing <- query (λ st, Client_findByEmail st email);
  match existing with
  | Some client =>
      if Client.isBlocked client then
        reply (errorResponse 403 "Ne pare rău, acest client este blocat")
      else if bool_decide (Client.name client ≠ clientName ∨
                           Client.phoneNumber client ≠ fullPhoneNumber) then
        let cc := if decide (countryCode = "") then "+40" else countryCode in
        let change c :=
          Client.touch now
            (Client.set_contact (JsString.trim clientName) (JsString.trim fullPhoneNumber)
                                (JsString.trim cc) c) in
        if negb (validClientPaths fullPhoneNumber cc) then
          reply (errorResponse 500 "Eroare la completarea rezervării")
        else
          do _ <- update (Client_update (Client._id client) change);
          ret (change client)
      else ret client
  | None =>
      do id <- query (λ st, freshId (Client._id <$> clients st));
      let cc := if decide (countryCode = "") then "+40" else countryCode in
      let client := newClient id now clientName fullPhoneNumber email cc in
      if negb (validClientPaths fullPhoneNumber cc) then
        reply (errorResponse 500 "Eroare la completarea rezervării")
      else
        do _ <- update (Client_insert client);
        ret client
  end.

(** The booking data of [completeBooking]: what the body gives, completed
    from [req.session.bookingData]; the 400 when that session data is past
    its expiry. *)
Definition bookingDataOf (now : Z) (req : ClientInfo)
  : Handler (option Z * option Z * option string) :=
  λ w,
    let fromBody := (Js.truthyZ (ci_serviceId req), ci_date req, Js.truthyS (ci_time req)) in
    match session w ≫= bookingData with
    | Some data =>
        let merged :=
          (Js.orElse fromBody.1.1 (Js.truthyZ (Some (sb_serviceId data))),
           Js.orElse fromBody.1.2 (Some (sb_date data)),
           Js.orElse fromBody.2 (Js.truthyS (Some (sb_time data)))) in
        match Js.truthyZ (session w ≫= bookingDataExpiry) with
        | Some expiry =>
            if decide (expiry < now) then
              (w, inl (errorResponse 400
                 "Sesiunea a expirat. Vă rugăm să începeți procesul de rezervare din nou."))
            else (w, inr merged)
        | None => (w, inr merged)
        end
    | None => (w, inr fromBody)
    end.

(** [rateLimit.check(key, maxAttempts, timeWindowMs)] on the limiter of the
    process. *)
Definition checkRateLimit (now : Z) (key : string) (maxAttempts timeWindowMs : Z)
  : Handler bool :=
  λ w, let '(ok, rl) := rateLimit_check now key maxAttempts timeWindowMs (rateLimit w) in
       (mkWorld (db w) (serviceCache w) rl (session w), inr ok).

(** [completeBooking(req, res)]; [verificationCode] is what
    [generateVerificationCode()] draws. *)
Definition completeBooking (mail : Mailer) (now : Z) (sessionID : string)
    (verificationCode : string) (req : ClientInfo) : Handler Response :=
  let clientName := ci_clientName req in
  let phoneNumber := ci_phoneNumber req in
  let email := ci_email req in
  let countryCode := ci_countryCode req in
  do '(bookingServiceId, bookingDate, bookingTime) <- bookingDataOf now req;
  match bookingServiceId, bookingDate, bookingTime with
  | None, _, _ => reply (errorResponse 400 "Serviciul este obligatoriu")
  | Some _, None, _ => reply (errorResponse 400 "Data este obligatorie")
  | Some _, Some _, None => reply (errorResponse 400 "Ora este obligatorie")
  | Some bookingServiceId, Some bookingDate, Some bookingTime =>
      if decide (email = "") then reply (errorResponse 400 "Adresa de email este obligatorie")
      else if decide (bookingDate < JsDate.startOfDay now) then
        reply (errorResponse 400 "Nu se pot face rezervări pentru date din trecut")
      else if decide (JsDate.startOfDay (JsDate.addDays now MAX_BOOKING_DAYS_AHEAD) < bookingDate) then
        reply (errorResponse 400
                 ("Nu se pot face rezervări cu mai mult de " +:+
                  Js.toString MAX_BOOKING_DAYS_AHEAD +:+ " zile în avans"))
      else
        do found <- lookupService now bookingServiceId;
        match found with
        | None => reply (errorResponse 404 "Serviciul nu a fost găsit")
        | Some service =>
            let rateLimitKey :=
              "book_" +:+ email +:+ "_" +:+ Js.slice0 10 (Js.toString now) in
            do allowed <- checkRateLimit now rateLimitKey 5 (30 * 60 * 1000);
            if negb allowed then
              reply (errorResponse 429 "Prea multe încercări. Vă rugăm să așteptați 30 de minute.")
            else
              let fullPhoneNumber :=
                if bool_decide (countryCode ≠ "" ∧ phoneNumber ≠ "")
                then countryCode +:+ JsString.dropLeadingZero phoneNumber
                else phoneNumber in
              do client <- findOrCreateClient now clientName fullPhoneNumber email countryCode;
              if usageExhausted (getDailyEmailUsage email) then
                reply (errorResponse 429
                  "Nu se poate trimite codul de verificare. Ai atins limita zilnică de email-uri.")
              else
                do id <- query (λ st, freshId (Booking._id <$> bookings st));
                let cc := if decide (countryCode = "") then "+40" else countryCode in
                let booking :=
                  newBooking id now (Client._id client) clientName fullPhoneNumber email cc
                             bookingServiceId bookingDate bookingTime verificationCode in
                do _ <-
                  (if validBookingPaths fullPhoneNumber cc bookingTime then
                     update (Booking_insert booking)
                   else reply (errorResponse 500 "Eroare la completarea rezervării"));
                do _ <- update (TimeLock_deleteOne bookingDate bookingTime bookingServiceId sessionID);
                do client1 <-
                  (if validCount (Client.totalBookings client + 1) then
                     effect (Client_saveTotal now (Client.totalBookings client + 1) client)
                   else reply (errorResponse 500 "Eroare la completarea rezervării"));
                do emailOk <- effect (sendVerificationEmail mail now email (Booking._id booking));
                if negb emailOk then
                  do _ <- update (Booking_findByIdAndDelete (Booking._id booking));
                  do _ <- effect (Client_saveTotal now (Client.totalBookings client1 - 1) client1);
                  reply (errorResponse 500
                    (default
                       "Nu s-a putut trimite codul de verificare. Vă rugăm să încercați mai târziu."
                       (Js.truthyS (Some (sendVerificationEmail_error mail email
                                            (Booking._id booking))))))
                else
                  do _ <- effect (Client_incrementEmailCounter now client1);
                  do _ <- setSession (λ s, mkSession None None (Some (Booking._id booking)));
                  reply (mkResponse 200 true "Codul de verificare a fost trimis"
                           (BookingId (Booking._id booking)))
        end
  end.

(** ** controllers/bookingController.js: staff and client transitions *)

Definition Status_toString (s : Status) : string :=
  match s with
  | pending => "pending"
  | confirmed => "confirmed"
  | declined => "declined"
  | completed => "completed"
  | cancelled => "cancelled"
  end.

(** [booking.status = s; await booking.save()]. *)
Definition saveStatus (booking : Booking.t) (s : Status) : Handler unit :=
  update (Booking_update (Booking._id booking) (Booking.set_status s)).

(** [if (emailResult.success && booking.client) await booking.client.incrementEmailCounter()]. *)
Definition countClientEmail (now : Z) (emailOk : bool) (client : option Client.t) : Handler unit :=
  match client with
  | Some doc => if emailOk then do _ <- effect (Client_incrementEmailCounter now doc); ret tt
                else ret tt
  | None => ret tt
  end.

(** [confirmBooking(req, res)] for [req.params = { bookingId }]. *)
Definition confirmBooking (mail : Mailer) (now : Z) (bookingId : ObjectId) : Handler Response :=
  do found <- query (λ st, Booking_findById st bookingId);
  match found with
  | None => reply (errorResponse 404 "Rezervarea nu a fost găsită")
  | Some booking =>
      do client <- query (λ st, populateClient st booking);
      do service <- query (λ st, Service_findById st (Booking.service booking));
      match service with
      | None => reply (errorResponse 404 "Serviciul nu a fost găsit")
      | Some service =>
          do bookingUsage <- query (λ st, getBookingEmailUsage st bookingId);
          if usageExhausted bookingUsage then
            do _ <- saveStatus booking confirmed;
            reply (mkResponse 200 true
              "Rezervare confirmată, dar nu s-a putut trimite email de confirmare (limită atinsă)"
              (EmailStatus "limited"))
          else if usageExhausted (getDailyEmailUsage (Booking.email booking)) then
            do _ <- saveStatus booking confirmed;
            reply (mkResponse 200 true
              "Rezervare confirmată, dar nu s-a putut trimite email de confirmare (limită zilnică atinsă)"
              (EmailStatus "limited"))
          else
            do emailOk <- effect (sendBookingConfirmationEmail mail now (Booking.email booking)
                                    (Booking._id booking));
            do _ <- saveStatus booking confirmed;
            do _ <- countClientEmail now emailOk client;
            if negb emailOk then
              reply (mkResponse 200 true
                "Rezervare confirmată, dar nu s-a putut trimite email de confirmare"
                (EmailStatus "failed"))
            else
              reply (mkResponse 200 true
                "Rezervare confirmată și email de confirmare trimis" (EmailStatus "sent"))
      end
  end.

(** [declineBooking(req, res)] for [req.params = { bookingId }]. *)
Definition declineBooking (mail : Mailer) (now : Z) (bookingId : ObjectId) : Handler Response :=
  do found <- query (λ st, Booking_findById st bookingId);
  match found with
  | None => reply (errorResponse 404 "Rezervarea nu a fost găsită")
  | Some booking =>
      do client <- query (λ st, populateClient st booking);
      do service <- query (λ st, Service_findById st (Booking.service booking));
      match service with
      | None => reply (errorResponse 404 "Serviciul nu a fost găsit")
      | Some service =>
          do bookingUsage <- query (λ st, getBookingEmailUsage st bookingId);
          if usageExhausted bookingUsage then
            do _ <- saveStatus booking declined;
            reply (mkResponse 200 true
              "Rezervare respinsă, dar nu s-a putut trimite email de notificare (limită atinsă)"
              (EmailStatus "limited"))
          else if usageExhausted (getDailyEmailUsage (Booking.email booking)) then
            do _ <- saveStatus booking declined;
            reply (mkResponse 200 true
              "Rezervare respinsă, dar nu s-a putut trimite email de notificare (limită zilnică atinsă)"
              (EmailStatus "limited"))
          else
            do emailOk <- effect (sendBookingRejectionEmail mail now (Booking.email booking)
                                    (Booking._id booking));
            do _ <- saveStatus booking declined;
            do _ <- countClientEmail now emailOk client;
            if negb emailOk then
              reply (mkResponse 200 true
                "Rezervare respinsă, dar nu s-a putut trimite email de notificare"
                (EmailStatus "failed"))
            else
              reply (mkResponse 200 true
                "Rezervare respinsă și email de notificare trimis" (EmailStatus "sent"))
      end
  end.

(** The first step of [blockUser]: block the client the booking refers to,
    or else the client with the booking's email, created if need be.  The
    result is [booking.client], which the second branch leaves unset. *)
Definition blockClientOf (now : Z) (why : option string) (booking : Booking.t)
    (populated : option Client.t) : Handler (option Client.t) :=
  match populated with
  | Some doc => do doc1 <- effect (Client_block now why doc); ret (Some doc1)
  | None =>
      do existing <- query (λ st, Client_findByEmail st (Booking.email booking));
      match existing with
      | Some doc => do _ <- effect (Client_block now why doc); ret None
      | None =>
          do id <- query (λ st, freshId (Client._id <$> clients st));
          let cc := if decide (Booking.countryCode booking = "") then "+40"
                    else Booking.countryCode booking in
          let doc := newClient id now (Booking.clientName booking)
                       (Booking.phoneNumber booking) (Booking.email booking) cc in
          do _ <- update (Client_insert (Client_blocked now why doc));
          ret None
      end
  end.

(** [blockUser(req, res)] for [req.params = { bookingId }], [req.body = { reason }]. *)
Definition blockUser (mail : Mailer) (now : Z) (bookingId : ObjectId) (reason : option string)
  : Handler Response :=
  do found <- query (λ st, Booking_findById st bookingId);
  match found with
  | None => reply (errorResponse 404 "Rezervarea nu a fost găsită")
  | Some booking =>
      do populated <- query (λ st, populateClient st booking);
      let why := Some (default "No reason provided" (Js.truthyS reason)) in
      do client <- blockClientOf now why booking populated;
      do bookingUsage <- query (λ st, getBookingEmailUsage st bookingId);
      if usageExhausted bookingUsage then
        do _ <- saveStatus booking declined;
        reply (mkResponse 200 true
          "Utilizator blocat și rezervare respinsă (nu s-a trimis email din cauza limitei)"
          (EmailStatus "limited"))
      else if usageExhausted (getDailyEmailUsage (Booking.email booking)) then
        do _ <- saveStatus booking declined;
        reply (mkResponse 200 true
          "Utilizator blocat și rezervare respinsă (nu s-a trimis email din cauza limitei zilnice)"
          (EmailStatus "limited"))
      else
        do service <- query (λ st, Service_findById st (Booking.service booking));
        match service with
        | None =>
            do _ <- saveStatus booking declined;
            reply (mkResponse 200 true
              "Utilizator blocat și rezervare respinsă (serviciul nu a fost găsit)"
              (EmailStatus "failed"))
        | Some _ =>
            do emailOk <- effect (sendUserBlockedEmail mail now (Booking.email booking));
            do _ <- saveStatus booking declined;
            do _ <- countClientEmail now emailOk client;
            reply (mkResponse 200 true "Utilizator blocat și rezervare respinsă"
                     (EmailStatus (if emailOk then "sent" else "failed")))
        end
  end.

(** [completeBookingService(req, res)]; [bookingId] is [None] when
    [req.params.bookingId] is not a valid ObjectId. *)
Definition completeBookingService (now : Z) (bookingId : option ObjectId) : Handler Response :=
  match bookingId with
  | None => reply (errorResponse 400 "ID rezervare invalid")
  | Some bookingId =>
      do found <- query (λ st, Booking_findById st bookingId);
      match found with
      | None => reply (errorResponse 404 "Rezervarea nu a fost găsită")
      | Some booking =>
          do client <- query (λ st, populateClient st booking);
          if decide (Booking.status booking ≠ confirmed) then
            reply (errorResponse 400
                     ("Nu se poate marca ca finalizată o rezervare cu statusul: " +:+
                      Status_toString (Booking.status booking)))
          else
            do _ <- update (Booking_update (Booking._id booking)
                              (λ b, Booking.set_completedAt now (Booking.set_status completed b)));
            do _ <-
              match client with
              | Some doc =>
                  if validCount (Client.completedBookings doc + 1) then
                    update (Client_update (Client._id doc)
                              (λ c, Client.touch now
                                      (Client.set_completed (Client.completedBookings doc + 1) now c)))
                  else reply (errorResponse 500 "Eroare la marcarea rezervării ca finalizată")
              | None => ret tt
              end;
            reply (mkResponse 200 true "Rezervare marcată ca finalizată"
                     (BookingSummary (Booking._id booking) completed))
      end
  end.

(** [suspendBooking(req, res)] for [req.params = { bookingId }]. *)
Definition suspendBooking (sessionID : string) (bookingId : ObjectId) : Handler Response :=
  do found <- query (λ st, Booking_findById st bookingId);
  match found with
  | None => reply (errorResponse 404 "Rezervarea nu a fost găsită")
  | Some booking =>
      if decide (Booking.status booking = confirmed) then
        reply (errorResponse 400 "Nu se poate suspenda o rezervare confirmată")
      else
        do _ <- update (TimeLock_deleteOne (Booking.date booking) (Booking.time booking)
                          (Booking.service booking) sessionID);
        do _ <- saveStatus booking cancelled;
        reply (mkResponse 200 true
                 "Rezervarea a fost suspendată cu succes. Intervalul orar este din nou disponibil."
                 NoBody)
  end.

(** [runManualCleanup(req, res)]. *)
Definition runManualCleanup (mail : Mailer) (now : Z) : Handler Response :=
  do results <- effect (λ st, let '(st1, results) := runFullCleanup mail now st in (results, st1));
  reply (mkResponse 200 true "Curățarea automată a fost executată cu succes"
           (CleanupReport results)).

(** ** controllers/blockedDatesController.js *)

Definition conflictOf (conflictingHour : option string) (st : Store) (booking : Booking.t)
  : ConflictingBooking :=
  mkConflict (Booking._id booking) (Booking.clientName booking) (Booking.time booking)
    (match Service_findById st (Booking.service booking) with
     | Some service => Service.name service
     | None => "Unknown Service"
     end)
    (Booking.status booking) conflictingHour.

(** [Booking.find({ date: { $gte: startOfDay, $lte: endOfDay },
                    status: { $in: ['confirmed', 'pending'] } })]. *)
Definition existingBookings (st : Store) (date : Z) : list Booking.t :=
  filter (λ b, (JsDate.startOfDay date ≤ Booking.date b ∧ Booking.date b ≤ JsDate.endOfDay date) ∧
               (Booking.status b = confirmed ∨ Booking.status b = pending))
         (bookings st).

(** The test of the inner loop: the 30-minute slot that starts at the blocked
    hour against the interval of the booking. *)
Definition hourHitsBooking (service : Service.t) (booking : Booking.t) (hour : string) : bool :=
  match TimeString.minutes (Booking.time booking), TimeString.minutes hour with
  | Some bookingStartMinutes, Some blockStartMinutes =>
      let bookingEndMinutes := bookingStartMinutes + Service.duration service in
      let blockEndMinutes := blockStartMinutes + 30 in
      overlaps blockStartMinutes blockEndMinutes bookingStartMinutes bookingEndMinutes
  | _, _ => false
  end.

Record BookingCheck := mkCheck {
  hasConflict : bool;
  conflictingBookings : list ConflictingBooking;
  checkMessage : string
}.

(** [checkExistingBookings(date, isFullDay, hours)]. *)
Definition checkExistingBookings (st : Store) (date : Z) (isFullDay : bool) (hours : list string)
  : BookingCheck :=
  let existing := existingBookings st date in
  match existing with
  | [] => mkCheck false [] ""
  | _ =>
      if isFullDay then
        mkCheck true (conflictOf None st <$> existing)
          ("Nu se poate bloca întreaga zi. Există " +:+
           Js.toString (Z.of_nat (length existing)) +:+ " rezervări pentru această dată.")
      else
        let conflicting :=
          booking ← existing;
          match Service_findById st (Booking.service booking) with
          | None => []
          | Some service =>
              hour ← hours;
              if hourHitsBooking service booking hour
              then [conflictOf (Some hour) st booking] else []
          end in
        match conflicting with
        | [] => mkCheck false [] ""
        | _ => mkCheck true conflicting
                 "Nu se pot bloca orele selectate. Există rezervări care se suprapun."
        end
  end.

(** [BlockedDate.formatDateInRomanian(date)]. *)
Definition formatDateInRomanian (date : Z) : string :=
  let days := ["Duminică"; "Luni"; "Marți"; "Miercuri"; "Joi"; "Vineri"; "Sâmbătă"] in
  let months := ["Ianuarie"; "Februarie"; "Martie"; "Aprilie"; "Mai"; "Iunie";
                 "Iulie"; "August"; "Septembrie"; "Octombrie"; "Noiembrie"; "Decembrie"] in
  let '(year, month, day) := Iso.civil (date / JsDate.msPerDay) in
  default "" (days !! Z.to_nat (JsDate.getDay date)) +:+ ", " +:+ Js.toString day +:+ " " +:+
  default "" (months !! Z.to_nat (month - 1)) +:+ " " +:+ Js.toString year.

(** [[...new Set(hours)]]: first occurrences, in order. *)
Fixpoint uniq (l : list string) : list string :=
  match l with
  | [] => []
  | x :: l' => x :: filter (λ y, y ≠ x) (uniq l')
  end.

(** [req.body] of [blockDate]. *)
Record BlockRequest := mkBlockRequest {
  br_date : option Z;
  br_isFullDay : bool;
  br_hours : option (list string)
}.

(** The checks of [blockDate] that come before the look at the bookings:
    the 400 they answer with, or the day to block ([selectedDate] after
    [setHours(0, 0, 0, 0)]) when the request passes. *)
Definition blockDateChecks (now : Z) (req : BlockRequest) : Response + Z :=
  match br_date req with
  | None => inl (errorResponse 400 "Data este obligatorie")
  | Some date =>
      if negb (br_isFullDay req) &&
         match br_hours req with
         | None | Some [] => true
         | Some _ => false
         end
      then inl (errorResponse 400
                  "Trebuie să specifici orele de blocat dacă nu blochezi toată ziua")
      else if decide (JsDate.startOfDay date < JsDate.startOfDay now) then
        inl (errorResponse 400 "Nu se pot bloca date din trecut")
      else
        match br_hours req with
        | Some hours =>
            if br_isFullDay req then inr (JsDate.startOfDay date)
            else
              match List.find (λ hour, negb (TimeString.test hour)) hours with
              | Some hour => inl (errorResponse 400 ("Format oră invalid: " +:+ hour))
              | None =>
                  if decide (20 < length hours)%nat
                  then inl (errorResponse 400 "Prea multe ore selectate")
                  else inr (JsDate.startOfDay date)
              end
        | None => inr (JsDate.startOfDay date)
        end
  end.

(** The validator of an element of [blockedHours]:
    [timeInMinutes >= 600 && timeInMinutes <= 1140]. *)
Definition withinProgram (hour : string) : bool :=
  match TimeString.minutes hour with
  | Some timeInMinutes => bool_decide (600 ≤ timeInMinutes ≤ 1140)
  | None => false
  end.

(** [blockDate(req, res)]; [userId] is [req.user.id].  The [save] validates
    [blockedHours]; its rejection lands in the handler's [catch]. *)
Definition blockDate (now : Z) (userId : ObjectId) (req : BlockRequest) : Handler Response :=
  match blockDateChecks now req with
  | inl refusal => reply refusal
  | inr selectedDate =>
      let isFullDay := br_isFullDay req in
      let hours := default [] (br_hours req) in
      do bookingCheck <- query (λ st, checkExistingBookings st selectedDate isFullDay hours);
      if hasConflict bookingCheck then
        reply (mkResponse 409 false (checkMessage bookingCheck)
                 (Conflicts (conflictingBookings bookingCheck)))
      else
        let dayName := formatDateInRomanian selectedDate in
        let automaticReason :=
          if isFullDay then "Suntem închiși în " +:+ dayName
          else "Anumite ore sunt indisponibile în " +:+ dayName in
        let blockedHours := if isFullDay then [] else uniq hours in
        do existingBlock <- query (λ st, BlockedDate_findForDay st selectedDate);
        match existingBlock with
        | Some block =>
            let block1 :=
              BlockedDate.mk (BlockedDate._id block) (BlockedDate.date block) isFullDay
                blockedHours automaticReason userId (BlockedDate.createdAt block) now in
            if negb (forallb withinProgram blockedHours) then
              reply (errorResponse 500 "Eroare la blocarea datei")
            else
              do _ <- update (λ st,
                        set_blockedDates
                          ((λ d, if decide (BlockedDate._id d = BlockedDate._id block)
                                 then block1 else d) <$> blockedDates st) st);
              reply (mkResponse 200 true
                       (if isFullDay then "Data " +:+ dayName +:+ " a fost blocată complet"
                        else "Orele selectate din " +:+ dayName +:+ " au fost blocate")
                       (BlockedDateInfo block1))
        | None =>
            do id <- query (λ st, freshId (BlockedDate._id <$> blockedDates st));
            let block1 :=
              BlockedDate.mk id selectedDate isFullDay blockedHours automaticReason userId now now in
            if negb (forallb withinProgram blockedHours) then
              reply (errorResponse 500 "Eroare la blocarea datei")
            else
              do _ <- update (λ st, set_blockedDates (blockedDates st ++ [block1]) st);
              reply (mkResponse 200 true
                       (if isFullDay then "Data " +:+ dayName +:+ " a fost blocată complet"
                        else "Orele selectate din " +:+ dayName +:+ " au fost blocate")
                       (BlockedDateInfo block1))
        end
  end.


(** ** routes/reservationRoutes.js: the requests of the booking engine *)

Inductive Request :=
| AvailableTimeSlots (date serviceId : Z)
| CreateBooking (sessionID : string) (serviceId date : Z) (time : string)
| CompleteBooking (sessionID : string) (verificationCode : string) (info : ClientInfo)
| ConfirmBooking (bookingId : ObjectId)
| DeclineBooking (bookingId : ObjectId)
| BlockUser (bookingId : ObjectId) (reason : option string)
| CompleteBookingService (bookingId : option ObjectId)
| SuspendBooking (sessionID : string) (bookingId : ObjectId)
| ManualCleanup
| BlockDate (userId : ObjectId) (req : BlockRequest).

Definition handle (mail : Mailer) (now : Z) (req : Request) : Handler Response :=
  match req with
  | AvailableTimeSlots date serviceId => getAvailableTimeSlots mail now date serviceId
  | CreateBooking sessionID serviceId date time => createBooking now sessionID serviceId date time
  | CompleteBooking sessionID code info => completeBooking mail now sessionID code info
  | ConfirmBooking bookingId => confirmBooking mail now bookingId
  | DeclineBooking bookingId => declineBooking mail now bookingId
  | BlockUser bookingId reason => blockUser mail now bookingId reason
  | CompleteBookingService bookingId => completeBookingService now bookingId
  | SuspendBooking sessionID bookingId => suspendBooking sessionID bookingId
  | ManualCleanup => runManualCleanup mail now
  | BlockDate userId req => blockDate now userId req
  end.

(** ** Vocabulary of the properties *)

(** A handler step relates the store it starts from to the store it leaves
    by [R]. *)
Definition preserves {A} (R : Store → Store → Prop) (h : Handler A) : Prop :=
  ∀ w, R (db w) (db (h w).1).

(** At most one lock per [(date, time, serviceId)]. *)
Definition locksUnique (st : Store) : Prop := NoDup (lockKey <$> timeLocks st).

Definition keepsLocksUnique (st st' : Store) : Prop := locksUnique st → locksUnique st'.

(** The TimeLock and Service collections are left as they were. *)
Definition sameLocks (st st' : Store) : Prop :=
  timeLocks st' = timeLocks st ∧ services st' = services st.

(** [wp h Q w]: run from [w], the step [h] ends in a world and an outcome
    that satisfy [Q]. *)
Definition wp {A} (h : Handler A) (Q : World → Response + A → Prop) (w : World) : Prop :=
  Q (h w).1 (h w).2.

(** The world [w] with the store replaced. *)
Definition withDb (st : Store) (w : World) : World :=
  mkWorld st (serviceCache w) (rateLimit w) (session w).

(** A booking keeps its identity and does not go back to 'pending'. *)
Definition notBackToPending (b b' : Booking.t) : Prop :=
  Booking._id b' = Booking._id b ∧
  (Booking.status b' = pending → Booking.status b = pending).

(** The same for every booking of the store, none added or removed. *)
Definition neverBackToPending (st st' : Store) : Prop :=
  Forall2 notBackToPending (bookings st) (bookings st').

(** The transitions that staff or the client ask for on an existing booking. *)
Definition lifecycle (req : Request) : bool :=
  match req with
  | ConfirmBooking _ | DeclineBooking _ | BlockUser _ _
  | CompleteBookingService _ | SuspendBooking _ _ => true
  | _ => false
  end.

(** The reading of "a terminal booking is frozen" for one transition [op]:
    on a booking whose status is 'declined' or 'completed' it fails and
    changes nothing. *)
Definition frozenWhenTerminal (op : ObjectId → Handler Response) : Prop :=
  ∀ w bookingId booking,
    Booking_findById (db w) bookingId = Some booking →
    Booking.status booking = declined ∨ Booking.status booking = completed →
    success (run (op bookingId) w).2 = false ∧ db (run (op bookingId) w).1 = db w.

(** ** Sample data *)

Module Sample.
Definition tuns : Service.t := Service.mk 1 "Tuns" 30 80.
Definition precision : Service.t := Service.mk 3 "Precision Haircut" 60 150.

(** Tuesday 2026-11-03, 00:00. *)
Definition tuesday : Z := 20760 * 86400000.

Definition ion : Client.t :=
  Client.mk 7 "Ion Pop" "+40722000000" "ion@example.com" "+40" false None None
    0 None 2 1 0 None None 0.

(** Ion Pop as a regular: both counters at the bound of the schema. *)
Definition regular : Client.t :=
  Client.mk 7 "Ion Pop" "+40722000000" "ion@example.com" "+40" false None None
    0 None 1000 1000 0 None None 0.

(** A booking of Ion Pop for the half-hour service, made the day before. *)
Definition booking (id : ObjectId) (s : Status) (v : bool) (date : Z) (time : string)
  : Booking.t :=
  Booking.mk id (Some 7) "Ion Pop" "+40722000000" "ion@example.com" 1 date time s
    (Some "123456") v 0 None (tuesday - 86400000) None None "+40".

Definition store (bs : list Booking.t) (ls : list TimeLock.t) : Store :=
  mkStore [tuns; precision] bs [ion] ls [].

Definition world (st : Store) : World :=
  mkWorld st (mkCache ∅ 0) (mkRateLimit ∅ ∅ 0 ∅) (Some (mkSession None None None)).

Definition noMail : Mailer :=
  λ _ _ _, MailFailed "Nu s-a putut trimite mesajul. Te rugăm să încerci mai târziu.".
Definition mailSent : Mailer := λ _ _ _, MailSent.

(** A lock on the hour-long service at 14:00. *)
Definition lock14 : TimeLock.t := TimeLock.mk tuesday "14:00" 3 "session-a" (tuesday - 3600000).
End Sample.

(** The bookings that stand in the way of blocking the day of [date]:
    pending or confirmed, on that day. *)
Definition bookedOn (st : Store) (date : Z) (b : Booking.t) : Prop :=
  b ∈ bookings st ∧
  (JsDate.startOfDay date ≤ Booking.date b ∧ Booking.date b ≤ JsDate.endOfDay date) ∧
  (Booking.status b = pending ∨ Booking.status b = confirmed).

(** The half-hour slot at [hour] meets the interval of booking [b]. *)
Definition hourMeets (st : Store) (b : Booking.t) (hour : string) : Prop :=
  ∃ service bookingStart blockStart,
    Service_findById st (Booking.service b) = Some service ∧
    TimeString.minutes (Booking.time b) = Some bookingStart ∧
    TimeString.minutes hour = Some blockStart ∧
    blockStart < bookingStart + Service.duration service ∧
    bookingStart < blockStart + 30.

(** What processing the expired booking [x] does to a stored booking [b]:
    declined with the note if it is [x], untouched otherwise. *)
Definition declinedIf (note : string) (hit : ObjectId → Prop) (b b' : Booking.t) : Prop :=
  Booking._id b' = Booking._id b ∧
  (hit (Booking._id b) → Booking.status b' = declined ∧ Booking.notes b' = Some note) ∧
  (¬ hit (Booking._id b) → b' = b).

(** The stored totalBookings of the client with a given id. *)
Definition totalOf (st : Store) (id : ObjectId) : option Z :=
  Client.totalBookings <$> Client_findById st id.

(** The populated documents stand for the stored clients: each is filed
    under its own id and carries the stored totalBookings. *)
Definition docsAgree (st : Store) (ds : Docs) : Prop :=
  ∀ id d, ds !! id = Some d →
    Client._id d = id ∧ totalOf st id = Some (Client.totalBookings d).

(** [Math.max(0, total - 1)]. *)
Definition dropOne (total : Z) : Z := Z.max 0 (total - 1).

(** How many bookings of a list refer to the client [id]. *)
Definition refersTo (id : ObjectId) (l : list Booking.t) : nat :=
  length (filter (λ x, Booking.client x = Some id) l).

(** The totalBookings counters of the store, client by client. *)
Definition totals (st : Store) : list (ObjectId * Z) :=
  (λ c, (Client._id c, Client.totalBookings c)) <$> clients st.

(** The counters are as before, but for a client created meanwhile, who
    starts at zero. *)
Definition totalsRestored (st st' : Store) : Prop :=
  totals st' = totals st ∨ ∃ id, totals st' = totals st ++ [(id, 0)].

(** The document [doc] carries the stored total of every client with its id. *)
Definition carriesTotal (st : Store) (doc : Client.t) : Prop :=
  ∀ c, c ∈ clients st → Client._id c = Client._id doc →
       Client.totalBookings c = Client.totalBookings doc.

(** A stored booking awaits verification: pending and not verified. *)
Definition awaitsVerification (st : Store) (id : ObjectId) : Prop :=
  ∃ b, Booking_findById st id = Some b ∧
       Booking.status b = pending ∧ Booking.verified b = false.

(** A handler that only reads the store. *)
Definition readOnly (h : Handler Response) : Prop := ∀ w, db (run h w).1 = db w.

(** ** Vocabulary of the further properties *)

(** The test of [getAvailableTimeSlots] for a slot of today that has begun:
    [isToday && slotDateTime <= now]. *)
Definition started (now date : Z) (time : string) : bool :=
  bool_decide (JsDate.startOfDay date = JsDate.startOfDay now) &&
  match TimeString.at_ date time with
  | Some slotDateTime => bool_decide (slotDateTime ≤ now)
  | None => false
  end.

(** Consecutive calls [rateLimit.check(key, maxAttempts, timeWindowMs)] at
    the given times: the answers in order, and the limiter afterwards. *)
Fixpoint rateLimit_checks (times : list Z) (key : string) (maxAttempts timeWindowMs : Z)
    (rl : RateLimit) : list bool * RateLimit :=
  match times with
  | [] => ([], rl)
  | now :: times' =>
      let '(ok, rl1) := rateLimit_check now key maxAttempts timeWindowMs rl in
      let '(oks, rl2) := rateLimit_checks times' key maxAttempts timeWindowMs rl1 in
      (ok :: oks, rl2)
  end.

(** No two stored clients share an email (the unique index of the schema). *)
Definition emailsUnique (st : Store) : Prop := NoDup (Client.email <$> clients st).

(** The client with id [clientId] is stored blocked, since [now]. *)
Definition blockedSince (now : Z) (st : Store) (clientId : ObjectId) : Prop :=
  ∃ c, Client_findById st clientId = Some c ∧
       Client.isBlocked c = true ∧ Client.blockDate c = Some now.

(** ** controllers/bookingController.js: the verification code *)

(** [s.padEnd(32, '0')]. *)
Definition padEnd32 (s : string) : string :=
  s +:+ string_of_list_ascii (List.repeat "0"%char (32 - String.length s)).

(** The comparison of [verifyBooking]: [crypto.timingSafeEqual] on the two
    codes padded to 32 characters; it throws when the two buffers differ in
    length, as does [padEnd] on a booking without a code, and the [catch]
    then compares with [!==].  (Codes are strings of ASCII characters, whose
    length in bytes is their length; the route admits six digits.) *)
Definition codeMatches (stored : option string) (code : string) : bool :=
  match stored with
  | None => false
  | Some verificationCode =>
      let storedCode := padEnd32 verificationCode in
      let providedCode := padEnd32 code in
      if decide (String.length storedCode = String.length providedCode)
      then bool_decide (storedCode = providedCode)
      else bool_decide (verificationCode = code)
  end.

(** [booking.verified = true]. *)
Definition markVerified (b : Booking.t) : Booking.t :=
  Booking.mk (Booking._id b) (Booking.client b) (Booking.clientName b)
    (Booking.phoneNumber b) (Booking.email b) (Booking.service b) (Booking.date b)
    (Booking.time b) (Booking.status b) (Booking.verificationCode b) true
    (Booking.emailCount b) (Booking.lastEmailSentAt b) (Booking.createdAt b)
    (Booking.completedAt b) (Booking.notes b) (Booking.countryCode b).

(** The key under which [verifyBooking] counts its attempts. *)
Definition verifyKey (bookingId : ObjectId) : string := "verify_" +:+ Js.toString bookingId.

(** [verifyBooking(req, res)] for [req.body = { bookingId, code }].  The
    [booking] object of the answer repeats stored fields; its id stands for
    it. *)
Definition verifyBooking (now : Z) (bookingId : ObjectId) (code : string) : Handler Response :=
  do allowed <- checkRateLimit now (verifyKey bookingId) 5 (15 * 60 * 1000);
  if negb allowed then
    reply (errorResponse 429 "Prea multe încercări. Vă rugăm să așteptați 15 minute.")
  else
    do found <- query (λ st, Booking_findById st bookingId);
    match found with
    | None => reply (errorResponse 404 "Rezervarea nu a fost găsită")
    | Some booking =>
        if Booking.verified booking then
          reply (errorResponse 400 "Rezervarea este deja verificată")
        else if negb (codeMatches (Booking.verificationCode booking) code) then
          reply (errorResponse 400 "Cod de verificare invalid")
        else
          do _ <- update (Booking_update (Booking._id booking) markVerified);
          do _ <- setSession (λ s, mkSession (bookingData s) (bookingDataExpiry s) None);
          reply (mkResponse 200 true
                   "Rezervare verificată cu succes. Așteptați confirmarea frizerului."
                   (BookingId (Booking._id booking)))
    end.

(** [booking.verificationCode = verificationCode; booking.lastEmailSentAt = new Date()]. *)
Definition renewCode (verificationCode : string) (now : Z) (b : Booking.t) : Booking.t :=
  Booking.mk (Booking._id b) (Booking.client b) (Booking.clientName b)
    (Booking.phoneNumber b) (Booking.email b) (Booking.service b) (Booking.date b)
    (Booking.time b) (Booking.status b) (Some verificationCode) (Booking.verified b)
    (Booking.emailCount b) (Some now) (Booking.createdAt b)
    (Booking.completedAt b) (Booking.notes b) (Booking.countryCode b).

(** [resendVerificationCode(req, res)] for [req.body = { bookingId }];
    [verificationCode] is what [generateVerificationCode()] draws. *)
Definition resendVerificationCode (mail : Mailer) (now : Z) (verificationCode : string)
    (bookingId : ObjectId) : Handler Response :=
  do allowed <- checkRateLimit now ("resend_" +:+ Js.toString bookingId) 3 (5 * 60 * 1000);
  if negb allowed then
    reply (errorResponse 429 "Prea multe încercări. Vă rugăm să așteptați câteva minute.")
  else
    do found <- query (λ st, Booking_findById st bookingId);
    match found with
    | None => reply (errorResponse 404 "Rezervarea nu a fost găsită")
    | Some booking =>
        do client <- query (λ st, populateClient st booking);
        do bookingUsage <- query (λ st, getBookingEmailUsage st bookingId);
        if usageExhausted bookingUsage then
          reply (errorResponse 429
            "Nu se mai poate retrimite codul. Ai atins limita de email-uri pentru această rezervare.")
        else if usageExhausted (getDailyEmailUsage (Booking.email booking)) then
          reply (errorResponse 429
            "Nu se mai poate retrimite codul. Ai atins limita zilnică de email-uri.")
        else
          do emailOk <- effect (sendVerificationEmail mail now (Booking.email booking) bookingId);
          if negb emailOk then
            reply (errorResponse 500
              (default
                 "Nu s-a putut trimite codul de verificare. Vă rugăm să încercați mai târziu."
                 (Js.truthyS (Some (sendVerificationEmail_error mail (Booking.email booking)
                                      bookingId)))))
          else
            do _ <- update (Booking_update (Booking._id booking) (renewCode verificationCode now));
            do _ <- countClientEmail now true client;
            reply (mkResponse 200 true "Un nou cod de verificare a fost trimis" NoBody)
    end.

(** ** models/BlockedDates.js, controllers/blockedDatesController.js *)

(** [BlockedDate.findById(id)] and [BlockedDate.findByIdAndDelete(id)]. *)
Definition BlockedDate_findById (st : Store) (id : ObjectId) : option BlockedDate.t :=
  head (filter (λ d, BlockedDate._id d = id) (blockedDates st)).
Definition BlockedDate_findByIdAndDelete (id : ObjectId) (st : Store) : Store :=
  set_blockedDates (filter (λ d, BlockedDate._id d ≠ id) (blockedDates st)) st.

(** [unblockDate(req, res)]; [blockedDateId] is [None] when
    [req.params.blockedDateId] is not a valid ObjectId. *)
Definition unblockDate (blockedDateId : option ObjectId) : Handler Response :=
  match blockedDateId with
  | None => reply (errorResponse 400 "ID invalid pentru data blocată")
  | Some id =>
      do blockedDate <- query (λ st, BlockedDate_findById st id);
      match blockedDate with
      | None => reply (errorResponse 404 "Data blocată nu a fost găsită")
      | Some blockedDate =>
          let dateFormatted := formatDateInRomanian (BlockedDate.date blockedDate) in
          do _ <- update (BlockedDate_findByIdAndDelete id);
          reply (mkResponse 200 true
                   ("Blocarea pentru " +:+ dateFormatted +:+ " a fost eliminată") NoBody)
      end
  end.

(** ** Sample requests for the further properties *)

Module Scenario.
(** Monday 2026-11-02, 13:00: the day before [Sample.tuesday]. *)
Definition monday : Z := Sample.tuesday - 86400000 + 13 * 3600000.

Definition world : World := Sample.world (Sample.store [] []).

(** Ion Pop asks for the half-hour service on Tuesday at 14:00. *)
Definition request : ClientInfo :=
  mkClientInfo "Ion Pop" "0722000000" "ion@example.com" "+40"
    (Some 1) (Some Sample.tuesday) (Some "14:00").

(** The world after the slot was locked, and after the booking was made a
    minute later. *)
Definition locked : World :=
  (run (createBooking monday "session-a" 1 Sample.tuesday "14:00") world).1.
Definition booked : World :=
  (run (completeBooking Sample.mailSent (monday + 60000) "session-a" "123456" request) locked).1.

(** Ion Pop, blocked. *)
Definition barred : Client.t :=
  Client.mk 7 "Ion Pop" "+40722000000" "ion@example.com" "+40" true
    (Some "No reason provided") (Some 0) 0 None 2 1 0 None None 0.

(** A store with one booking of Ion Pop. *)
Definition pendingBooking : Booking.t :=
  Sample.booking 1 pending false Sample.tuesday "14:00".
Definition withBooking : World := Sample.world (Sample.store [pendingBooking] []).

(** Five attempts counted on booking 1, in a window open until 100. *)
Definition spent : World :=
  mkWorld (Sample.store [pendingBooking] []) (mkCache ∅ 0)
    (mkRateLimit {[verifyKey 1 := 5]} {[verifyKey 1 := 100]} 0 ∅)
    (Some (mkSession None None None)).

(** The request to close the Tuesday, and the one to block two of its hours. *)
Definition closeTuesday : BlockRequest := mkBlockRequest (Some Sample.tuesday) true None.
Definition blockHours : BlockRequest :=
  mkBlockRequest (Some Sample.tuesday) false (Some ["14:00"; "14:30"; "14:00"]).
End Scenario.
(** * Properties *)

(** ** The model on sample inputs *)

Example iso_sample :
  Iso.toISOString 1730000000123 = "2024-10-27T03:33:20.123Z".
Proof. vm_compute. reflexivity. Qed.

(** ** The interval test *)

(** For intervals of positive length the three-way test is intersection of
    the half-open intervals. *)
Lemma overlaps_half_open (s1 d1 s2 d2 : Z) :
  0 < d1 → 0 < d2 →
  overlaps s1 (s1 + d1) s2 (s2 + d2) = true ↔ s1 < s2 + d2 ∧ s2 < s1 + d1.
Proof.
  intros Hd1 Hd2. unfold overlaps.
  rewrite !orb_true_iff, !andb_true_iff.
  rewrite !Z.geb_le, !Z.gtb_lt, !Z.ltb_lt, !Z.leb_le. lia.
Qed.

Lemma overlaps_touching_before (s1 d1 s2 d2 : Z) :
  0 < d1 → 0 < d2 → s1 + d1 = s2 → overlaps s1 (s1 + d1) s2 (s2 + d2) = false.
Proof.
  intros Hd1 Hd2 Heq. apply not_true_is_false. rewrite overlaps_half_open by done. lia.
Qed.

Lemma overlaps_touching_after (s1 d1 s2 d2 : Z) :
  0 < d1 → 0 < d2 → s1 = s2 + d2 → overlaps s1 (s1 + d1) s2 (s2 + d2) = false.
Proof.
  intros Hd1 Hd2 Heq. apply not_true_is_false. rewrite overlaps_half_open by done. lia.
Qed.

Lemma existsb_elem_of {A} (f : A → bool) (l : list A) :
  existsb f l = true ↔ ∃ x, x ∈ l ∧ f x = true.
Proof.
  rewrite existsb_exists. split; intros (x & Hx & Hf); exists x; split; try done.
  - by apply list_elem_of_In.
  - by apply list_elem_of_In.
Qed.

(** What one booking does to a candidate, in terms of the two intervals. *)
Lemma bookingBlocks_spec (st : Store) (startTime duration : Z) (booking : Booking.t)
    (service : Service.t) (bookingStart : Z) :
  0 < duration → 0 < Service.duration service →
  Service_findById st (Booking.service booking) = Some service →
  TimeString.at_ (Booking.date booking) (Booking.time booking) = Some bookingStart →
  bookingBlocks st startTime (startTime + duration * 60000) booking = true ↔
  startTime < bookingStart + Service.duration service * 60000 ∧
  bookingStart < startTime + duration * 60000.
Proof.
  intros Hd Hs Hfind Hat. unfold bookingBlocks. rewrite Hfind, Hat.
  apply overlaps_half_open; lia.
Qed.

(** The same for one lock: the length of the occupied interval is the
    duration of the service the lock refers to. *)
Lemma lockBlocks_spec (st : Store) (startTime duration : Z) (lock : TimeLock.t)
    (lockService : Service.t) (lockStart : Z) :
  0 < duration → 0 < Service.duration lockService →
  head (filter (λ s, Service._id s = TimeLock.serviceId lock) (services st)) = Some lockService →
  TimeString.at_ (TimeLock.date lock) (TimeLock.time lock) = Some lockStart →
  lockBlocks st startTime (startTime + duration * 60000) lock = true ↔
  startTime < lockStart + Service.duration lockService * 60000 ∧
  lockStart < startTime + duration * 60000.
Proof.
  intros Hd Hs Hfind Hat. unfold lockBlocks. rewrite Hfind, Hat.
  apply overlaps_half_open; lia.
Qed.

(** [isTimeSlotAvailable] refuses as soon as one of the two loops finds an
    overlap. *)
Lemma isTimeSlotAvailable_true_inv (st : Store) (date : Z) (time : string) (duration : Z) :
  isTimeSlotAvailable st date time duration = true →
  ∃ hour minute,
    TimeString.parse time = Some (hour, minute) ∧
    let startTime := JsDate.setHours date hour minute 0 0 in
    let endTime := startTime + duration * 60000 in
    existsb (lockBlocks st startTime endTime) (activeLocks st date) = false ∧
    existsb (bookingBlocks st startTime endTime) (overlappingBookings st date) = false.
Proof.
  unfold isTimeSlotAvailable. intros H.
  destruct (decide (time = "")); [done|].
  destruct (decide (duration ≤ 0 ∨ 240 < duration)); [done|].
  destruct (TimeString.parse time) as [[hour minute]|]; [|done].
  exists hour, minute. split; [done|]. cbn zeta in *.
  destruct (decide (JsDate.getDay date = 0)); [done|].
  match type of H with (if ?c then _ else _) = _ => destruct c end; [done|].
  destruct (existsb (lockBlocks _ _ _) _); [done|].
  destruct (existsb (bookingBlocks _ _ _) _); done.
Qed.





(** What the query of the lock loop returns: locks of the store, on the day
    asked for, whose service exists; all of them when the day has at most 50. *)
Lemma activeLocks_elem (st : Store) (date : Z) (lock : TimeLock.t) :
  lock ∈ activeLocks st date →
  lock ∈ timeLocks st ∧ onDayOf date (TimeLock.date lock) ∧
  TimeLock.serviceId lock ∈ Service._id <$> services st.
Proof.
  unfold activeLocks. intros H%subseteq_take%list_elem_of_filter. tauto.
Qed.

Lemma activeLocks_complete (st : Store) (date : Z) (lock : TimeLock.t) :
  (length (filter (λ l, onDayOf date (TimeLock.date l)) (timeLocks st)) ≤ 50)%nat →
  lock ∈ timeLocks st → onDayOf date (TimeLock.date lock) →
  TimeLock.serviceId lock ∈ Service._id <$> services st →
  lock ∈ activeLocks st date.
Proof.
  intros Hlen Hin Hday Hsvc. unfold activeLocks.
  rewrite take_ge; [by apply list_elem_of_filter|].
  etrans; [|exact Hlen]. clear. induction (timeLocks st) as [|l ls IH]; [done|].
  rewrite !filter_cons. repeat case_decide; simpl; try lia; tauto.
Qed.

(** C7. A lock found by the availability check occupies [lockStart, lockStart
    + duration of the lock's own service); a candidate of any requested
    service whose interval meets it is unavailable, whatever service was asked
    for: the check receives the requested duration only, never the requested
    service. *)
Theorem lock_blocks_every_service
    (st : Store) (date : Z) (time : string) (hour minute : Z) (requested : Service.t)
    (lock : TimeLock.t) (lockService : Service.t) (lockStart : Z) :
  0 < Service.duration requested →
  0 < Service.duration lockService →
  TimeString.parse time = Some (hour, minute) →
  lock ∈ activeLocks st date →
  head (filter (λ s, Service._id s = TimeLock.serviceId lock) (services st)) = Some lockService →
  TimeString.at_ (TimeLock.date lock) (TimeLock.time lock) = Some lockStart →
  let startTime := JsDate.setHours date hour minute 0 0 in
  let endTime := startTime + Service.duration requested * 60000 in
  let lockEnd := lockStart + Service.duration lockService * 60000 in
  (lockBlocks st startTime endTime lock = true ↔ startTime < lockEnd ∧ lockStart < endTime) ∧
  (startTime < lockEnd ∧ lockStart < endTime →
   isTimeSlotAvailable st date time (Service.duration requested) = false).
Proof.
  intros Hd Hl Hparse Hin Hfind Hat startTime endTime lockEnd.
  assert (Hspec := lockBlocks_spec st startTime (Service.duration requested) lock
                     lockService lockStart Hd Hl Hfind Hat).
  split; [exact Hspec|].
  intros Hmeet. apply not_true_is_false. intros Hav.
  apply isTimeSlotAvailable_true_inv in Hav as (h & m & Hp & Hlocks & _).
  rewrite Hparse in Hp. injection Hp as <- <-.
  assert (existsb (lockBlocks st startTime endTime) (activeLocks st date) = true) as Hex.
  { apply existsb_elem_of. exists lock. split; [done|]. by apply Hspec. }
  subst startTime endTime. congruence.
Qed.

(** ** Reasoning about handlers *)

Section HandlerLogic.
Context (R : Store → Store → Prop) `{!Reflexive R} `{!Transitive R}.

Lemma preserves_ret {A} (a : A) : preserves R (ret a).
Proof. intros w. simpl. reflexivity. Qed.

Lemma preserves_reply {A} (r : Response) : preserves R (@reply A r).
Proof. intros w. simpl. reflexivity. Qed.

Lemma preserves_query {A} (f : Store → A) : preserves R (query f).
Proof. intros w. simpl. reflexivity. Qed.

Lemma preserves_setSession f : preserves R (setSession f).
Proof. intros w. simpl. reflexivity. Qed.

Lemma preserves_update f : (∀ st, R st (f st)) → preserves R (update f).
Proof. intros H w. simpl. apply H. Qed.

Lemma preserves_effect {A} (f : Store → A * Store) :
  (∀ st, R st (f st).2) → preserves R (effect f).
Proof. intros H w. unfold effect. specialize (H (db w)). by destruct (f (db w)). Qed.

Lemma preserves_bind {A B} (m : Handler A) (k : A → Handler B) :
  preserves R m → (∀ a, preserves R (k a)) → preserves R (bind m k).
Proof.
  intros Hm Hk w. unfold bind. specialize (Hm w).
  destruct (m w) as [w1 [r|a]]; simpl in *; [done|].
  etrans; [exact Hm|]. apply Hk.
Qed.

Lemma preserves_getService now serviceId : preserves R (getService now serviceId).
Proof. intros w. simpl. reflexivity. Qed.

Lemma preserves_lookupService now serviceId : preserves R (lookupService now serviceId).
Proof.
  apply preserves_bind; [apply preserves_getService|].
  intros [s|]; [apply preserves_ret|apply preserves_query].
Qed.

Lemma preserves_run (h : Handler Response) (w : World) :
  preserves R h → R (db w) (db (run h w).1).
Proof. intros H. unfold run. specialize (H w). by destruct (h w) as [w1 [r|r]]. Qed.
End HandlerLogic.

(** Walks through a handler, leaving the store-changing steps to [tac]. *)
Ltac walk_handler tac :=
  repeat first
    [ apply preserves_ret; solve [apply _]
    | apply preserves_reply; solve [apply _]
    | apply preserves_query; solve [apply _]
    | apply preserves_setSession; solve [apply _]
    | apply preserves_lookupService; solve [apply _]
    | apply preserves_bind; [apply _| |intros ?]
    | apply preserves_update; [intros ?; tac]
    | apply preserves_effect; [intros ?; tac]
    | match goal with
      | |- preserves _ (match ?x with _ => _ end) => destruct x
      | |- preserves _ (let '(_, _) := ?x in _) => destruct x
      end ].

#[local] Instance keepsLocksUnique_refl : Reflexive keepsLocksUnique.
Proof. intros st H. exact H. Qed.
#[local] Instance keepsLocksUnique_trans : Transitive keepsLocksUnique.
Proof. intros a b c H1 H2 H. by apply H2, H1. Qed.
#[local] Instance sameLocks_refl : Reflexive sameLocks.
Proof. intros st. by split. Qed.
#[local] Instance sameLocks_trans : Transitive sameLocks.
Proof. intros a b c [H1 H1'] [H2 H2']. split; congruence. Qed.

Lemma sameLocks_keepsLocksUnique st st' : sameLocks st st' → keepsLocksUnique st st'.
Proof. intros [H _]. unfold keepsLocksUnique, locksUnique. by rewrite H. Qed.

(** ** What leaves the locks alone *)

Lemma foldl_store_rel {A} (R : Store → Store → Prop) `{!Reflexive R} `{!Transitive R}
    (step : Sweep → A → Sweep) (l : list A) (acc : Sweep) :
  (∀ acc x, R (store acc) (store (step acc x))) →
  R (store acc) (store (foldl step acc l)).
Proof.
  intros Hstep. revert acc. induction l as [|x l IH]; intros acc; simpl; [done|].
  etrans; [apply Hstep|apply IH].
Qed.

Lemma sameLocks_Client_incrementEmailCounter now doc st :
  sameLocks st (Client_incrementEmailCounter now doc st).2.
Proof. unfold Client_incrementEmailCounter. case_decide; by split. Qed.

Lemma sameLocks_sendMail mail kind now to id st :
  sameLocks st (sendMail mail kind now to id st).2.
Proof.
  unfold sendMail. case_decide; [done|]. destruct (mail kind to id); simpl; try done.
  assert (sameLocks st (incrementDailyEmailCounter now to st)) as H1.
  { unfold incrementDailyEmailCounter. destruct (Client_findByEmail st to); [|done].
    apply sameLocks_Client_incrementEmailCounter. }
  destruct id; [|done]. etrans; [exact H1|]. by split.
Qed.

Lemma sameLocks_sendAutoDeclineEmail mail now booking st ds :
  sameLocks st (sendAutoDeclineEmail mail now booking st ds).1.2.
Proof.
  unfold sendAutoDeclineEmail. destruct (Service_findById _ _); [|done].
  unfold sendBookingRejectionEmail.
  pose proof (sameLocks_sendMail mail Rejection now (Booking.email booking)
                (Some (Booking._id booking)) st) as H.
  destruct (sendMail _ _ _ _ _ _) as [[] st1]; simpl in *; [|done].
  destruct (clientDoc ds booking) as [doc|]; [|done].
  pose proof (sameLocks_Client_incrementEmailCounter now doc st1) as H2.
  destruct (Client_incrementEmailCounter now doc st1); simpl in *. by etrans.
Qed.

Lemma sameLocks_releaseClientBooking now booking st ds :
  sameLocks st (releaseClientBooking now booking st ds).1.
Proof. unfold releaseClientBooking. destruct (clientDoc ds booking); by split. Qed.

Lemma sameLocks_autoExpire mail now acc booking :
  sameLocks (store acc) (store (autoExpire mail now acc booking)).
Proof.
  unfold autoExpire.
  pose proof (sameLocks_sendAutoDeclineEmail mail now booking (store acc) (docs acc)) as H1.
  destruct (sendAutoDeclineEmail _ _ _ _ _) as [[sent st1] ds1]; simpl in *.
  pose proof (sameLocks_releaseClientBooking now booking st1 ds1) as H2.
  destruct (releaseClientBooking _ _ _ _) as [st2 ds2]; simpl in *.
  etrans; [exact H1|]. etrans; [exact H2|]. by split.
Qed.

Lemma sameLocks_dropUnconfirmed now acc booking :
  sameLocks (store acc) (store (dropUnconfirmed now acc booking)).
Proof.
  unfold dropUnconfirmed.
  pose proof (sameLocks_releaseClientBooking now booking (store acc) (docs acc)) as H.
  destruct (releaseClientBooking _ _ _ _) as [st1 ds1]; simpl in *.
  etrans; [exact H|]. by split.
Qed.

Lemma sameLocks_runFullCleanup mail now st :
  sameLocks st (runFullCleanup mail now st).1.
Proof.
  unfold runFullCleanup.
  assert (sameLocks st (cleanupExpiredBookings mail now st).1) as H1.
  { unfold cleanupExpiredBookings. destruct (pendingVerifiedBookings st) as [|b bs]; [done|].
    destruct (expiredBookings now st) as [|e es]; [done|].
    apply (foldl_store_rel sameLocks (autoExpire mail now) (e :: es)
             (mkSweep st _ _)), sameLocks_autoExpire. }
  destruct (cleanupExpiredBookings mail now st) as [st1 c1]; simpl in *.
  assert (sameLocks st1 (cleanupUnconfirmedBookings now st1).1) as H2.
  { unfold cleanupUnconfirmedBookings.
    destruct (oldUnconfirmedBookings now st1) as [|b bs]; [done|].
    apply (foldl_store_rel sameLocks (dropUnconfirmed now) (b :: bs)
             (mkSweep st1 _ _)), sameLocks_dropUnconfirmed. }
  destruct (cleanupUnconfirmedBookings now st1) as [st2 c2]; simpl in *.
  assert (sameLocks st2 (cleanupDeclinedBookings now st2).1) as H3.
  { unfold cleanupDeclinedBookings. destruct (filter _ _) as [|b bs]; by split. }
  destruct (cleanupDeclinedBookings now st2) as [st3 c3]; simpl in *.
  etrans; [exact H1|]. etrans; [exact H2|]. etrans; [exact H3|]. by split.
Qed.

(** ** Running a handler step by step *)

Lemma wp_ret {A} (a : A) Q w : Q w (inr a) → wp (ret a) Q w.
Proof. done. Qed.

Lemma wp_reply {A} (r : Response) (Q : World → Response + A → Prop) w :
  Q w (inl r) → wp (reply r) Q w.
Proof. done. Qed.

Lemma wp_query {A} (f : Store → A) Q w : Q w (inr (f (db w))) → wp (query f) Q w.
Proof. done. Qed.

Lemma wp_update f Q w : Q (withDb (f (db w)) w) (inr tt) → wp (update f) Q w.
Proof. done. Qed.

Lemma wp_effect {A} (f : Store → A * Store) Q w :
  Q (withDb (f (db w)).2 w) (inr (f (db w)).1) → wp (effect f) Q w.
Proof. unfold wp, effect, withDb. by destruct (f (db w)). Qed.

Lemma wp_setSession f Q w :
  Q (mkWorld (db w) (serviceCache w) (rateLimit w) (f <$> session w)) (inr tt) →
  wp (setSession f) Q w.
Proof. done. Qed.

Lemma wp_bind {A B} (m : Handler A) (k : A → Handler B) Q w :
  wp m (λ w1 r, match r with
                | inl resp => Q w1 (inl resp)
                | inr a => wp (k a) Q w1
                end) w →
  wp (bind m k) Q w.
Proof. unfold wp, bind. by destruct (m w) as [w1 [r|a]]. Qed.

Lemma wp_run (h : Handler Response) (P : World → Response → Prop) w :
  wp h (λ w1 r, match r with inl resp | inr resp => P w1 resp end) w →
  P (run h w).1 (run h w).2.
Proof. unfold wp, run. by destruct (h w) as [w1 [r|r]]. Qed.

(** The service lookup answers from the cache or the store and touches the
    cache only. *)
Lemma wp_lookupService now serviceId Q w :
  (∀ cache found, Q (mkWorld (db w) cache (rateLimit w) (session w)) (inr found)) →
  wp (lookupService now serviceId) Q w.
Proof.
  intros H. unfold lookupService. apply wp_bind. unfold wp at 1, getService.
  cbn [fst snd]. destruct (cachedServices _ !! serviceId); [apply wp_ret|apply wp_query]; apply H.
Qed.

Ltac wp_step :=
  first
    [ apply wp_ret | apply wp_reply | apply wp_query | apply wp_update | apply wp_effect
    | apply wp_setSession | apply wp_bind ].

(** ** The slot lock *)

Lemma acquireLock_conflict now sessionID serviceId date time w :
  (date, time, serviceId) ∈ lockKey <$> timeLocks (db w) →
  acquireLock now sessionID serviceId date time w = (w, inl (errorResponse 400 (slotTaken time))).
Proof. intros H. unfold acquireLock, TimeLock_save. by rewrite decide_True. Qed.

Lemma acquireLock_cases now sessionID serviceId date time Q w :
  ((date, time, serviceId) ∈ lockKey <$> timeLocks (db w) →
   Q w (inl (errorResponse 400 (slotTaken time)))) →
  ((date, time, serviceId) ∉ (lockKey <$> timeLocks (db w)) →
   Q (withDb (set_timeLocks (timeLocks (db w) ++ [TimeLock.mk date time serviceId sessionID now])
                (db w)) w) (inr tt)) →
  wp (acquireLock now sessionID serviceId date time) Q w.
Proof.
  intros H1 H2. unfold wp, acquireLock, TimeLock_save. case_decide; simpl; auto.
Qed.

(** What [createBooking] does to the locks: nothing when it refuses (with a
    404 for an unknown service, a 400 otherwise), one insert of a new key
    when it accepts. *)
Lemma createBooking_locks now sessionID serviceId date time w :
  let w' := (run (createBooking now sessionID serviceId date time) w).1 in
  let r := (run (createBooking now sessionID serviceId date time) w).2 in
  (success r = false ∧ (statusCode r = 400 ∨ statusCode r = 404) ∧
   timeLocks (db w') = timeLocks (db w)) ∨
  (success r = true ∧ ((date, time, serviceId) ∉ lockKey <$> timeLocks (db w)) ∧
   timeLocks (db w') = timeLocks (db w) ++ [TimeLock.mk date time serviceId sessionID now]).
Proof.
  cbn zeta.
  apply (wp_run _ (λ w' r,
    (success r = false ∧ (statusCode r = 400 ∨ statusCode r = 404) ∧
     timeLocks (db w') = timeLocks (db w)) ∨
    (success r = true ∧ ((date, time, serviceId) ∉ lockKey <$> timeLocks (db w)) ∧
     timeLocks (db w') = timeLocks (db w) ++ [TimeLock.mk date time serviceId sessionID now]))).
  unfold createBooking. apply wp_bind, wp_lookupService. intros cache [service|].
  - apply wp_bind, wp_query. destruct (negb _).
    + apply wp_bind, wp_query. destruct (isBlocked _); apply wp_reply; left; auto.
    + apply wp_bind, acquireLock_cases.
      * intros _. left. auto.
      * intros Hfresh. apply wp_bind, wp_setSession, wp_reply. right. done.
  - apply wp_reply. left. auto.
Qed.

Lemma deleteOne_sublist {A} (matches : A → bool) (l : list A) :
  deleteOne matches l `sublist_of` l.
Proof.
  induction l as [|x l IH]; simpl; [done|].
  destruct (matches x); [by apply sublist_cons|by apply sublist_skip].
Qed.

Lemma keepsLocksUnique_deleteOne date time serviceId lockedBy st :
  keepsLocksUnique st (TimeLock_deleteOne date time serviceId lockedBy st).
Proof.
  unfold keepsLocksUnique, locksUnique, TimeLock_deleteOne. simpl.
  intros H. eapply sublist_NoDup; [exact H|]. apply fmap_sublist, deleteOne_sublist.
Qed.

Lemma keepsLocksUnique_acquireLock now sessionID serviceId date time :
  preserves keepsLocksUnique (acquireLock now sessionID serviceId date time).
Proof.
  intros w. unfold acquireLock, TimeLock_save. case_decide as Hin; simpl; [done|].
  unfold keepsLocksUnique, locksUnique. simpl. intros Hnd.
  rewrite fmap_app. apply NoDup_app. split; [done|]. split; [|apply NoDup_singleton].
  intros k Hk Hk'%list_elem_of_singleton. subst k. done.
Qed.

(** Side conditions of the walk: the step leaves the locks alone, or deletes
    one. *)
Ltac frame_locks :=
  first
    [ apply keepsLocksUnique_deleteOne
    | apply sameLocks_keepsLocksUnique;
      first
        [ apply sameLocks_sendMail
        | apply sameLocks_Client_incrementEmailCounter
        | match goal with
          | |- sameLocks ?st (let '(_, _) := runFullCleanup ?m ?n ?st in _).2 =>
              let H := fresh in
              pose proof (sameLocks_runFullCleanup m n st) as H;
              destruct (runFullCleanup m n st); exact H
          end
        | by split ] ].

Ltac walk_locks :=
  repeat first
    [ apply preserves_ret; solve [apply _]
    | apply preserves_reply; solve [apply _]
    | apply preserves_query; solve [apply _]
    | apply preserves_setSession; solve [apply _]
    | apply preserves_lookupService; solve [apply _]
    | apply keepsLocksUnique_acquireLock
    | apply preserves_bind; [apply _| |intros ?]
    | apply preserves_update; intros ?; frame_locks
    | apply preserves_effect; intros ?; frame_locks
    | match goal with
      | |- preserves _ (match ?x with _ => _ end) => destruct x
      | |- preserves _ (let '(_, _) := ?x in _) => destruct x
      end ].

Lemma keepsLocksUnique_handle mail now req :
  preserves keepsLocksUnique (handle mail now req).
Proof.
  destruct req; simpl.
  - unfold getAvailableTimeSlots, slotsReply. walk_locks.
  - unfold createBooking. walk_locks.
  - unfold completeBooking, findOrCreateClient, sendVerificationEmail, Client_saveTotal.
    apply preserves_bind; [apply _| |intros [[? ?] ?]].
    { intros w. unfold bookingDataOf. repeat case_match; done. }
    walk_locks.
    all: try (intros w; unfold checkRateLimit; destruct (rateLimit_check _ _ _ _ _); done).
  - unfold confirmBooking, saveStatus, countClientEmail, sendBookingConfirmationEmail.
    walk_locks.
  - unfold declineBooking, saveStatus, countClientEmail, sendBookingRejectionEmail.
    walk_locks.
  - unfold blockUser, blockClientOf, saveStatus, countClientEmail, sendUserBlockedEmail,
      Client_block.
    walk_locks.
  - unfold completeBookingService. walk_locks.
  - unfold suspendBooking, saveStatus. walk_locks.
  - unfold runManualCleanup. walk_locks.
  - unfold blockDate. walk_locks.
Qed.

(** C1. When a lock for [(date, time, serviceId)] exists, the insert of
    [createBooking] is answered with the 400 "slot already reserved"
    rejection and changes nothing, and [createBooking] as a whole fails
    without adding a lock; every request handler keeps the locks unique per
    [(date, time, serviceId)]. *)
Theorem slot_lock_conflict
    (mail : Mailer) (now : Z) (sessionID : string) (serviceId date : Z) (time : string)
    (w : World) :
  ((date, time, serviceId) ∈ lockKey <$> timeLocks (db w) →
   acquireLock now sessionID serviceId date time w =
     (w, inl (errorResponse 400 (slotTaken time))) ∧
   success (run (createBooking now sessionID serviceId date time) w).2 = false ∧
   timeLocks (db (run (createBooking now sessionID serviceId date time) w).1) =
     timeLocks (db w)) ∧
  (∀ req, locksUnique (db w) → locksUnique (db (run (handle mail now req) w).1)).
Proof.
  split.
  - intros Hin. split; [by apply acquireLock_conflict|].
    destruct (createBooking_locks now sessionID serviceId date time w)
      as [(Hfail & _ & Hsame)|(_ & Hfresh & _)]; [done|].
    by destruct Hfresh.
  - intros req. apply (preserves_run keepsLocksUnique), keepsLocksUnique_handle.
Qed.

(** ** Looking documents up after a write *)

Lemma head_filter_fmap {A} (P : A → Prop) `{!∀ x, Decision (P x)} (g : A → A) (l : list A) :
  (∀ x, P (g x) ↔ P x) →
  head (filter P (g <$> l)) = g <$> head (filter P l).
Proof.
  intros Hg. induction l as [|x l IH]; [done|].
  rewrite fmap_cons, !filter_cons.
  destruct (decide (P (g x))) as [Hy|Hn], (decide (P x)) as [Hy'|Hn']; try done.
  - exfalso. apply Hn'. by apply Hg.
  - exfalso. apply Hn. by apply Hg.
Qed.

Lemma Booking_findById_elem st id b :
  Booking_findById st id = Some b → b ∈ bookings st ∧ Booking._id b = id.
Proof.
  unfold Booking_findById. intros H%head_Some_elem_of%list_elem_of_filter. tauto.
Qed.

Lemma Client_findById_elem st id c :
  Client_findById st id = Some c → c ∈ clients st ∧ Client._id c = id.
Proof.
  unfold Client_findById. intros H%head_Some_elem_of%list_elem_of_filter. tauto.
Qed.

Lemma Booking_findById_update st id f id' :
  (∀ b, Booking._id (f b) = Booking._id b) →
  Booking_findById (Booking_update id f st) id' =
  (λ b, if decide (Booking._id b = id) then f b else b) <$> Booking_findById st id'.
Proof.
  intros Hf. unfold Booking_findById, Booking_update. simpl.
  apply head_filter_fmap. intros b. case_decide; [by rewrite Hf|done].
Qed.

Lemma Client_findById_update st id f id' :
  (∀ c, Client._id (f c) = Client._id c) →
  Client_findById (Client_update id f st) id' =
  (λ c, if decide (Client._id c = id) then f c else c) <$> Client_findById st id'.
Proof.
  intros Hf. unfold Client_findById, Client_update. simpl.
  apply head_filter_fmap. intros c. case_decide; [by rewrite Hf|done].
Qed.

(** ** complete-service *)

(** Away from the bound of the counter: when the client of the booking, if
    it has one, has its completedBookings below the schema's bound of 1000,
    complete-service succeeds if and only if the booking is confirmed; it
    then stores the booking completed, with the time, and the client with
    one more completed booking; for any other status it answers 400 and
    changes nothing. *)
Lemma complete_service_below_the_bound
    (now : Z) (bookingId : ObjectId) (booking : Booking.t) (w : World) :
  Booking_findById (db w) bookingId = Some booking →
  (∀ client, populateClient (db w) booking = Some client →
             0 ≤ Client.completedBookings client < 1000) →
  let w' := (run (completeBookingService now (Some bookingId)) w).1 in
  let r := (run (completeBookingService now (Some bookingId)) w).2 in
  (success r = true ↔ Booking.status booking = confirmed) ∧
  (Booking.status booking = confirmed →
   Booking_findById (db w') bookingId =
     Some (Booking.set_completedAt now (Booking.set_status completed booking)) ∧
   ∀ client, populateClient (db w) booking = Some client →
     Client_findById (db w') (Client._id client) =
       Some (Client.touch now
               (Client.set_completed (Client.completedBookings client + 1) now client))) ∧
  (Booking.status booking ≠ confirmed → w' = w ∧ statusCode r = 400 ∧ success r = false).
Proof.
  intros Hfind Hbound. cbn zeta.
  destruct (Booking_findById_elem _ _ _ Hfind) as [_ Hid].
  apply (wp_run _ (λ w' r,
    (success r = true ↔ Booking.status booking = confirmed) ∧
    (Booking.status booking = confirmed →
     Booking_findById (db w') bookingId =
       Some (Booking.set_completedAt now (Booking.set_status completed booking)) ∧
     ∀ client, populateClient (db w) booking = Some client →
       Client_findById (db w') (Client._id client) =
         Some (Client.touch now
                 (Client.set_completed (Client.completedBookings client + 1) now client))) ∧
    (Booking.status booking ≠ confirmed → w' = w ∧ statusCode r = 400 ∧ success r = false))).
  unfold completeBookingService. apply wp_bind, wp_query. rewrite Hfind.
  apply wp_bind, wp_query. case_decide as Hst.
  - apply wp_reply. simpl. split; [split; [done|]|split]; try done.
  - apply wp_bind, wp_update.
    assert (Booking_findById
              (Booking_update (Booking._id booking)
                 (λ b, Booking.set_completedAt now (Booking.set_status completed b)) (db w))
              bookingId =
            Some (Booking.set_completedAt now (Booking.set_status completed booking))) as Hb.
    { rewrite Booking_findById_update by done. rewrite Hfind. simpl.
      by rewrite decide_True. }
    destruct (populateClient (db w) booking) as [doc|] eqn:Hdoc.
    + assert (validCount (Client.completedBookings doc + 1) = true) as ->.
      { apply bool_decide_eq_true. specialize (Hbound doc eq_refl). lia. }
      apply wp_bind, wp_update, wp_reply. simpl. split; [done|]. split; [|done].
      intros _. split; [exact Hb|]. intros client [= <-].
      rewrite Client_findById_update by done.
      unfold populateClient in Hdoc. destruct (Booking.client booking) as [cid|]; [|done].
      simpl in Hdoc. destruct (Client_findById_elem _ _ _ Hdoc) as [_ Hcid].
      replace (Client_findById (Booking_update _ _ (db w)) (Client._id doc))
        with (Client_findById (db w) (Client._id doc)) by done.
      rewrite Hcid, Hdoc. simpl. by rewrite decide_True.
    + apply wp_bind, wp_ret, wp_reply. simpl. split; [done|]. split; [|done].
      intros _. split; [exact Hb|]. done.
Qed.

(** At the bound: with the counter at 1000 the booking is stored
    'completed', the save of the client is rejected, and the answer is 500. *)
Lemma complete_service_at_bound
    (now : Z) (bookingId : ObjectId) (booking : Booking.t) (client : Client.t) (w : World) :
  Booking_findById (db w) bookingId = Some booking →
  Booking.status booking = confirmed →
  populateClient (db w) booking = Some client →
  Client.completedBookings client = 1000 →
  let w' := (run (completeBookingService now (Some bookingId)) w).1 in
  let r := (run (completeBookingService now (Some bookingId)) w).2 in
  statusCode r = 500 ∧ success r = false ∧
  Booking.status <$> Booking_findById (db w') bookingId = Some completed ∧
  clients (db w') = clients (db w).
Proof.
  intros Hfind Hst Hdoc Hfull. cbn zeta.
  destruct (Booking_findById_elem _ _ _ Hfind) as [_ Hid].
  apply (wp_run _ (λ w' r,
    statusCode r = 500 ∧ success r = false ∧
    Booking.status <$> Booking_findById (db w') bookingId = Some completed ∧
    clients (db w') = clients (db w))).
  unfold completeBookingService. apply wp_bind, wp_query. rewrite Hfind.
  apply wp_bind, wp_query. rewrite decide_False by (intros Hne; by apply Hne).
  apply wp_bind, wp_update. rewrite Hdoc, Hfull.
  apply wp_bind, wp_reply. simpl. split; [done|]. split; [done|]. split; [|done].
  rewrite Booking_findById_update by done. rewrite Hfind. simpl.
  by rewrite decide_True.
Qed.

(** C4.  The claim fails on the code for a client whose completedBookings
    stand at the schema's bound of 1000: the confirmed booking of such a
    client is answered 500, although its status is exactly confirmed, and
    the booking is left stored completed while the client's counter is not
    incremented.  ([Client.completeBooking] has the guard against the bound
    that the handler lacks.) *)
Theorem complete_service_fails_at_the_bound :
  let booking := Sample.booking 1 confirmed true Sample.tuesday "14:00" in
  let w := Sample.world (mkStore [Sample.tuns] [booking] [Sample.regular] [] []) in
  let now := Sample.tuesday + 15 * 3600000 in
  let w' := (run (completeBookingService now (Some 1)) w).1 in
  let r := (run (completeBookingService now (Some 1)) w).2 in
  (Booking_findById (db w) 1 = Some booking ∧ Booking.status booking = confirmed ∧
   populateClient (db w) booking = Some Sample.regular ∧
   Client.completedBookings Sample.regular = 1000) ∧
  statusCode r = 500 ∧ success r = false ∧
  Booking.status <$> Booking_findById (db w') 1 = Some completed ∧
  clients (db w') = clients (db w).
Proof.
  intros booking w now.
  assert (Booking_findById (db w) 1 = Some booking) as Hfind by reflexivity.
  assert (populateClient (db w) booking = Some Sample.regular) as Hdoc by reflexivity.
  split; [by repeat split|].
  exact (complete_service_at_bound now 1 booking Sample.regular w Hfind eq_refl Hdoc eq_refl).
Qed.

(** ** Transitions and terminal states *)

#[local] Instance notBackToPending_refl : Reflexive notBackToPending.
Proof. intros b. by split. Qed.
#[local] Instance notBackToPending_trans : Transitive notBackToPending.
Proof. intros a b c [H1 H1'] [H2 H2']. split; [congruence|auto]. Qed.
#[local] Instance neverBackToPending_refl : Reflexive neverBackToPending.
Proof.
  intros st. apply Forall_Forall2_diag, Forall_forall. intros b _. reflexivity.
Qed.
#[local] Instance neverBackToPending_trans : Transitive neverBackToPending.
Proof.
  intros a b c H1 H2. unfold neverBackToPending in *.
  eapply Forall2_trans; [|exact H1|exact H2]. intros x y z Hxy Hyz. by etrans.
Qed.

Lemma neverBackToPending_same st st' :
  bookings st' = bookings st → neverBackToPending st st'.
Proof. intros H. unfold neverBackToPending. rewrite H. reflexivity. Qed.

Lemma neverBackToPending_update id f st :
  (∀ b, notBackToPending b (f b)) → neverBackToPending st (Booking_update id f st).
Proof.
  intros Hf. unfold neverBackToPending, Booking_update. simpl.
  apply Forall2_fmap_r, Forall_Forall2_diag, Forall_forall. intros b _. simpl.
  case_decide; [apply Hf|reflexivity].
Qed.

Lemma neverBackToPending_Client_incrementEmailCounter now doc st :
  neverBackToPending st (Client_incrementEmailCounter now doc st).2.
Proof.
  unfold Client_incrementEmailCounter. case_decide; by apply neverBackToPending_same.
Qed.

Lemma neverBackToPending_sendMail mail kind now to id st :
  neverBackToPending st (sendMail mail kind now to id st).2.
Proof.
  unfold sendMail. case_decide; [reflexivity|].
  destruct (mail kind to id); simpl; try reflexivity.
  assert (neverBackToPending st (incrementDailyEmailCounter now to st)) as H1.
  { unfold incrementDailyEmailCounter. destruct (Client_findByEmail st to); [|reflexivity].
    apply neverBackToPending_Client_incrementEmailCounter. }
  destruct id; [|done]. etrans; [exact H1|].
  apply neverBackToPending_update. intros b. unfold Booking.count_email. by case_decide.
Qed.

Ltac frame_pending :=
  first
    [ apply neverBackToPending_sendMail
    | apply neverBackToPending_Client_incrementEmailCounter
    | apply neverBackToPending_update; intros ?; split; [reflexivity|simpl; done]
    | apply neverBackToPending_same; reflexivity ].

Ltac walk_pending :=
  repeat first
    [ apply preserves_ret; solve [apply _]
    | apply preserves_reply; solve [apply _]
    | apply preserves_query; solve [apply _]
    | apply preserves_bind; [apply _| |intros ?]
    | apply preserves_update; intros ?; frame_pending
    | apply preserves_effect; intros ?; frame_pending
    | match goal with
      | |- preserves _ (match ?x with _ => _ end) => destruct x
      end ].

Lemma neverBackToPending_lifecycle mail now req :
  lifecycle req = true → preserves neverBackToPending (handle mail now req).
Proof.
  destruct req; try done; intros _; simpl.
  - unfold confirmBooking, saveStatus, countClientEmail, sendBookingConfirmationEmail.
    walk_pending.
  - unfold declineBooking, saveStatus, countClientEmail, sendBookingRejectionEmail.
    walk_pending.
  - unfold blockUser, blockClientOf, saveStatus, countClientEmail, sendUserBlockedEmail,
      Client_block.
    walk_pending.
  - unfold completeBookingService. walk_pending.
  - unfold suspendBooking, saveStatus. walk_pending.
Qed.

(** Counting a mail on a booking touches its mail counter only. *)
Lemma count_email_id now b : Booking._id (Booking.count_email now b) = Booking._id b.
Proof. unfold Booking.count_email. by case_decide. Qed.

Lemma count_email_status now b : Booking.status (Booking.count_email now b) = Booking.status b.
Proof. unfold Booking.count_email. by case_decide. Qed.

Lemma count_email_verified now b :
  Booking.verified (Booking.count_email now b) = Booking.verified b.
Proof. unfold Booking.count_email. by case_decide. Qed.

Lemma count_email_notes now b : Booking.notes (Booking.count_email now b) = Booking.notes b.
Proof. unfold Booking.count_email. by case_decide. Qed.

Lemma count_email_client now b : Booking.client (Booking.count_email now b) = Booking.client b.
Proof. unfold Booking.count_email. by case_decide. Qed.

Lemma count_email_moment now b :
  Booking.date (Booking.count_email now b) = Booking.date b ∧
  Booking.time (Booking.count_email now b) = Booking.time b.
Proof. unfold Booking.count_email. by case_decide. Qed.

#[local] Arguments Booking.count_email : simpl never.

Lemma Booking_findById_same st st' id :
  bookings st' = bookings st → Booking_findById st' id = Booking_findById st id.
Proof. unfold Booking_findById. by intros ->. Qed.

Lemma bookings_Client_incrementEmailCounter now doc st :
  bookings (Client_incrementEmailCounter now doc st).2 = bookings st.
Proof. unfold Client_incrementEmailCounter. by case_decide. Qed.

Lemma Booking_exists_sendMail mail kind now to bid st id :
  is_Some (Booking_findById st id) →
  is_Some (Booking_findById (sendMail mail kind now to bid st).2 id).
Proof.
  intros H. unfold sendMail. case_decide; [done|]. destruct (mail kind to bid); simpl; try done.
  assert (is_Some (Booking_findById (incrementDailyEmailCounter now to st) id)) as H1.
  { unfold incrementDailyEmailCounter. destruct (Client_findByEmail st to); [|done].
    rewrite (Booking_findById_same st); [done|].
    apply bookings_Client_incrementEmailCounter. }
  destruct bid; [|done]. unfold incrementBookingEmailCounter.
  rewrite Booking_findById_update by apply count_email_id. by apply fmap_is_Some.
Qed.

Lemma status_after_saveStatus st id booking s :
  Booking._id booking = id → is_Some (Booking_findById st id) →
  Booking.status <$>
    Booking_findById (Booking_update (Booking._id booking) (Booking.set_status s) st) id = Some s.
Proof.
  intros Hid [b Hb]. rewrite Booking_findById_update by done. rewrite Hb. simpl.
  destruct (Booking_findById_elem _ _ _ Hb) as [_ Hbid]. rewrite decide_True; [done|congruence].
Qed.

(** [confirm] and [decline] look at no status: on any booking whose service
    exists they succeed and store their own status. *)
Lemma confirmBooking_any_status mail now w bookingId booking service :
  Booking_findById (db w) bookingId = Some booking →
  Service_findById (db w) (Booking.service booking) = Some service →
  success (run (confirmBooking mail now bookingId) w).2 = true ∧
  Booking.status <$> Booking_findById (db (run (confirmBooking mail now bookingId) w).1) bookingId
    = Some confirmed.
Proof.
  intros Hfind Hsvc. destruct (Booking_findById_elem _ _ _ Hfind) as [_ Hid].
  apply (wp_run _ (λ w' r, success r = true ∧
           Booking.status <$> Booking_findById (db w') bookingId = Some confirmed)).
  unfold confirmBooking, saveStatus, sendBookingConfirmationEmail.
  apply wp_bind, wp_query. rewrite Hfind. apply wp_bind, wp_query.
  apply wp_bind, wp_query. rewrite Hsvc. apply wp_bind, wp_query.
  destruct (usageExhausted _); [|destruct (usageExhausted _)].
  - apply wp_bind, wp_update, wp_reply. split; [done|]. simpl.
    apply status_after_saveStatus; [done|by rewrite Hfind].
  - apply wp_bind, wp_update, wp_reply. split; [done|]. simpl.
    apply status_after_saveStatus; [done|by rewrite Hfind].
  - apply wp_bind, wp_effect, wp_bind, wp_update, wp_bind.
    assert (Booking.status <$>
              Booking_findById
                (Booking_update (Booking._id booking) (Booking.set_status confirmed)
                   (sendMail mail Confirmation now (Booking.email booking)
                      (Some (Booking._id booking)) (db w)).2) bookingId = Some confirmed) as Hst.
    { apply status_after_saveStatus; [done|].
      apply Booking_exists_sendMail. by rewrite Hfind. }
    unfold countClientEmail.
    destruct (populateClient (db w) booking) as [doc|];
      destruct (sendMail _ _ _ _ _ _).1; simpl.
    + apply wp_bind, wp_effect, wp_ret, wp_reply. split; [done|]. simpl.
      by rewrite (Booking_findById_same _ _ _ (bookings_Client_incrementEmailCounter _ _ _)).
    + apply wp_ret, wp_reply. done.
    + apply wp_ret, wp_reply. done.
    + apply wp_ret, wp_reply. done.
Qed.

Lemma declineBooking_any_status mail now w bookingId booking service :
  Booking_findById (db w) bookingId = Some booking →
  Service_findById (db w) (Booking.service booking) = Some service →
  success (run (declineBooking mail now bookingId) w).2 = true ∧
  Booking.status <$> Booking_findById (db (run (declineBooking mail now bookingId) w).1) bookingId
    = Some declined.
Proof.
  intros Hfind Hsvc. destruct (Booking_findById_elem _ _ _ Hfind) as [_ Hid].
  apply (wp_run _ (λ w' r, success r = true ∧
           Booking.status <$> Booking_findById (db w') bookingId = Some declined)).
  unfold declineBooking, saveStatus, sendBookingRejectionEmail.
  apply wp_bind, wp_query. rewrite Hfind. apply wp_bind, wp_query.
  apply wp_bind, wp_query. rewrite Hsvc. apply wp_bind, wp_query.
  destruct (usageExhausted _); [|destruct (usageExhausted _)].
  - apply wp_bind, wp_update, wp_reply. split; [done|]. simpl.
    apply status_after_saveStatus; [done|by rewrite Hfind].
  - apply wp_bind, wp_update, wp_reply. split; [done|]. simpl.
    apply status_after_saveStatus; [done|by rewrite Hfind].
  - apply wp_bind, wp_effect, wp_bind, wp_update, wp_bind.
    assert (Booking.status <$>
              Booking_findById
                (Booking_update (Booking._id booking) (Booking.set_status declined)
                   (sendMail mail Rejection now (Booking.email booking)
                      (Some (Booking._id booking)) (db w)).2) bookingId = Some declined) as Hst.
    { apply status_after_saveStatus; [done|].
      apply Booking_exists_sendMail. by rewrite Hfind. }
    unfold countClientEmail.
    destruct (populateClient (db w) booking) as [doc|];
      destruct (sendMail _ _ _ _ _ _).1; simpl.
    + apply wp_bind, wp_effect, wp_ret, wp_reply. split; [done|]. simpl.
      by rewrite (Booking_findById_same _ _ _ (bookings_Client_incrementEmailCounter _ _ _)).
    + apply wp_ret, wp_reply. done.
    + apply wp_ret, wp_reply. done.
    + apply wp_ret, wp_reply. done.
Qed.

(** [complete-service] on a status other than 'confirmed': the 400, and the
    world as it was. *)
Lemma completeBookingService_refuses now w bookingId booking :
  Booking_findById (db w) bookingId = Some booking →
  Booking.status booking ≠ confirmed →
  run (completeBookingService now (Some bookingId)) w =
    (w, errorResponse 400
          ("Nu se poate marca ca finalizată o rezervare cu statusul: " +:+
           Status_toString (Booking.status booking))).
Proof.
  intros Hfind Hst. unfold run, completeBookingService, bind, query, reply. simpl.
  rewrite Hfind. by rewrite decide_True.
Qed.

(** Blocking the client leaves the bookings as they are. *)
Lemma wp_blockClientOf now why booking populated
    (Q : World → Response + option Client.t → Prop) w :
  (∀ w1 client, bookings (db w1) = bookings (db w) → Q w1 (inr client)) →
  wp (blockClientOf now why booking populated) Q w.
Proof.
  intros HQ. unfold blockClientOf. destruct populated as [doc|].
  - by apply wp_bind, wp_effect, wp_ret, HQ.
  - apply wp_bind, wp_query. destruct (Client_findByEmail _ _) as [doc|].
    + by apply wp_bind, wp_effect, wp_ret, HQ.
    + by apply wp_bind, wp_query, wp_bind, wp_update, wp_ret, HQ.
Qed.

(** [block-user] declines the booking whatever its status. *)
Lemma blockUser_any_status mail now w bookingId reason booking :
  Booking_findById (db w) bookingId = Some booking →
  success (run (blockUser mail now bookingId reason) w).2 = true ∧
  Booking.status <$>
    Booking_findById (db (run (blockUser mail now bookingId reason) w).1) bookingId
    = Some declined.
Proof.
  intros Hfind. destruct (Booking_findById_elem _ _ _ Hfind) as [_ Hid].
  apply (wp_run _ (λ w' r, success r = true ∧
           Booking.status <$> Booking_findById (db w') bookingId = Some declined)).
  unfold blockUser. apply wp_bind, wp_query. rewrite Hfind. apply wp_bind, wp_query.
  apply wp_bind.
  apply wp_blockClientOf. intros w1 client Hsame.
  assert (Booking_findById (db w1) bookingId = Some booking) as Hfind1.
  { by rewrite (Booking_findById_same _ _ _ Hsame). }
  unfold saveStatus, sendUserBlockedEmail. apply wp_bind, wp_query.
  destruct (usageExhausted _); [|destruct (usageExhausted _)].
  - apply wp_bind, wp_update, wp_reply. split; [done|]. simpl.
    apply status_after_saveStatus; [done|by rewrite Hfind1].
  - apply wp_bind, wp_update, wp_reply. split; [done|]. simpl.
    apply status_after_saveStatus; [done|by rewrite Hfind1].
  - apply wp_bind, wp_query. destruct (Service_findById _ _).
    + apply wp_bind, wp_effect, wp_bind, wp_update, wp_bind.
      assert (Booking.status <$>
                Booking_findById
                  (Booking_update (Booking._id booking) (Booking.set_status declined)
                     (sendMail mail UserBlocked now (Booking.email booking) None (db w1)).2)
                  bookingId = Some declined) as Hst.
      { apply status_after_saveStatus; [done|].
        apply Booking_exists_sendMail. by rewrite Hfind1. }
      unfold countClientEmail.
      destruct client as [doc|]; destruct (sendMail _ _ _ _ _ _).1; simpl.
      * apply wp_bind, wp_effect, wp_ret, wp_reply. split; [done|]. simpl.
        by rewrite (Booking_findById_same _ _ _ (bookings_Client_incrementEmailCounter _ _ _)).
      * apply wp_ret, wp_reply. done.
      * apply wp_ret, wp_reply. done.
      * apply wp_ret, wp_reply. done.
    + apply wp_bind, wp_update, wp_reply. split; [done|]. simpl.
      apply status_after_saveStatus; [done|by rewrite Hfind1].
Qed.

(** [suspend] refuses a confirmed booking only: on any other it succeeds and
    stores 'cancelled'. *)
Lemma suspendBooking_unless_confirmed sessionID w bookingId booking :
  Booking_findById (db w) bookingId = Some booking →
  Booking.status booking ≠ confirmed →
  success (run (suspendBooking sessionID bookingId) w).2 = true ∧
  Booking.status <$>
    Booking_findById (db (run (suspendBooking sessionID bookingId) w).1) bookingId
    = Some cancelled.
Proof.
  intros Hfind Hstatus. destruct (Booking_findById_elem _ _ _ Hfind) as [_ Hid].
  apply (wp_run _ (λ w' r, success r = true ∧
           Booking.status <$> Booking_findById (db w') bookingId = Some cancelled)).
  unfold suspendBooking, saveStatus.
  apply wp_bind, wp_query. rewrite Hfind. rewrite decide_False by done.
  apply wp_bind, wp_update, wp_bind, wp_update, wp_reply. split; [done|]. simpl.
  apply status_after_saveStatus; [done|].
  rewrite (Booking_findById_same (db w)) by done. by rewrite Hfind.
Qed.

(** C3 (as stated, refuted). [confirm] on a declined booking succeeds and
    stores 'confirmed': a terminal booking is not frozen for [confirm]. *)
Lemma confirm_revives_declined :
  (Booking.status <$>
     Booking_findById
       (Sample.store [Sample.booking 1 declined true Sample.tuesday "14:00"] []) 1
   = Some declined ∧
   success (run (confirmBooking Sample.noMail Sample.tuesday 1)
              (Sample.world
                 (Sample.store [Sample.booking 1 declined true Sample.tuesday "14:00"] []))).2
   = true ∧
   Booking.status <$>
     Booking_findById
       (db (run (confirmBooking Sample.noMail Sample.tuesday 1)
              (Sample.world
                 (Sample.store [Sample.booking 1 declined true Sample.tuesday "14:00"] []))).1) 1
   = Some confirmed) ∧
  ¬ frozenWhenTerminal (confirmBooking Sample.noMail Sample.tuesday).
Proof.
  split; [by vm_compute|].
  intros H.
  destruct (H (Sample.world (Sample.store [Sample.booking 1 declined true Sample.tuesday "14:00"] []))
              1 (Sample.booking 1 declined true Sample.tuesday "14:00")
              eq_refl (or_introl eq_refl)) as [Hfail _].
  vm_compute in Hfail. discriminate.
Qed.

(** C3 (amended). Of the five transitions only complete-service refuses a
    booking in a terminal state: on a 'declined' or 'completed' booking it
    fails and changes nothing.  [confirm] and [decline], whenever the booking
    and its service exist, and [block-user], whenever the booking exists,
    succeed and store 'confirmed', 'declined' and 'declined', whatever the
    status was; [suspend] succeeds and stores 'cancelled' on a 'declined' or
    'completed' booking.  No transition stores 'pending': a booking that is
    not pending stays so. *)
Theorem transitions_on_terminal_states
    (mail : Mailer) (now : Z) (sessionID : string) (w : World) :
  (∀ bookingId booking,
     Booking_findById (db w) bookingId = Some booking →
     Booking.status booking = declined ∨ Booking.status booking = completed →
     success (run (completeBookingService now (Some bookingId)) w).2 = false ∧
     (run (completeBookingService now (Some bookingId)) w).1 = w) ∧
  (∀ bookingId booking service,
     Booking_findById (db w) bookingId = Some booking →
     Service_findById (db w) (Booking.service booking) = Some service →
     (success (run (confirmBooking mail now bookingId) w).2 = true ∧
      Booking.status <$>
        Booking_findById (db (run (confirmBooking mail now bookingId) w).1) bookingId
        = Some confirmed) ∧
     (success (run (declineBooking mail now bookingId) w).2 = true ∧
      Booking.status <$>
        Booking_findById (db (run (declineBooking mail now bookingId) w).1) bookingId
        = Some declined)) ∧
  (∀ bookingId booking reason,
     Booking_findById (db w) bookingId = Some booking →
     success (run (blockUser mail now bookingId reason) w).2 = true ∧
     Booking.status <$>
       Booking_findById (db (run (blockUser mail now bookingId reason) w).1) bookingId
       = Some declined) ∧
  (∀ bookingId booking,
     Booking_findById (db w) bookingId = Some booking →
     Booking.status booking = declined ∨ Booking.status booking = completed →
     success (run (suspendBooking sessionID bookingId) w).2 = true ∧
     Booking.status <$>
       Booking_findById (db (run (suspendBooking sessionID bookingId) w).1) bookingId
       = Some cancelled) ∧
  (∀ req, lifecycle req = true →
     neverBackToPending (db w) (db (run (handle mail now req) w).1)).
Proof.
  split; [|split; [|split; [|split]]].
  - intros bookingId booking Hfind Hterminal.
    rewrite (completeBookingService_refuses now w bookingId booking); [done|done|].
    by destruct Hterminal as [-> | ->].
  - intros bookingId booking service Hfind Hservice. split.
    + by eapply confirmBooking_any_status.
    + by eapply declineBooking_any_status.
  - intros bookingId booking reason Hfind. by eapply blockUser_any_status.
  - intros bookingId booking Hfind Hterminal.
    apply (suspendBooking_unless_confirmed sessionID w bookingId booking Hfind).
    by destruct Hterminal as [-> | ->].
  - intros req Hreq. by apply (preserves_run neverBackToPending), neverBackToPending_lifecycle.
Qed.

(** ** Blocking a date *)

Lemma startOfDay_idem d : JsDate.startOfDay (JsDate.startOfDay d) = JsDate.startOfDay d.
Proof.
  unfold JsDate.startOfDay, JsDate.msPerDay.
  replace (d - d mod (24 * 60 * 60 * 1000)) with ((d / (24 * 60 * 60 * 1000)) * (24 * 60 * 60 * 1000))
    by (pose proof (Z.div_mod d (24 * 60 * 60 * 1000)); lia).
  rewrite Z.mod_mul by lia. lia.
Qed.

Lemma endOfDay_startOfDay d : JsDate.endOfDay (JsDate.startOfDay d) = JsDate.endOfDay d.
Proof. unfold JsDate.endOfDay, JsDate.setHours. by rewrite startOfDay_idem. Qed.

Lemma existingBookings_elem st date b :
  b ∈ existingBookings st (JsDate.startOfDay date) ↔ bookedOn st date b.
Proof.
  unfold existingBookings, bookedOn. rewrite list_elem_of_filter.
  rewrite startOfDay_idem, endOfDay_startOfDay. tauto.
Qed.

Lemma hourHitsBooking_spec st b hour service :
  (∀ s, s ∈ services st → 0 < Service.duration s) →
  Service_findById st (Booking.service b) = Some service →
  hourMeets st b hour → hourHitsBooking service b hour = true.
Proof.
  intros Hpos Hs (service' & bs & hs & Hs' & Hb & Hh & H1 & H2).
  rewrite Hs in Hs'. injection Hs' as <-.
  unfold hourHitsBooking. rewrite Hb, Hh. apply overlaps_half_open; [lia| |done].
  apply Hpos. unfold Service_findById in Hs.
  apply head_Some_elem_of in Hs. by apply list_elem_of_filter in Hs as [_ ?].
Qed.

(** A full-day block meets every booking of the day; the answer lists them. *)
Lemma checkExistingBookings_fullDay st date hours b :
  bookedOn st date b →
  checkExistingBookings st (JsDate.startOfDay date) true hours =
    mkCheck true (conflictOf None st <$> existingBookings st (JsDate.startOfDay date))
      ("Nu se poate bloca întreaga zi. Există " +:+
       Js.toString (Z.of_nat (length (existingBookings st (JsDate.startOfDay date)))) +:+
       " rezervări pentru această dată.").
Proof.
  intros Hb%existingBookings_elem. unfold checkExistingBookings.
  destruct (existingBookings st (JsDate.startOfDay date)); [|done].
  by apply not_elem_of_nil in Hb.
Qed.

(** A block of hours that meets a booking is a conflict that lists it. *)
Lemma checkExistingBookings_hours st date hours b hour :
  (∀ s, s ∈ services st → 0 < Service.duration s) →
  bookedOn st date b → hour ∈ hours → hourMeets st b hour →
  let check := checkExistingBookings st (JsDate.startOfDay date) false hours in
  hasConflict check = true ∧ conflictOf (Some hour) st b ∈ conflictingBookings check.
Proof.
  intros Hpos Hb%existingBookings_elem Hhour Hmeet. cbn zeta.
  unfold checkExistingBookings.
  destruct (existingBookings st (JsDate.startOfDay date)) as [|b0 bs] eqn:Hex;
    [by apply not_elem_of_nil in Hb|].
  rewrite <- Hex in *. clear Hex b0 bs.
  match goal with
  | |- context [match ?l with [] => _ | _ => _ end] =>
      assert (conflictOf (Some hour) st b ∈ l) as Hin; [|destruct l; [by apply not_elem_of_nil in Hin|done]]
  end.
  apply list_elem_of_bind. exists b. split; [|done].
  destruct Hmeet as (service & Hmeet'). destruct Hmeet' as (bs & hs & Hs & Hrest).
  rewrite Hs. apply list_elem_of_bind. exists hour. split; [|done].
  rewrite (hourHitsBooking_spec st b hour service Hpos Hs); [apply list_elem_of_here|].
  by exists service, bs, hs.
Qed.

Lemma blockDateChecks_inl now req refusal :
  blockDateChecks now req = inl refusal → success refusal = false ∧ statusCode refusal = 400.
Proof.
  unfold blockDateChecks. intros H.
  repeat (case_match; simplify_eq; try done).
Qed.

Lemma blockDateChecks_inr now req date selectedDate :
  br_date req = Some date → blockDateChecks now req = inr selectedDate →
  selectedDate = JsDate.startOfDay date.
Proof.
  unfold blockDateChecks. intros -> H.
  repeat (case_match; simplify_eq; try done).
Qed.

(** What a block of hours lists: one entry for each booking of the day and
    each requested hour whose half-hour slot meets it, and nothing else. *)
Lemma checkExistingBookings_listed st date hours entry :
  (∀ s, s ∈ services st → 0 < Service.duration s) →
  existingBookings st (JsDate.startOfDay date) ≠ [] →
  entry ∈ conflictingBookings (checkExistingBookings st (JsDate.startOfDay date) false hours) ↔
  ∃ b hour service,
    bookedOn st date b ∧ hour ∈ hours ∧ hourMeets st b hour ∧
    Service_findById st (Booking.service b) = Some service ∧
    entry = mkConflict (Booking._id b) (Booking.clientName b) (Booking.time b)
              (Service.name service) (Booking.status b) (Some hour).
Proof.
  intros Hpos Hsome. unfold checkExistingBookings.
  destruct (existingBookings st (JsDate.startOfDay date)) as [|b0 bs] eqn:Hex; [done|].
  rewrite <- Hex in *. clear Hex Hsome b0 bs.
  set (conflicting := existingBookings st (JsDate.startOfDay date) ≫= _).
  assert (entry ∈ conflicting ↔
          ∃ b hour service,
            bookedOn st date b ∧ hour ∈ hours ∧ hourMeets st b hour ∧
            Service_findById st (Booking.service b) = Some service ∧
            entry = mkConflict (Booking._id b) (Booking.clientName b) (Booking.time b)
                      (Service.name service) (Booking.status b) (Some hour)) as Hlisted.
  { subst conflicting. rewrite list_elem_of_bind. split.
    - intros (b & Hentry & Hb%existingBookings_elem).
      destruct (Service_findById st (Booking.service b)) as [service|] eqn:Hs;
        [|by apply elem_of_nil in Hentry].
      apply list_elem_of_bind in Hentry as (hour & Hentry & Hhour).
      destruct (hourHitsBooking service b hour) eqn:Hhit; [|by apply elem_of_nil in Hentry].
      apply list_elem_of_singleton in Hentry.
      exists b, hour, service. split; [done|]. split; [done|]. split.
      + unfold hourHitsBooking in Hhit.
        destruct (TimeString.minutes (Booking.time b)) as [bookingStart|] eqn:Hbs; [|done].
        destruct (TimeString.minutes hour) as [blockStart|] eqn:Hhs; [|done].
        exists service, bookingStart, blockStart. split; [done|]. split; [done|].
        split; [done|].
        assert (0 < Service.duration service) as Hd.
        { apply Hpos. unfold Service_findById in Hs.
          apply head_Some_elem_of in Hs. by apply list_elem_of_filter in Hs as [_ ?]. }
        apply overlaps_half_open in Hhit; [done|lia|done].
      + split; [done|]. rewrite Hentry. unfold conflictOf. by rewrite Hs.
    - intros (b & hour & service & Hb & Hhour & Hmeet & Hs & ->).
      exists b. split; [|by apply existingBookings_elem].
      rewrite Hs. apply list_elem_of_bind. exists hour. split; [|done].
      rewrite (hourHitsBooking_spec st b hour service Hpos Hs Hmeet).
      apply list_elem_of_singleton. unfold conflictOf. by rewrite Hs. }
  destruct conflicting; [|done]. simpl. rewrite <- Hlisted. split; intros H; exact H.
Qed.

(** C9. A request to block a day on which a pending or confirmed booking
    stands (full-day block), or hours one of which meets such a booking, is
    refused: no blocked date is created or updated, and when the request is
    otherwise well formed the answer is the 409 that lists the conflicting
    bookings, each with its id, client name, time, service and status: for a
    full-day block every pending or confirmed booking of the day, once and
    in stored order; for a block of hours one entry, with the hour, for each
    such booking and each requested hour whose half-hour slot meets it, and
    no other entry. *)
Theorem block_refused_on_conflict
    (now : Z) (userId : ObjectId) (req : BlockRequest) (date : Z) (w : World) :
  br_date req = Some date →
  (∀ s, s ∈ services (db w) → 0 < Service.duration s) →
  (if br_isFullDay req then ∃ b, bookedOn (db w) date b
   else ∃ b hour, bookedOn (db w) date b ∧ hour ∈ default [] (br_hours req) ∧
                  hourMeets (db w) b hour) →
  let w' := (run (blockDate now userId req) w).1 in
  let r := (run (blockDate now userId req) w).2 in
  w' = w ∧ success r = false ∧
  (statusCode r = 409 ∨ statusCode r = 400) ∧
  (∀ selectedDate, blockDateChecks now req = inr selectedDate →
     statusCode r = 409 ∧
     ∃ listed, body r = Conflicts listed ∧
       if br_isFullDay req
       then listed =
            (λ b, mkConflict (Booking._id b) (Booking.clientName b) (Booking.time b)
                    (match Service_findById (db w) (Booking.service b) with
                     | Some service => Service.name service
                     | None => "Unknown Service"
                     end)
                    (Booking.status b) None) <$>
            filter (λ b, (JsDate.startOfDay date ≤ Booking.date b ∧
                          Booking.date b ≤ JsDate.endOfDay date) ∧
                         (Booking.status b = confirmed ∨ Booking.status b = pending))
                   (bookings (db w))
       else ∀ entry,
              entry ∈ listed ↔
              ∃ b hour service,
                bookedOn (db w) date b ∧ hour ∈ default [] (br_hours req) ∧
                hourMeets (db w) b hour ∧
                Service_findById (db w) (Booking.service b) = Some service ∧
                entry = mkConflict (Booking._id b) (Booking.clientName b) (Booking.time b)
                          (Service.name service) (Booking.status b) (Some hour)).
Proof.
  intros Hdate Hpos Hconflict. cbn zeta.
  apply (wp_run _ (λ w' r,
    w' = w ∧ success r = false ∧ (statusCode r = 409 ∨ statusCode r = 400) ∧
    (∀ selectedDate, blockDateChecks now req = inr selectedDate →
       statusCode r = 409 ∧
       ∃ listed, body r = Conflicts listed ∧
         if br_isFullDay req
         then listed =
              (λ b, mkConflict (Booking._id b) (Booking.clientName b) (Booking.time b)
                      (match Service_findById (db w) (Booking.service b) with
                       | Some service => Service.name service
                       | None => "Unknown Service"
                       end)
                      (Booking.status b) None) <$>
              filter (λ b, (JsDate.startOfDay date ≤ Booking.date b ∧
                            Booking.date b ≤ JsDate.endOfDay date) ∧
                           (Booking.status b = confirmed ∨ Booking.status b = pending))
                     (bookings (db w))
         else ∀ entry,
                entry ∈ listed ↔
                ∃ b hour service,
                  bookedOn (db w) date b ∧ hour ∈ default [] (br_hours req) ∧
                  hourMeets (db w) b hour ∧
                  Service_findById (db w) (Booking.service b) = Some service ∧
                  entry = mkConflict (Booking._id b) (Booking.clientName b) (Booking.time b)
                            (Service.name service) (Booking.status b) (Some hour)))).
  unfold blockDate. destruct (blockDateChecks now req) as [refusal|selectedDate] eqn:Hchecks.
  - apply wp_reply. destruct (blockDateChecks_inl _ _ _ Hchecks) as [Hs Hc].
    split; [done|]. split; [done|]. split; [by right|]. intros sd [=].
  - apply (blockDateChecks_inr _ _ _ _ Hdate) in Hchecks as ->.
    apply wp_bind, wp_query.
    destruct (br_isFullDay req) eqn:Hfull.
    + destruct Hconflict as [b Hb].
      rewrite (checkExistingBookings_fullDay (db w) date _ b Hb). simpl.
      apply wp_reply.
      split; [done|]. split; [done|]. split; [by left|]. intros sd _.
      split; [done|]. eexists. split; [reflexivity|].
      unfold existingBookings. by rewrite startOfDay_idem, endOfDay_startOfDay.
    + destruct Hconflict as (b & hour & Hb & Hhour & Hmeet).
      destruct (checkExistingBookings_hours (db w) date (default [] (br_hours req)) b hour
                  Hpos Hb Hhour Hmeet) as [Hhas Hin].
      rewrite Hhas. apply wp_reply.
      split; [done|]. split; [done|]. split; [by left|]. intros sd _.
      split; [done|]. eexists. split; [reflexivity|]. intros entry.
      apply checkExistingBookings_listed; [done|].
      apply existingBookings_elem in Hb. intros Hnil. rewrite Hnil in Hb.
      by apply elem_of_nil in Hb.
Qed.

(** ** The expired-pending pass: the bookings *)

Lemma Forall2_elem_of_l {A B} (R : A → B → Prop) (l : list A) (k : list B) (x : A) :
  Forall2 R l k → x ∈ l → ∃ y, y ∈ k ∧ R x y.
Proof.
  intros HF (i & Hi)%list_elem_of_lookup_1.
  destruct (Forall2_lookup_l _ _ _ _ _ HF Hi) as (y & Hy & HR).
  exists y. split; [by eapply list_elem_of_lookup_2|done].
Qed.

Lemma Forall2_elem_of_r {A B} (R : A → B → Prop) (l : list A) (k : list B) (y : B) :
  Forall2 R l k → y ∈ k → ∃ x, x ∈ l ∧ R x y.
Proof.
  intros HF (i & Hi)%list_elem_of_lookup_1.
  destruct (Forall2_lookup_r _ _ _ _ _ HF Hi) as (x & Hx & HR).
  exists x. split; [by eapply list_elem_of_lookup_2|done].
Qed.

Lemma bookings_sendMail mail kind now to id st :
  bookings (sendMail mail kind now to (Some id) st).2 = bookings st ∨
  bookings (sendMail mail kind now to (Some id) st).2 =
    bookings (Booking_update id (Booking.count_email now) st).
Proof.
  unfold sendMail. case_decide; [by left|]. destruct (mail kind to (Some id)); simpl; auto.
  right. unfold incrementDailyEmailCounter.
  destruct (Client_findByEmail st to); [|done].
  by rewrite bookings_Client_incrementEmailCounter.
Qed.

Lemma bookings_sendAutoDeclineEmail mail now x st ds :
  bookings (sendAutoDeclineEmail mail now x st ds).1.2 = bookings st ∨
  bookings (sendAutoDeclineEmail mail now x st ds).1.2 =
    bookings (Booking_update (Booking._id x) (Booking.count_email now) st).
Proof.
  unfold sendAutoDeclineEmail. destruct (Service_findById _ _); [|by left].
  unfold sendBookingRejectionEmail.
  pose proof (bookings_sendMail mail Rejection now (Booking.email x) (Booking._id x) st) as H.
  destruct (sendMail _ _ _ _ _ _) as [[] st1]; simpl in *; [|done].
  destruct (clientDoc ds x) as [doc|]; [|done].
  pose proof (bookings_Client_incrementEmailCounter now doc st1) as H2.
  destruct (Client_incrementEmailCounter now doc st1); simpl in *. by rewrite H2.
Qed.

Lemma bookings_releaseClientBooking now x st ds :
  bookings (releaseClientBooking now x st ds).1 = bookings st.
Proof. unfold releaseClientBooking. by destruct (clientDoc ds x). Qed.

(** One turn of the loop declines the booking it is given and touches no
    other. *)
Lemma autoExpire_bookings mail now acc x :
  Forall2 (declinedIf (autoDeclineNote now) (λ id, id = Booking._id x))
    (bookings (store acc)) (bookings (store (autoExpire mail now acc x))).
Proof.
  unfold autoExpire.
  pose proof (bookings_sendAutoDeclineEmail mail now x (store acc) (docs acc)) as H1.
  destruct (sendAutoDeclineEmail _ _ _ _ _) as [[sent st1] ds1]; simpl in *.
  pose proof (bookings_releaseClientBooking now x st1 ds1) as H2.
  destruct (releaseClientBooking _ _ _ _) as [st2 ds2]; simpl in *.
  rewrite H2. destruct H1 as [-> | ->]; simpl.
  - apply Forall2_fmap_r, Forall_Forall2_diag, Forall_forall. intros b _. simpl.
    unfold declinedIf. case_decide; simpl; naive_solver.
  - rewrite <- list_fmap_compose.
    apply Forall2_fmap_r, Forall_Forall2_diag, Forall_forall. intros b _. simpl.
    unfold declinedIf.
    destruct (decide (Booking._id b = Booking._id x)) as [Heq|Hne]; simpl;
      rewrite ?count_email_id; case_decide; simpl; rewrite ?count_email_id; naive_solver.
Qed.

(** The whole loop declines the bookings of its list and touches no other. *)
Lemma foldl_autoExpire_bookings mail now l acc :
  Forall2 (declinedIf (autoDeclineNote now) (λ id, id ∈ Booking._id <$> l))
    (bookings (store acc)) (bookings (store (foldl (autoExpire mail now) acc l))).
Proof.
  revert acc. induction l as [|x l IH]; intros acc; simpl.
  - apply Forall_Forall2_diag, Forall_forall. intros b _. unfold declinedIf.
    split; [done|]. split; [|done]. by intros ?%elem_of_nil.
  - eapply Forall2_trans; [|apply autoExpire_bookings|apply IH].
    intros b b1 b2 (Hid1 & Hhit1 & Hmiss1) (Hid2 & Hhit2 & Hmiss2).
    split; [congruence|]. rewrite Hid1 in Hhit2, Hmiss2. split.
    + intros [Heq|Hin]%elem_of_cons.
      * destruct (decide (Booking._id b ∈ Booking._id <$> l)) as [Hin|Hout]; [by apply Hhit2|].
        rewrite (Hmiss2 Hout). by apply Hhit1.
      * by apply Hhit2.
    + intros Hout. rewrite not_elem_of_cons in Hout. destruct Hout as [Hne Hout].
      rewrite (Hmiss2 Hout). by apply Hmiss1.
Qed.

Lemma expiredBookings_elem now st b :
  b ∈ expiredBookings now st ↔
  b ∈ bookings st ∧ Booking.status b = pending ∧ Booking.verified b = true ∧
  isExpired now b = true.
Proof.
  unfold expiredBookings, pendingVerifiedBookings.
  rewrite list_elem_of_In, filter_In, <- list_elem_of_In, list_elem_of_filter. tauto.
Qed.

(** What the pass does to the bookings: those of [expiredBookings] are
    declined with the note, the others are as they were. *)
Lemma cleanupExpiredBookings_bookings mail now st :
  Forall2 (declinedIf (autoDeclineNote now) (λ id, id ∈ Booking._id <$> expiredBookings now st))
    (bookings st) (bookings (cleanupExpiredBookings mail now st).1).
Proof.
  assert (expiredBookings now st = [] →
          Forall2 (declinedIf (autoDeclineNote now)
                     (λ id, id ∈ Booking._id <$> expiredBookings now st))
            (bookings st) (bookings st)) as Hnone.
  { intros ->. apply Forall_Forall2_diag, Forall_forall. intros b _.
    split; [done|]. split; [|done]. by intros ?%elem_of_nil. }
  unfold cleanupExpiredBookings.
  destruct (pendingVerifiedBookings st) as [|p ps] eqn:Hp.
  { apply Hnone. unfold expiredBookings. by rewrite Hp. }
  destruct (expiredBookings now st) as [|e es] eqn:He; [by apply Hnone|].
  simpl fst. apply (foldl_autoExpire_bookings mail now (e :: es) (mkSweep st _ _)).
Qed.

(** After the pass no booking is pending, verified and past. *)
Lemma cleanupExpiredBookings_none_left mail now st b' :
  b' ∈ bookings (cleanupExpiredBookings mail now st).1 →
  Booking.status b' = pending → Booking.verified b' = true → isExpired now b' = false.
Proof.
  intros Hin Hst Hv.
  destruct (Forall2_elem_of_r _ _ _ _ (cleanupExpiredBookings_bookings mail now st) Hin)
    as (b & Hb & Hid & Hhit & Hmiss).
  destruct (decide (Booking._id b ∈ Booking._id <$> expiredBookings now st)) as [Hd|Hd].
  - destruct (Hhit Hd) as [Hdec _]. congruence.
  - rewrite (Hmiss Hd) in *. apply not_true_is_false. intros Hexp. apply Hd.
    apply list_elem_of_fmap_2. apply expiredBookings_elem. done.
Qed.


(** ** The expired-pending pass: the clients *)

Lemma totalOf_same st st' id : clients st' = clients st → totalOf st' id = totalOf st id.
Proof. unfold totalOf, Client_findById. by intros ->. Qed.

Lemma totalOf_update_keep st id f id' :
  (∀ c, Client._id (f c) = Client._id c ∧ Client.totalBookings (f c) = Client.totalBookings c) →
  totalOf (Client_update id f st) id' = totalOf st id'.
Proof.
  intros Hf. unfold totalOf. rewrite Client_findById_update by apply Hf.
  destruct (Client_findById st id') as [c|]; [|done]. simpl.
  case_decide; [|done]. f_equal. apply Hf.
Qed.

Lemma totalOf_update_set st id now total id' :
  totalOf (Client_update id (λ c, Client.touch now (Client.set_totalBookings total c)) st) id' =
  if decide (id' = id) then (λ _, total) <$> totalOf st id' else totalOf st id'.
Proof.
  unfold totalOf. rewrite Client_findById_update by done.
  destruct (Client_findById st id') as [c|] eqn:Hc; [|by case_decide].
  destruct (Client_findById_elem _ _ _ Hc) as [_ <-]. simpl.
  by repeat case_decide.
Qed.

Lemma totalOf_Client_incrementEmailCounter now doc st id :
  totalOf (Client_incrementEmailCounter now doc st).2 id = totalOf st id.
Proof.
  unfold Client_incrementEmailCounter. case_decide; [done|]. simpl.
  by apply totalOf_update_keep.
Qed.

Lemma totalOf_sendMail mail kind now to bid st id :
  totalOf (sendMail mail kind now to bid st).2 id = totalOf st id.
Proof.
  unfold sendMail. case_decide; [done|]. destruct (mail kind to bid); simpl; try done.
  assert (totalOf (incrementDailyEmailCounter now to st) id = totalOf st id) as H1.
  { unfold incrementDailyEmailCounter. destruct (Client_findByEmail st to); [|done].
    apply totalOf_Client_incrementEmailCounter. }
  destruct bid; [|done]. by rewrite <- H1.
Qed.

Lemma docsAgree_totals st st' ds :
  (∀ id, totalOf st' id = totalOf st id) → docsAgree st ds → docsAgree st' ds.
Proof. intros H Hagree id d Hd. rewrite H. by apply Hagree. Qed.

(** Replacing the document of a client by one with the same id and total
    keeps the agreement. *)
Lemma docsAgree_insert_keep st ds doc doc1 :
  docsAgree st ds → ds !! Client._id doc = Some doc →
  Client._id doc1 = Client._id doc → Client.totalBookings doc1 = Client.totalBookings doc →
  docsAgree st (<[Client._id doc := doc1]> ds).
Proof.
  intros Hagree Hdoc Hid Htot id d. rewrite lookup_insert. case_decide as Hk.
  - intros [= <-]. subst id. rewrite Htot. split; [done|]. by apply Hagree.
  - by apply Hagree.
Qed.

Lemma clientDoc_lookup st ds x doc :
  docsAgree st ds → clientDoc ds x = Some doc →
  Booking.client x = Some (Client._id doc) ∧ ds !! Client._id doc = Some doc.
Proof.
  intros Hagree. unfold clientDoc. destruct (Booking.client x) as [cid|]; [|done]. simpl.
  intros Hd. destruct (Hagree _ _ Hd) as [<- _]. done.
Qed.

Lemma clientDoc_None ds x id d :
  clientDoc ds x = None → ds !! id = Some d → Booking.client x ≠ Some id.
Proof. unfold clientDoc. intros H Hd Heq. rewrite Heq in H. simpl in H. congruence. Qed.

(** The mail of one turn leaves the totals alone, in the store and in the
    documents. *)
Lemma sendAutoDeclineEmail_totals mail now x st ds :
  docsAgree st ds →
  let '(_, st1, ds1) := sendAutoDeclineEmail mail now x st ds in
  docsAgree st1 ds1 ∧
  ∀ id d, ds !! id = Some d →
    ∃ d1, ds1 !! id = Some d1 ∧ Client.totalBookings d1 = Client.totalBookings d.
Proof.
  intros Hagree. unfold sendAutoDeclineEmail.
  destruct (Service_findById _ _); [|by eauto].
  unfold sendBookingRejectionEmail.
  pose proof (totalOf_sendMail mail Rejection now (Booking.email x)
                (Some (Booking._id x)) st) as Hmail.
  destruct (sendMail _ _ _ _ _ _) as [[] st1]; simpl in Hmail.
  - destruct (clientDoc ds x) as [doc|] eqn:Hdoc.
    + destruct (clientDoc_lookup _ _ _ _ Hagree Hdoc) as [_ Hlook].
      pose proof (totalOf_Client_incrementEmailCounter now doc st1) as Hinc.
      assert (Client._id (Client_incrementEmailCounter now doc st1).1 = Client._id doc ∧
              Client.totalBookings (Client_incrementEmailCounter now doc st1).1 =
                Client.totalBookings doc) as [Hid Htot].
      { unfold Client_incrementEmailCounter. by case_decide. }
      destruct (Client_incrementEmailCounter now doc st1) as [doc1 st2]. simpl in *.
      split.
      * apply docsAgree_insert_keep; try done.
        apply (docsAgree_totals st); [|done]. intros id. by rewrite Hinc, Hmail.
      * intros id d Hd. rewrite lookup_insert. case_decide as Hk; [|by eauto].
        subst id. exists doc1. split; [done|]. congruence.
    + split; [by apply (docsAgree_totals st)|by eauto].
  - split; [by apply (docsAgree_totals st)|by eauto].
Qed.

(** Releasing the booking of a client takes one off its total, in the store
    and in its document. *)
Lemma releaseClientBooking_totals now x st ds :
  docsAgree st ds →
  let '(st1, ds1) := releaseClientBooking now x st ds in
  docsAgree st1 ds1 ∧
  ∀ id d, ds !! id = Some d →
    ∃ d1, ds1 !! id = Some d1 ∧
      Client.totalBookings d1 =
        if decide (Booking.client x = Some id) then dropOne (Client.totalBookings d)
        else Client.totalBookings d.
Proof.
  intros Hagree. unfold releaseClientBooking.
  destruct (clientDoc ds x) as [doc|] eqn:Hdoc.
  - destruct (clientDoc_lookup _ _ _ _ Hagree Hdoc) as [Hx Hlook]. split.
    + intros id d. rewrite lookup_insert. rewrite totalOf_update_set.
      case_decide as Hk.
      * intros [= <-]. subst id. rewrite decide_True by done. split; [done|].
        destruct (Hagree _ _ Hlook) as [_ ->]. done.
      * intros Hd. rewrite decide_False by done. by apply Hagree.
    + intros id d Hd. rewrite lookup_insert. case_decide as Hk.
      * subst id. rewrite Hlook in Hd. injection Hd as <-.
        eexists. split; [done|]. by rewrite decide_True.
      * exists d. split; [done|]. rewrite decide_False; [done|]. congruence.
  - split; [done|]. intros id d Hd. exists d. split; [done|].
    rewrite decide_False; [done|]. by eapply clientDoc_None.
Qed.

Lemma autoExpire_totals mail now acc x :
  docsAgree (store acc) (docs acc) →
  docsAgree (store (autoExpire mail now acc x)) (docs (autoExpire mail now acc x)) ∧
  ∀ id d, docs acc !! id = Some d →
    ∃ d1, docs (autoExpire mail now acc x) !! id = Some d1 ∧
      Client.totalBookings d1 =
        if decide (Booking.client x = Some id) then dropOne (Client.totalBookings d)
        else Client.totalBookings d.
Proof.
  intros Hagree. unfold autoExpire.
  pose proof (sendAutoDeclineEmail_totals mail now x _ _ Hagree) as H1.
  destruct (sendAutoDeclineEmail _ _ _ _ _) as [[sent st1] ds1].
  destruct H1 as [Hagree1 Hkeep].
  pose proof (releaseClientBooking_totals now x _ _ Hagree1) as H2.
  destruct (releaseClientBooking _ _ _ _) as [st2 ds2].
  destruct H2 as [Hagree2 Hdrop]. simpl. split.
  - by apply (docsAgree_totals st2).
  - intros id d Hd. destruct (Hkeep _ _ Hd) as (d1 & Hd1 & Ht1).
    destruct (Hdrop _ _ Hd1) as (d2 & Hd2 & Ht2). exists d2. split; [done|].
    by rewrite Ht2, Ht1.
Qed.

Lemma foldl_autoExpire_totals mail now l acc :
  docsAgree (store acc) (docs acc) →
  docsAgree (store (foldl (autoExpire mail now) acc l))
            (docs (foldl (autoExpire mail now) acc l)) ∧
  ∀ id d, docs acc !! id = Some d →
    ∃ d1, docs (foldl (autoExpire mail now) acc l) !! id = Some d1 ∧
      Client.totalBookings d1 = Nat.iter (refersTo id l) dropOne (Client.totalBookings d).
Proof.
  revert acc. induction l as [|x l IH]; intros acc Hagree; simpl.
  - split; [done|]. intros id d Hd. by exists d.
  - destruct (autoExpire_totals mail now acc x Hagree) as [Hagree1 Hstep].
    destruct (IH _ Hagree1) as [Hagree2 Hrest]. split; [done|].
    intros id d Hd. destruct (Hstep _ _ Hd) as (d1 & Hd1 & Ht1).
    destruct (Hrest _ _ Hd1) as (d2 & Hd2 & Ht2). exists d2. split; [done|].
    rewrite Ht2, Ht1. unfold refersTo. rewrite filter_cons.
    case_decide; [|done]. simpl. by rewrite <- Nat.iter_succ_r.
Qed.

Lemma iter_dropOne k t : (1 ≤ k)%nat → Nat.iter k dropOne t = Z.max 0 (t - Z.of_nat k).
Proof.
  intros Hk. destruct k as [|k]; [lia|]. clear Hk.
  induction k as [|k IH]; [done|].
  rewrite Nat.iter_succ, IH. unfold dropOne. lia.
Qed.

Lemma populateClients_lookup st l id d :
  populateClients st l !! id = Some d → Client_findById st id = Some d.
Proof.
  induction l as [|b l IH]; simpl; [by rewrite lookup_empty|].
  destruct (populateClient st b) as [c|] eqn:Hc; [|done].
  rewrite lookup_insert. case_decide as Hk; [|done]. intros [= <-]. subst id.
  unfold populateClient in Hc. destruct (Booking.client b) as [cid|]; [|done]. simpl in Hc.
  by destruct (Client_findById_elem _ _ _ Hc) as [_ ->].
Qed.

Lemma populateClients_elem st l b c :
  b ∈ l → populateClient st b = Some c → populateClients st l !! Client._id c = Some c.
Proof.
  intros Hb Hc.
  assert (Client_findById st (Client._id c) = Some c) as Hfind.
  { unfold populateClient in Hc. destruct (Booking.client b) as [cid|]; [|done]. simpl in Hc.
    by destruct (Client_findById_elem _ _ _ Hc) as [_ ->]. }
  induction l as [|b0 l IH]; [by apply elem_of_nil in Hb|].
  simpl. apply elem_of_cons in Hb as [<-|Hb].
  - rewrite Hc. by rewrite lookup_insert_eq.
  - destruct (populateClient st b0) as [c0|] eqn:Hc0; [|by apply IH].
    rewrite lookup_insert. case_decide as Hk; [|by apply IH].
    f_equal. unfold populateClient in Hc0.
    destruct (Booking.client b0) as [cid|]; [|done]. simpl in Hc0.
    destruct (Client_findById_elem _ _ _ Hc0) as [_ Hcid]. congruence.
Qed.

Lemma docsAgree_populateClients st l : docsAgree st (populateClients st l).
Proof.
  intros id d Hd%populateClients_lookup. unfold totalOf. rewrite Hd.
  by destruct (Client_findById_elem _ _ _ Hd) as [_ ->].
Qed.

(** With an expired booking to process, the pass is its second loop. *)
Lemma cleanupExpiredBookings_run mail now st b :
  b ∈ expiredBookings now st →
  (cleanupExpiredBookings mail now st).1 =
  store (foldl (autoExpire mail now)
           (mkSweep st (populateClients st (pendingVerifiedBookings st)) (mkCounts 0 0 0))
           (expiredBookings now st)).
Proof.
  intros Hb. unfold cleanupExpiredBookings.
  assert (b ∈ pendingVerifiedBookings st) as Hbp.
  { apply expiredBookings_elem in Hb. apply list_elem_of_filter. tauto. }
  destruct (pendingVerifiedBookings st) as [|p ps] eqn:Hp; [by apply elem_of_nil in Hbp|].
  by destruct (expiredBookings now st) as [|e es] eqn:He; [apply elem_of_nil in Hb|].
Qed.

(** C10. When the expired-pending pass declines a past pending verified
    booking whose client reference resolves, the booking stays in the store
    (declined) and the client's stored totalBookings is lowered, floored at
    zero, by one for each booking of that client the pass declines: by one
    when this booking is the only one. *)
Theorem sweep_decrements_client_total
    (mail : Mailer) (now : Z) (st : Store) (b : Booking.t) (c : Client.t) :
  b ∈ bookings st →
  Booking.status b = pending → Booking.verified b = true → isExpired now b = true →
  populateClient st b = Some c →
  let st' := (cleanupExpiredBookings mail now st).1 in
  let k := refersTo (Client._id c) (expiredBookings now st) in
  (∃ b', b' ∈ bookings st' ∧ Booking._id b' = Booking._id b ∧ Booking.status b' = declined) ∧
  (1 ≤ k)%nat ∧
  totalOf st' (Client._id c) = Some (Z.max 0 (Client.totalBookings c - Z.of_nat k)) ∧
  (k = 1%nat → totalOf st' (Client._id c) = Some (Z.max 0 (Client.totalBookings c - 1))).
Proof.
  intros Hb Hst Hv Hexp Hc st' k.
  assert (b ∈ expiredBookings now st) as Hbe by by apply expiredBookings_elem.
  assert (Booking.client b = Some (Client._id c)) as Hclient.
  { unfold populateClient in Hc. destruct (Booking.client b) as [cid|]; [|done]. simpl in Hc.
    by destruct (Client_findById_elem _ _ _ Hc) as [_ ->]. }
  assert (1 ≤ k)%nat as Hk.
  { unfold k, refersTo.
    assert (b ∈ filter (λ x, Booking.client x = Some (Client._id c)) (expiredBookings now st))
      as Hin by by apply list_elem_of_filter.
    destruct (filter _ _); [by apply elem_of_nil in Hin|simpl; lia]. }
  assert (totalOf st' (Client._id c) = Some (Z.max 0 (Client.totalBookings c - Z.of_nat k)))
    as Htotal.
  { assert (b ∈ pendingVerifiedBookings st) as Hbp by by apply list_elem_of_filter.
    subst st'. rewrite (cleanupExpiredBookings_run mail now st b Hbe).
    destruct (foldl_autoExpire_totals mail now (expiredBookings now st)
                (mkSweep st (populateClients st (pendingVerifiedBookings st)) (mkCounts 0 0 0))
                (docsAgree_populateClients _ _)) as [Hagree Htot].
    destruct (Htot _ _ (populateClients_elem st _ b c Hbp Hc)) as (d1 & Hd1 & Ht1).
    destruct (Hagree _ _ Hd1) as [_ ->]. rewrite Ht1. f_equal. by apply iter_dropOne. }
  split; [|split; [done|split; [done|]]].
  - destruct (Forall2_elem_of_l _ _ _ _ (cleanupExpiredBookings_bookings mail now st) Hb)
      as (b' & Hb' & Hid & Hhit & _).
    exists b'. split; [done|]. split; [done|]. apply Hhit. by apply list_elem_of_fmap_2.
  - intros Hk1. rewrite Htotal. by rewrite Hk1.
Qed.

(** ** Creating a booking *)

Lemma freshId_gt (ids : list ObjectId) (x : ObjectId) : x ∈ ids → x < freshId ids.
Proof.
  unfold freshId. induction ids as [|y ids IH]; [by intros ?%elem_of_nil|].
  intros [->|Hin]%elem_of_cons; simpl; [lia|]. specialize (IH Hin). lia.
Qed.

Lemma Booking_findById_fresh st :
  Booking_findById st (freshId (Booking._id <$> bookings st)) = None.
Proof.
  unfold Booking_findById. destruct (head _) as [b|] eqn:Hb; [|done].
  apply head_Some_elem_of, list_elem_of_filter in Hb as [Hid Hin].
  apply (list_elem_of_fmap_2 Booking._id) in Hin. apply freshId_gt in Hin. lia.
Qed.

Lemma Booking_findById_insert st b :
  Booking._id b = freshId (Booking._id <$> bookings st) →
  Booking_findById (Booking_insert b st) (Booking._id b) = Some b.
Proof.
  intros Hid. unfold Booking_findById, Booking_insert. simpl. rewrite filter_app.
  pose proof (Booking_findById_fresh st) as Hnone. unfold Booking_findById in Hnone.
  rewrite <- Hid in Hnone. destruct (filter _ (bookings st)); [|done].
  simpl. rewrite filter_cons, decide_True by done. done.
Qed.

Lemma filter_all {A} (P : A → Prop) `{!∀ x, Decision (P x)} (l : list A) :
  (∀ x, x ∈ l → P x) → filter P l = l.
Proof.
  induction l as [|x l IH]; intros Hall; [done|].
  rewrite filter_cons, decide_True by (apply Hall, list_elem_of_here).
  f_equal. apply IH. intros y Hy. apply Hall. by apply list_elem_of_further.
Qed.

Lemma delete_inserted st b :
  Booking._id b = freshId (Booking._id <$> bookings st) →
  filter (λ x, Booking._id x ≠ Booking._id b) (bookings st ++ [b]) = bookings st.
Proof.
  intros Hid. rewrite filter_app, filter_cons, decide_False, filter_nil, app_nil_r by auto.
  apply filter_all. intros x Hx Heq.
  apply (list_elem_of_fmap_2 Booking._id) in Hx. apply freshId_gt in Hx. lia.
Qed.

Lemma sendMail_failed mail kind now to bid st :
  (sendMail mail kind now to bid st).1 = false → (sendMail mail kind now to bid st).2 = st.
Proof. unfold sendMail. case_decide; [done|]. by destruct (mail kind to bid). Qed.

Lemma sendMail_refused mail kind now to bid st error :
  mail kind to bid = MailFailed error → (sendMail mail kind now to bid st).1 = false.
Proof. intros H. unfold sendMail. case_decide; [done|]. by rewrite H. Qed.

Lemma awaitsVerification_same st st' id :
  bookings st' = bookings st → awaitsVerification st id → awaitsVerification st' id.
Proof. intros H. unfold awaitsVerification. by rewrite (Booking_findById_same _ _ _ H). Qed.

Lemma awaitsVerification_sendMail mail kind now to bid st id :
  awaitsVerification st id → awaitsVerification (sendMail mail kind now to (Some bid) st).2 id.
Proof.
  intros (b & Hb & Hst & Hv).
  destruct (bookings_sendMail mail kind now to bid st) as [H|H].
  - apply (awaitsVerification_same st); [done|]. by exists b.
  - unfold awaitsVerification. rewrite (Booking_findById_same _ _ _ H).
    rewrite Booking_findById_update by apply count_email_id. rewrite Hb. simpl.
    eexists. split; [done|].
    case_decide; by rewrite ?count_email_status, ?count_email_verified.
Qed.

Lemma totals_update_set st id now total :
  totals (Client_update id (λ c, Client.touch now (Client.set_totalBookings total c)) st) =
  (λ p, if decide (p.1 = id) then (p.1, total) else p) <$> totals st.
Proof.
  unfold totals, Client_update. simpl. rewrite <- !list_fmap_compose.
  apply list_fmap_ext. intros _ c _. simpl. by case_decide.
Qed.

Lemma totals_update_keep st id f :
  (∀ c, Client._id (f c) = Client._id c ∧ Client.totalBookings (f c) = Client.totalBookings c) →
  totals (Client_update id f st) = totals st.
Proof.
  intros Hf. unfold totals, Client_update. simpl. rewrite <- list_fmap_compose.
  apply list_fmap_ext. intros _ c _. simpl. case_decide; [|done].
  destruct (Hf c) as [-> ->]. done.
Qed.

(** Writing to a client the total its document carries changes no counter. *)
Lemma totals_restore st id doc :
  carriesTotal st doc → id = Client._id doc →
  (λ p : ObjectId * Z, if decide (p.1 = id) then (p.1, Client.totalBookings doc) else p)
    <$> totals st = totals st.
Proof.
  intros Hcarry ->. unfold totals. rewrite <- list_fmap_compose.
  apply list_fmap_ext. intros i c Hc. simpl. case_decide as Hid; [|done].
  apply list_elem_of_lookup_2 in Hc. by rewrite (Hcarry c Hc Hid).
Qed.

Lemma NoDup_ids_eq (l : list Client.t) (c c' : Client.t) :
  NoDup (Client._id <$> l) → c ∈ l → c' ∈ l → Client._id c = Client._id c' → c = c'.
Proof.
  intros Hnd (i & Hi)%list_elem_of_lookup_1 (j & Hj)%list_elem_of_lookup_1 Heq.
  assert (i = j) as ->; [|congruence].
  eapply (NoDup_lookup _ _ _ _ Hnd); rewrite list_lookup_fmap.
  - by rewrite Hi.
  - rewrite Hj. simpl. by rewrite Heq.
Qed.

Lemma Client_findByEmail_elem st email c :
  Client_findByEmail st email = Some c → c ∈ clients st.
Proof.
  unfold Client_findByEmail. repeat case_decide; try done.
  intros Hc%head_Some_elem_of%list_elem_of_filter. tauto.
Qed.

(** The find-or-create step: a 403 that changes nothing, or a client document
    that carries its stored total, with the bookings and locks untouched and
    the counters as before but for a client just created. *)
Lemma wp_findOrCreateClient now clientName phone email cc
    (Q : World → Response + Client.t → Prop) w :
  NoDup (Client._id <$> clients (db w)) →
  (∀ resp, success resp = false → Q w (inl resp)) →
  (∀ st1 client,
     bookings st1 = bookings (db w) → totalsRestored (db w) st1 → carriesTotal st1 client →
     (∀ c, Client_findByEmail (db w) email = Some c →
           Client.totalBookings client = Client.totalBookings c) →
     (Client_findByEmail (db w) email = None → Client.totalBookings client = 0) →
     Q (withDb st1 w) (inr client)) →
  wp (findOrCreateClient now clientName phone email cc) Q w.
Proof.
  intros Hnd Hfail Hok. unfold findOrCreateClient.
  apply wp_bind, wp_query.
  destruct (Client_findByEmail (db w) email) as [client|] eqn:Hfind.
  - apply Client_findByEmail_elem in Hfind.
    assert (carriesTotal (db w) client) as Hcarry.
    { intros c Hc Hid. by rewrite (NoDup_ids_eq _ c client Hnd Hc Hfind Hid). }
    destruct (Client.isBlocked client); [by apply wp_reply, Hfail|].
    destruct (bool_decide (Client.name client ≠ _ ∨ _)).
    + destruct (negb (validClientPaths _ _)); [by apply wp_reply, Hfail|].
      apply wp_bind, wp_update, wp_ret. apply Hok; [done| | |by intros c [= <-]|done].
      * left. by apply totals_update_keep.
      * intros c Hc Hid. simpl in Hc. apply list_elem_of_fmap in Hc as (c0 & -> & Hc0).
        simpl in *. case_decide; simpl in *; by apply Hcarry.
    + apply wp_ret. replace w with (withDb (db w) w) at 1 by by destruct w.
      apply Hok; [done|by left|done|by intros c [= <-]|done].
  - apply wp_bind, wp_query.
    destruct (negb (validClientPaths _ _)); [by apply wp_reply, Hfail|].
    apply wp_bind, wp_update, wp_ret. apply Hok; [done| | |done|done].
    + right. eexists. unfold totals, Client_insert. simpl. by rewrite fmap_app.
    + intros c Hc Hid. simpl in Hc. apply elem_of_app in Hc as [Hc|Hc%list_elem_of_singleton].
      * apply (list_elem_of_fmap_2 Client._id) in Hc. apply freshId_gt in Hc.
        simpl in Hid. lia.
      * by subst c.
Qed.

Lemma wp_bookingDataOf now req (Q : World → Response + (option Z * option Z * option string) → Prop) w :
  (∀ resp, success resp = false → Q w (inl resp)) →
  (∀ data, Q w (inr data)) →
  wp (bookingDataOf now req) Q w.
Proof.
  intros Hfail Hok. unfold wp, bookingDataOf.
  repeat case_match; simpl; auto.
Qed.

Lemma wp_checkRateLimit now key maxAttempts window (Q : World → Response + bool → Prop) w :
  (∀ ok rl, Q (mkWorld (db w) (serviceCache w) rl (session w)) (inr ok)) →
  wp (checkRateLimit now key maxAttempts window) Q w.
Proof.
  intros H. unfold wp, checkRateLimit. destruct (rateLimit_check _ _ _ _ _). apply H.
Qed.

(** Away from the bound of the counter, creating a booking is all or
    nothing.  When the client on file for the email, if there is one, has
    its totalBookings below the schema's bound of 1000 (client ids being
    unique): whenever [completeBooking] fails, the bookings are as they were
    and every client's totalBookings is as before (a client created by the
    request stands at zero); it fails whenever the verification mail cannot
    be sent; and when it succeeds the new booking is stored pending and not
    verified. *)
Lemma booking_creation_below_the_bound
    (mail : Mailer) (now : Z) (sessionID : string) (verificationCode : string)
    (req : ClientInfo) (w : World) :
  NoDup (Client._id <$> clients (db w)) →
  (∀ c, Client_findByEmail (db w) (ci_email req) = Some c →
        0 ≤ Client.totalBookings c < 1000) →
  let w' := (run (completeBooking mail now sessionID verificationCode req) w).1 in
  let r := (run (completeBooking mail now sessionID verificationCode req) w).2 in
  (success r = false →
   bookings (db w') = bookings (db w) ∧ totalsRestored (db w) (db w')) ∧
  ((∀ to id, ∃ error, mail Verification to id = MailFailed error) → success r = false) ∧
  (success r = true →
   ∃ id, body r = BookingId id ∧ Booking_findById (db w) id = None ∧
         awaitsVerification (db w') id).
Proof.
  intros Hnd Hbound. cbn zeta.
  apply (wp_run _ (λ w' r,
    (success r = false →
     bookings (db w') = bookings (db w) ∧ totalsRestored (db w) (db w')) ∧
    ((∀ to id, ∃ error, mail Verification to id = MailFailed error) → success r = false) ∧
    (success r = true →
     ∃ id, body r = BookingId id ∧ Booking_findById (db w) id = None ∧
           awaitsVerification (db w') id))).
  assert (∀ w1 resp, db w1 = db w → success resp = false →
            (success resp = false →
             bookings (db w1) = bookings (db w) ∧ totalsRestored (db w) (db w1)) ∧
            ((∀ to id, ∃ error, mail Verification to id = MailFailed error) → success resp = false) ∧
            (success resp = true →
             ∃ id, body resp = BookingId id ∧ Booking_findById (db w) id = None ∧
                   awaitsVerification (db w1) id)) as Hrefused.
  { intros w1 resp Hdb Hs. rewrite Hdb, Hs. split; [|split]; try done.
    intros _. split; [done|by left]. }
  unfold completeBooking.
  apply wp_bind, wp_bookingDataOf; [intros resp Hs; by apply Hrefused|].
  intros [[bookingServiceId bookingDate] bookingTime].
  destruct bookingServiceId as [bookingServiceId|]; [|by apply wp_reply, Hrefused].
  destruct bookingDate as [bookingDate|]; [|by apply wp_reply, Hrefused].
  destruct bookingTime as [bookingTime|]; [|by apply wp_reply, Hrefused].
  case_decide; [by apply wp_reply, Hrefused|].
  case_decide; [by apply wp_reply, Hrefused|].
  case_decide; [by apply wp_reply, Hrefused|].
  apply wp_bind, wp_lookupService. intros cache [service|]; [|by apply wp_reply, Hrefused].
  apply wp_bind, wp_checkRateLimit. intros ok rl.
  destruct (negb ok); [by apply wp_reply, Hrefused|].
  apply wp_bind, wp_findOrCreateClient; [exact Hnd|intros resp Hs; by apply Hrefused|].
  intros st1 client Hbookings Htotals Hcarry Hfound Hnew.
  assert (validCount (Client.totalBookings client + 1) = true) as Hvalid.
  { apply bool_decide_eq_true. cbn [db] in Hfound, Hnew.
    destruct (Client_findByEmail (db w) (ci_email req)) as [c|].
    - rewrite (Hfound c eq_refl). specialize (Hbound c eq_refl). lia.
    - rewrite Hnew by done. lia. }
  destruct (usageExhausted _).
  { apply wp_reply. split; [|split]; try done. }
  apply wp_bind, wp_query. cbn [db withDb].
  set (id := freshId (Booking._id <$> bookings st1)).
  set (booking := newBooking id now (Client._id client) _ _ _ _ _ _ _ _).
  assert (Booking._id booking = freshId (Booking._id <$> bookings st1)) as Hid by done.
  apply wp_bind.
  destruct (validBookingPaths _ _ _).
  2: { apply wp_reply. split; [|split]; try done. }
  apply wp_update, wp_bind, wp_update, wp_bind. rewrite Hvalid.
  apply wp_effect, wp_bind, wp_effect.
  cbn [db withDb fst snd Client_saveTotal].
  set (st2 := Client_update _ _ (TimeLock_deleteOne _ _ _ _ (Booking_insert booking st1))).
  unfold sendVerificationEmail.
  destruct (sendMail mail Verification now (ci_email req) (Some (Booking._id booking)) st2).1
    eqn:Hsent; cbn [negb].
  - (* the mail went out *)
    apply wp_bind, wp_effect, wp_bind, wp_setSession, wp_reply.
    split; [done|]. split.
    + intros Hfail. destruct (Hfail (ci_email req) (Some (Booking._id booking))) as [e He].
      by rewrite (sendMail_refused _ _ _ _ _ _ _ He) in Hsent.
    + intros _. exists (Booking._id booking). split; [done|]. split.
      * rewrite <- (Booking_findById_same _ _ _ Hbookings), Hid.
        apply Booking_findById_fresh.
      * cbn [db withDb].
        apply (awaitsVerification_same _ _ _ (bookings_Client_incrementEmailCounter _ _ _)).
        apply awaitsVerification_sendMail.
        apply (awaitsVerification_same (Booking_insert booking st1)); [done|].
        exists booking. split; [by apply Booking_findById_insert|done].
  - (* the mail failed: the booking goes, the counter comes back *)
    apply wp_bind, wp_update, wp_bind, wp_effect, wp_reply.
    rewrite (sendMail_failed _ _ _ _ _ _ Hsent).
    split; [|done]. intros _. cbn [db withDb fst snd Client_saveTotal]. split.
    + change (filter (λ x, Booking._id x ≠ Booking._id booking) (bookings st1 ++ [booking])
              = bookings (db w)).
      by rewrite (delete_inserted st1 booking Hid).
    + match goal with
      | |- totalsRestored _ ?final => assert (totals final = totals st1) as Hback
      end.
      { rewrite totals_update_set.
        change (totals (Booking_findByIdAndDelete (Booking._id booking) st2))
          with (totals st2).
        subst st2. rewrite totals_update_set.
        change (totals (TimeLock_deleteOne bookingDate bookingTime bookingServiceId
                          sessionID (Booking_insert booking st1)))
          with (totals st1).
        rewrite <- list_fmap_compose.
        rewrite <- (totals_restore st1 (Client._id client) client Hcarry eq_refl) at 2.
        apply list_fmap_ext. intros i p _. simpl.
        repeat case_decide; simpl in *; try done. f_equal. lia. }
      unfold totalsRestored in *. rewrite Hback.
      exact Htotals.
Qed.

(** C5.  The claim fails on the code for a client whose totalBookings stand
    at the schema's bound of 1000.  When such a client books, the booking is
    saved and the lock of the session deleted before the save of the
    counter is rejected: the request is answered 500, no verification mail
    is dispatched, whatever the mailer, and the booking is left stored,
    pending and unverified.  (The roll-back of the handler covers the
    failure of the mail only; [Client.completeBooking] and
    [Client.incrementEmailCounter] have the guard against the bound that
    the handler lacks.) *)
Theorem booking_creation_fails_at_the_bound (mail : Mailer) :
  let now := Sample.tuesday - 86400000 + 13 * 3600000 in
  let lock := TimeLock.mk Sample.tuesday "14:00" 1 "session-a" (now - 60000) in
  let w := Sample.world (mkStore [Sample.tuns; Sample.precision] [] [Sample.regular] [lock] []) in
  let req := mkClientInfo "Ion Pop" "0722000000" "ion@example.com" "+40"
               (Some 1) (Some Sample.tuesday) (Some "14:00") in
  let w' := (run (completeBooking mail now "session-a" "123456" req) w).1 in
  let r := (run (completeBooking mail now "session-a" "123456" req) w).2 in
  statusCode r = 500 ∧ success r = false ∧
  bookings (db w') =
    [Booking.mk 1 (Some 7) "Ion Pop" "+40722000000" "ion@example.com" 1 Sample.tuesday
       "14:00" pending (Some "123456") false 0 None now None None "+40"] ∧
  timeLocks (db w') = [] ∧
  clients (db w') = [Sample.regular].
Proof. vm_compute. by repeat split. Qed.

(** ** The sweep run twice *)

Lemma nil_of_no_elem {A} (l : list A) : (∀ x, x ∉ l) → l = [].
Proof. destruct l as [|x l]; [done|]. intros H. destruct (H x). apply list_elem_of_here. Qed.

Lemma foldl_dropUnconfirmed_bookings now l acc b' :
  b' ∈ bookings (store (foldl (dropUnconfirmed now) acc l)) →
  b' ∈ bookings (store acc) ∧ Booking._id b' ∉ Booking._id <$> l.
Proof.
  revert acc. induction l as [|x l IH]; intros acc; simpl.
  - intros H. split; [done|apply not_elem_of_nil].
  - intros [Hin Hout]%IH. unfold dropUnconfirmed in Hin.
    pose proof (bookings_releaseClientBooking now x (store acc) (docs acc)) as Hrel.
    destruct (releaseClientBooking _ _ _ _) as [st1 ds1]. simpl in *.
    apply list_elem_of_filter in Hin as [Hne Hin]. rewrite Hrel in Hin.
    split; [done|]. rewrite not_elem_of_cons. done.
Qed.

Lemma oldUnconfirmedBookings_elem now st b :
  b ∈ oldUnconfirmedBookings now st ↔
  (Booking.status b = pending ∧ Booking.verified b = false ∧
   Booking.createdAt b < JsDate.addMinutes now (-15)) ∧ b ∈ bookings st.
Proof. unfold oldUnconfirmedBookings. by rewrite list_elem_of_filter. Qed.

(** The abandoned-unverified pass only removes bookings, and leaves none of
    those it looks for. *)
Lemma cleanupUnconfirmedBookings_left now st b' :
  b' ∈ bookings (cleanupUnconfirmedBookings now st).1 →
  b' ∈ bookings st ∧ b' ∉ oldUnconfirmedBookings now st.
Proof.
  unfold cleanupUnconfirmedBookings.
  destruct (oldUnconfirmedBookings now st) as [|x l] eqn:Hold.
  - intros H. split; [done|apply not_elem_of_nil].
  - rewrite <- Hold. simpl fst. intros [Hin Hout]%foldl_dropUnconfirmed_bookings.
    split; [done|]. intros Hb'. apply Hout. by apply list_elem_of_fmap_2.
Qed.

(** So does the stale-declined pass. *)
Lemma cleanupDeclinedBookings_left now st b' :
  b' ∈ bookings (cleanupDeclinedBookings now st).1 →
  b' ∈ bookings st ∧ ¬ oldDeclined now b'.
Proof.
  unfold cleanupDeclinedBookings.
  destruct (filter (oldDeclined now) (bookings st)) as [|x l] eqn:Hold; simpl.
  - intros H. split; [done|]. intros Hd.
    assert (b' ∈ filter (oldDeclined now) (bookings st)) as Hin by by apply list_elem_of_filter.
    rewrite Hold in Hin. by apply elem_of_nil in Hin.
  - intros [? ?]%list_elem_of_filter. done.
Qed.

(** Each pass has nothing to do on a store that holds nothing for it. *)
Lemma cleanupExpiredBookings_idle mail now st :
  expiredBookings now st = [] → (cleanupExpiredBookings mail now st).1 = st.
Proof.
  intros H. unfold cleanupExpiredBookings. rewrite H.
  by destruct (pendingVerifiedBookings st).
Qed.

Lemma cleanupUnconfirmedBookings_idle now st :
  oldUnconfirmedBookings now st = [] → (cleanupUnconfirmedBookings now st).1 = st.
Proof. intros H. unfold cleanupUnconfirmedBookings. by rewrite H. Qed.

Lemma cleanupDeclinedBookings_idle now st :
  filter (oldDeclined now) (bookings st) = [] → (cleanupDeclinedBookings now st).1 = st.
Proof. intros H. unfold cleanupDeclinedBookings. by rewrite H. Qed.

Lemma cleanupExpiredBlockedDates_idle now st :
  (∀ d, d ∈ blockedDates st → ¬ blockExpired now d) →
  (cleanupExpiredBlockedDates now st).1 = st.
Proof.
  intros H. unfold cleanupExpiredBlockedDates. simpl.
  rewrite filter_all by done. by destruct st.
Qed.

(** The store a full cleanup leaves holds nothing for any of the four
    passes: a second cleanup at the same time changes nothing. *)
Lemma runFullCleanup_idem mail now st :
  (runFullCleanup mail now (runFullCleanup mail now st).1).1 = (runFullCleanup mail now st).1.
Proof.
  assert (∀ st, (runFullCleanup mail now st).1 =
                (cleanupExpiredBlockedDates now
                   (cleanupDeclinedBookings now
                      (cleanupUnconfirmedBookings now
                         (cleanupExpiredBookings mail now st).1).1).1).1) as Hrun.
  { intros st0. unfold runFullCleanup.
    destruct (cleanupExpiredBookings mail now st0) as [st1 c1]. simpl.
    destruct (cleanupUnconfirmedBookings now st1) as [st2 c2]. simpl.
    by destruct (cleanupDeclinedBookings now st2) as [st3 c3]. }
  rewrite !Hrun.
  set (st1 := (cleanupExpiredBookings mail now st).1).
  set (st2 := (cleanupUnconfirmedBookings now st1).1).
  set (st3 := (cleanupDeclinedBookings now st2).1).
  set (st4 := (cleanupExpiredBlockedDates now st3).1).
  assert (∀ b, b ∈ bookings st4 →
            b ∈ bookings st1 ∧ (b ∉ oldUnconfirmedBookings now st1) ∧ ¬ oldDeclined now b)
    as Hleft.
  { intros b Hb. change (bookings st4) with (bookings st3) in Hb.
    apply cleanupDeclinedBookings_left in Hb as [Hb Hd].
    apply cleanupUnconfirmedBookings_left in Hb as [Hb Hu]. done. }
  assert ((cleanupExpiredBookings mail now st4).1 = st4) as ->.
  { apply cleanupExpiredBookings_idle, nil_of_no_elem.
    intros b (Hb & Hst & Hv & Hexp)%expiredBookings_elem.
    destruct (Hleft b Hb) as (Hb1 & _ & _).
    by rewrite (cleanupExpiredBookings_none_left mail now st b Hb1 Hst Hv) in Hexp. }
  assert ((cleanupUnconfirmedBookings now st4).1 = st4) as ->.
  { apply cleanupUnconfirmedBookings_idle, nil_of_no_elem.
    intros b [Hold Hb]%oldUnconfirmedBookings_elem.
    destruct (Hleft b Hb) as (Hb1 & Hu & _). apply Hu.
    by apply oldUnconfirmedBookings_elem. }
  assert ((cleanupDeclinedBookings now st4).1 = st4) as ->.
  { apply cleanupDeclinedBookings_idle, nil_of_no_elem.
    intros b [Hold Hb]%list_elem_of_filter. by destruct (Hleft b Hb) as (_ & _ & Hd). }
  apply cleanupExpiredBlockedDates_idle.
  intros d Hd. subst st4. unfold cleanupExpiredBlockedDates in Hd. simpl in Hd.
  by apply list_elem_of_filter in Hd as [? _].
Qed.

(** The service lookup again, from the world it left: the same answer, and
    nothing changes. *)
Lemma lookupService_idem now serviceId w :
  lookupService now serviceId (lookupService now serviceId w).1 = lookupService now serviceId w ∧
  db (lookupService now serviceId w).1 = db w ∧
  rateLimit (lookupService now serviceId w).1 = rateLimit w ∧
  session (lookupService now serviceId w).1 = session w.
Proof.
  set (cache := if decide (ttl < now - lastUpdated (serviceCache w))
                then refreshCache now (db w) else serviceCache w).
  set (w1 := mkWorld (db w) cache (rateLimit w) (session w)).
  assert (¬ ttl < now - lastUpdated cache) as Hfresh.
  { subst cache. case_decide; [|done]. unfold ttl. simpl. lia. }
  assert (∀ w0, serviceCache w0 = cache → db w0 = db w → rateLimit w0 = rateLimit w →
                session w0 = session w →
                lookupService now serviceId w0 =
                (w1, inr (match cachedServices cache !! serviceId with
                          | Some service => Some service
                          | None => Service_findById (db w) serviceId
                          end))) as Hsame.
  { intros w0 Hc Hd Hr Hs. unfold lookupService, bind, getService.
    rewrite Hc, Hd, Hr, Hs. rewrite decide_False by done. fold w1.
    by destruct (cachedServices cache !! serviceId). }
  assert (lookupService now serviceId w =
          (w1, inr (match cachedServices cache !! serviceId with
                    | Some service => Some service
                    | None => Service_findById (db w) serviceId
                    end))) as Hfirst.
  { unfold lookupService, bind, getService. fold cache. fold w1.
    by destruct (cachedServices cache !! serviceId). }
  rewrite Hfirst. simpl. split; [|done]. by apply Hsame.
Qed.

(** The filtering of the slots reads and answers; the world stays. *)
Lemma slotsReply_reads now date found w :
  (slotsReply now date found w).1 = w.
Proof.
  assert (∀ (h : Handler Response), wp h (λ w1 _, w1 = w) w → (h w).1 = w) as Hwp by done.
  apply Hwp. unfold slotsReply.
  destruct found as [service|]; [|by apply wp_reply].
  case_decide; [by apply wp_reply|].
  apply wp_bind, wp_query. destruct (_ && _); [by apply wp_reply|].
  destruct (workingHours _) as [startHour endHour].
  apply wp_bind, wp_query.
  match goal with |- context [match ?l with [] => _ | _ => _ end] => destruct l end.
  - by apply wp_bind, wp_query, wp_reply.
  - by apply wp_reply.
Qed.

(** C8 (as stated, refuted). The available-slots handler writes: called at
    15:00 while a pending verified booking of 14:00 is stored, it leaves
    that booking declined. *)
Lemma available_slots_writes :
  (Booking.status <$>
     Booking_findById
       (Sample.store [Sample.booking 1 pending true Sample.tuesday "14:00"] []) 1
   = Some pending ∧
   Booking.status <$>
     Booking_findById
       (db (run (getAvailableTimeSlots Sample.noMail (Sample.tuesday + 15 * 3600000)
                   Sample.tuesday 1)
              (Sample.world
                 (Sample.store [Sample.booking 1 pending true Sample.tuesday "14:00"] []))).1) 1
   = Some declined) ∧
  ¬ readOnly (getAvailableTimeSlots Sample.noMail (Sample.tuesday + 15 * 3600000)
                Sample.tuesday 1).
Proof.
  split; [by vm_compute|].
  intros H.
  specialize (H (Sample.world (Sample.store [Sample.booking 1 pending true Sample.tuesday "14:00"] []))).
  vm_compute in H. discriminate.
Qed.

(** C8 (amended). The available-slots handler writes to the store exactly
    what the cleanup sweep it starts with writes, and leaves the rate limiter
    and the session alone; called again at the same clock value, for the same
    date and service, from the world it left, it gives the same answer, with
    the same ordered slot list, and changes nothing. *)
Theorem available_slots_repeatable (mail : Mailer) (now : Z) (date serviceId : Z) (w : World) :
  let w1 := (run (getAvailableTimeSlots mail now date serviceId) w).1 in
  let r1 := (run (getAvailableTimeSlots mail now date serviceId) w).2 in
  db w1 = (runFullCleanup mail now (db w)).1 ∧
  rateLimit w1 = rateLimit w ∧ session w1 = session w ∧
  run (getAvailableTimeSlots mail now date serviceId) w1 = (w1, r1).
Proof.
  cbn zeta.
  assert (∀ w0, run (getAvailableTimeSlots mail now date serviceId) w0 =
                run (slotsReply now date
                       (match (lookupService now serviceId
                                 (withDb (runFullCleanup mail now (db w0)).1 w0)).2 with
                        | inr found => found
                        | inl _ => None
                        end))
                    (lookupService now serviceId
                       (withDb (runFullCleanup mail now (db w0)).1 w0)).1) as Hrun.
  { intros w0. unfold run, getAvailableTimeSlots, bind at 1, effect. simpl.
    destruct (runFullCleanup mail now (db w0)) as [st1 results]. simpl.
    unfold bind at 1. fold (withDb st1 w0).
    assert (∃ found, (lookupService now serviceId (withDb st1 w0)).2 = inr found) as [found Hf].
    { unfold lookupService, bind, getService, ret, query. simpl.
      destruct (cachedServices _ !! serviceId); simpl; eauto. }
    destruct (lookupService now serviceId (withDb st1 w0)) as [w2 [resp|found']];
      simpl in *; [done|]. by injection Hf as ->. }
  set (w0 := withDb (runFullCleanup mail now (db w)).1 w).
  destruct (lookupService_idem now serviceId w0) as (Hidem & Hdb & Hrl & Hsess).
  rewrite Hrun. fold w0.
  set (found := match (lookupService now serviceId w0).2 with
                | inr found => found
                | inl _ => None
                end).
  set (w2 := (lookupService now serviceId w0).1) in *.
  assert ((run (slotsReply now date found) w2).1 = w2) as Hsame.
  { unfold run. pose proof (slotsReply_reads now date found w2) as Hr.
    by destruct (slotsReply now date found w2) as [w3 [r|r]]. }
  rewrite Hsame. split; [by rewrite Hdb|]. split; [by rewrite Hrl|]. split; [by rewrite Hsess|].
  rewrite Hrun.
  assert (withDb (runFullCleanup mail now (db w2)).1 w2 = w2) as ->.
  { rewrite Hdb. unfold w0 at 1. simpl. rewrite runFullCleanup_idem.
    fold w0 in Hdb. change (db w0) with (runFullCleanup mail now (db w)).1 in Hdb.
    rewrite <- Hdb. by destruct w2. }
  fold w2 in Hidem. rewrite Hidem. fold w2 found.
  destruct (run (slotsReply now date found) w2) as [w3 r3] eqn:Hr. simpl in *. by subst w3.
Qed.

(** ** The theorems at sample inputs *)


(** C7 at a sample input: the lock of the hour-long service at 14:00 makes
    14:30 unavailable for the half-hour service. *)
Lemma lock_blocks_witness :
  let st := Sample.store [] [Sample.lock14] in
  (Sample.lock14 ∈ activeLocks st Sample.tuesday ∧
   TimeString.parse "14:30" = Some (14, 30)) ∧
  isTimeSlotAvailable st Sample.tuesday "14:30" (Service.duration Sample.tuns) = false.
Proof.
  intros st.
  assert (Sample.lock14 ∈ activeLocks st Sample.tuesday) as Hin.
  { vm_compute. apply list_elem_of_here. }
  split; [split; [exact Hin|reflexivity]|].
  refine (proj2 (lock_blocks_every_service st Sample.tuesday "14:30" 14 30 Sample.tuns
                   Sample.lock14 Sample.precision (JsDate.setHours Sample.tuesday 14 0 0 0)
                   _ _ _ Hin _ _) _).
  - simpl. lia.
  - simpl. lia.
  - reflexivity.
  - reflexivity.
  - reflexivity.
  - vm_compute. split; reflexivity.
Defined.


(** C9 at a sample input: blocking 14:00 and 16:00 of a day that has a
    pending booking at 14:00 is answered with the 409 that lists the booking
    with the hour 14:00, and has no entry for 16:00; blocking the whole day
    is answered with the 409 that lists the booking. *)
Lemma block_refused_witness :
  let b := Sample.booking 1 pending true Sample.tuesday "14:00" in
  let w := Sample.world (Sample.store [b] []) in
  let req := mkBlockRequest (Some Sample.tuesday) false (Some ["14:00"; "16:00"]) in
  let wholeDay := mkBlockRequest (Some Sample.tuesday) true None in
  let now := Sample.tuesday - 86400000 in
  (br_date req = Some Sample.tuesday ∧ bookedOn (db w) Sample.tuesday b ∧
   hourMeets (db w) b "14:00") ∧
  (statusCode (run (blockDate now 1 req) w).2 = 409 ∧
   ∃ listed,
     body (run (blockDate now 1 req) w).2 = Conflicts listed ∧
     mkConflict 1 "Ion Pop" "14:00" "Tuns" pending (Some "14:00") ∈ listed ∧
     mkConflict 1 "Ion Pop" "14:00" "Tuns" pending (Some "16:00") ∉ listed) ∧
  statusCode (run (blockDate now 1 wholeDay) w).2 = 409 ∧
  body (run (blockDate now 1 wholeDay) w).2 =
    Conflicts [mkConflict 1 "Ion Pop" "14:00" "Tuns" pending None].
Proof.
  intros b w req wholeDay now.
  assert (bookedOn (db w) Sample.tuesday b) as Hbooked.
  { split; [apply list_elem_of_here|]. split; [vm_compute; split; discriminate|].
    left. reflexivity. }
  assert (hourMeets (db w) b "14:00") as Hmeet.
  { exists Sample.tuns, 840, 840. repeat split; reflexivity. }
  assert (∀ s, s ∈ services (db w) → 0 < Service.duration s) as Hpos.
  { intros s Hs. apply list_elem_of_In in Hs. simpl in Hs.
    destruct Hs as [<-|[<-|[]]]; simpl; lia. }
  split; [split; [reflexivity|split; [exact Hbooked|exact Hmeet]]|]. split.
  - refine (_ (proj2 (proj2 (proj2 (block_refused_on_conflict
                                      now 1 req Sample.tuesday w eq_refl Hpos _)))
                 Sample.tuesday _)).
    + intros (Hstatus & listed & Hbody & Hlisted). split; [exact Hstatus|].
      exists listed. split; [exact Hbody|]. cbn [br_isFullDay req] in Hlisted. split.
      * apply Hlisted. exists b, "14:00", Sample.tuns.
        split; [exact Hbooked|]. split; [apply list_elem_of_here|]. split; [exact Hmeet|].
        split; reflexivity.
      * intros (b' & hour & service & [Hb' _] & _ & Hmeets & _ & Hentry)%Hlisted.
        injection Hentry as _ _ _ _ _ <-.
        apply list_elem_of_singleton in Hb'. subst b'.
        destruct Hmeets as (service' & bookingStart & blockStart & Hs & Hbs & Hhs & H1 & _).
        injection Hs as <-. injection Hbs as <-. injection Hhs as <-.
        revert H1. vm_compute. intros H1. discriminate H1.
    + simpl. exists b, "14:00". split; [exact Hbooked|].
      split; [apply list_elem_of_here|exact Hmeet].
    + vm_compute. reflexivity.
  - refine (_ (proj2 (proj2 (proj2 (block_refused_on_conflict
                                      now 1 wholeDay Sample.tuesday w eq_refl Hpos _)))
                 Sample.tuesday _)).
    + intros (Hstatus & listed & Hbody & Hlisted). split; [exact Hstatus|].
      cbn [br_isFullDay wholeDay] in Hlisted. rewrite Hbody, Hlisted.
      vm_compute. reflexivity.
    + simpl. exists b. exact Hbooked.
    + vm_compute. reflexivity.
Defined.

(** C10 at a sample input: the client of the one expired booking had two
    bookings counted, and has one after the sweep. *)
Lemma sweep_decrements_witness :
  let b := Sample.booking 1 pending true Sample.tuesday "14:00" in
  let st := Sample.store [b] [] in
  let now := Sample.tuesday + 15 * 3600000 in
  (isExpired now b = true ∧ populateClient st b = Some Sample.ion) ∧
  totalOf (cleanupExpiredBookings Sample.mailSent now st).1 7 = Some 1.
Proof.
  intros b st now.
  split; [split; vm_compute; reflexivity|].
  refine (proj2 (proj2 (proj2 (sweep_decrements_client_total
                                 Sample.mailSent now st b Sample.ion _ _ _ _ _))) _).
  - apply list_elem_of_here.
  - reflexivity.
  - reflexivity.
  - vm_compute. reflexivity.
  - vm_compute. reflexivity.
  - vm_compute. reflexivity.
Defined.

(** * Further properties of the same code *)

(** ** Times of day and the grid of slots *)

Lemma format_parse_table :
  forallb (λ hour,
    forallb (λ minute,
      bool_decide (TimeString.parse (TimeString.format hour minute) = Some (hour, minute)))
      (seqZ 0 60))
    (seqZ 0 24) = true.
Proof. vm_compute. reflexivity. Qed.

Lemma format_parse (hour minute : Z) :
  0 ≤ hour ≤ 23 → 0 ≤ minute ≤ 59 →
  TimeString.parse (TimeString.format hour minute) = Some (hour, minute).
Proof.
  intros Hh Hm. pose proof format_parse_table as Htable.
  rewrite forallb_forall in Htable.
  assert (In hour (seqZ 0 24)) as Hin by (apply list_elem_of_In, elem_of_seqZ; lia).
  specialize (Htable hour Hin). rewrite forallb_forall in Htable.
  assert (In minute (seqZ 0 60)) as Hin' by (apply list_elem_of_In, elem_of_seqZ; lia).
  specialize (Htable minute Hin'). by apply bool_decide_eq_true in Htable.
Qed.

(** The time strings that the slot generators write
    ([hour.toString().padStart(2, '0')], a colon, the minutes likewise) are
    read back by the pattern and the [parseInt]s of the availability check
    as the hour and minute they were written from. *)
Theorem time_format_roundtrip (hour minute : Z) :
  0 ≤ hour ≤ 23 → 0 ≤ minute ≤ 59 →
  TimeString.test (TimeString.format hour minute) = true ∧
  TimeString.parse (TimeString.format hour minute) = Some (hour, minute) ∧
  TimeString.minutes (TimeString.format hour minute) = Some (hour * 60 + minute) ∧
  ∀ date, TimeString.at_ date (TimeString.format hour minute)
          = Some (JsDate.setHours date hour minute 0 0).
Proof.
  intros Hh Hm. unfold TimeString.test, TimeString.minutes, TimeString.at_.
  by rewrite (format_parse hour minute Hh Hm).
Qed.

Lemma grid_elem (startHour endHour hour minute : Z) :
  (hour, minute) ∈ grid startHour endHour ↔
  startHour ≤ hour < endHour ∧ (minute = 0 ∨ minute = 30).
Proof.
  unfold grid. rewrite list_elem_of_bind. split.
  - intros (h & Hin & Hh%elem_of_seqZ).
    apply elem_of_cons in Hin as [[= -> ->]|Hin]; [lia|].
    apply list_elem_of_singleton in Hin as [= -> ->]. lia.
  - intros [Hh Hm]. exists hour. split; [|apply elem_of_seqZ; lia].
    destruct Hm as [-> | ->]; [apply list_elem_of_here|].
    apply list_elem_of_further, list_elem_of_here.
Qed.

(** What an available slot has passed: the day is no Sunday, the time is
    well formed, and the service fits between 10:00 and the closing hour. *)
Lemma isTimeSlotAvailable_hours (st : Store) (date : Z) (time : string) (duration : Z) :
  isTimeSlotAvailable st date time duration = true →
  ∃ hour minute,
    TimeString.parse time = Some (hour, minute) ∧
    JsDate.getDay date ≠ 0 ∧ 0 < duration ≤ 240 ∧
    10 * 60 ≤ hour * 60 + minute ∧
    hour * 60 + minute + duration ≤ (workingHours (JsDate.getDay date)).2 * 60 ∧
    (isBlocked (isDateTimeBlocked st date None) &&
     bool_decide (blockType (isDateTimeBlocked st date None) = Some fullDay)) = false.
Proof.
  unfold isTimeSlotAvailable, workingHours. intros H.
  destruct (decide (time = "")); [done|].
  destruct (decide (duration ≤ 0 ∨ 240 < duration)); [done|].
  destruct (TimeString.parse time) as [[hour minute]|]; [|done].
  exists hour, minute. split; [done|]. cbn zeta in *.
  destruct (decide (JsDate.getDay date = 0)); [done|].
  split; [done|]. split; [lia|].
  destruct (decide (JsDate.getDay date = 6)); simpl.
  - case_bool_decide; [done|].
    destruct (existsb (lockBlocks _ _ _) _); [done|].
    destruct (existsb (bookingBlocks _ _ _) _); [done|].
    destruct (isBlocked (isDateTimeBlocked st date (Some time))); [done|].
    destruct (_ && _); [done|]. split; [lia|]. split; [lia|done].
  - case_bool_decide; [done|].
    destruct (existsb (lockBlocks _ _ _) _); [done|].
    destruct (existsb (bookingBlocks _ _ _) _); [done|].
    destruct (isBlocked (isDateTimeBlocked st date (Some time))); [done|].
    destruct (_ && _); [done|]. split; [lia|]. split; [lia|done].
Qed.

Lemma generateAvailableTimeSlots_elem (st : Store) (date duration : Z) (time : string) :
  time ∈ generateAvailableTimeSlots st date duration ↔
  ∃ hour minute,
    0 ≤ hour ≤ 23 ∧ (minute = 0 ∨ minute = 30) ∧ time = TimeString.format hour minute ∧
    isTimeSlotAvailable st date time duration = true.
Proof.
  split.
  - unfold generateAvailableTimeSlots.
    destruct (decide (JsDate.getDay date = 0)); [by intros ?%elem_of_nil|].
    destruct (_ && _); [by intros ?%elem_of_nil|].
    unfold workingHours. destruct (decide (JsDate.getDay date = 6)).
    + intros ([hour minute] & Hin & Hg%grid_elem)%list_elem_of_bind.
      exists hour, minute. case_decide; [by apply elem_of_nil in Hin|].
      destruct (isTimeSlotAvailable _ _ _ _) eqn:Hav; [|by apply elem_of_nil in Hin].
      apply list_elem_of_singleton in Hin as ->. split; [lia|]. by split; [tauto|].
    + intros ([hour minute] & Hin & Hg%grid_elem)%list_elem_of_bind.
      exists hour, minute. case_decide; [by apply elem_of_nil in Hin|].
      destruct (isTimeSlotAvailable _ _ _ _) eqn:Hav; [|by apply elem_of_nil in Hin].
      apply list_elem_of_singleton in Hin as ->. split; [lia|]. by split; [tauto|].
  - intros (hour & minute & Hh & Hm & -> & Hav).
    destruct (isTimeSlotAvailable_hours _ _ _ _ Hav)
      as (h & m & Hparse & Hday & Hd & Hopen & Hclose & Hfree).
    rewrite format_parse in Hparse by lia. injection Hparse as <- <-.
    unfold generateAvailableTimeSlots.
    rewrite decide_False by done. rewrite Hfree.
    destruct (workingHours (JsDate.getDay date)) as [startHour endHour] eqn:Hw.
    assert (startHour = 10) as ->.
    { unfold workingHours in Hw. by case_decide; injection Hw as <- <-. }
    simpl in Hclose.
    apply list_elem_of_bind. exists (hour, minute). split.
    + rewrite decide_False by lia. rewrite Hav. apply list_elem_of_here.
    + apply grid_elem. lia.
Qed.

Lemma bind_sublist_grid {A} (f : A → list string) (g : A → string) (l : list A) :
  (∀ x, f x = [] ∨ f x = [g x]) → (l ≫= f) `sublist_of` (g <$> l).
Proof.
  intros Hf. induction l as [|x l IH]; [constructor|].
  rewrite bind_cons, fmap_cons. destruct (Hf x) as [-> | ->]; simpl.
  - by apply sublist_cons.
  - by apply sublist_skip.
Qed.

(** [generateAvailableTimeSlots] offers exactly the times on the half hour
    that [isTimeSlotAvailable] accepts for the service's duration (its own
    tests for Sunday, a blocked day and the closing hour remove nothing
    more), in the order of the clock and each once; on a Sunday it offers
    nothing. *)
Theorem generated_slots_are_the_available_half_hours (st : Store) (date duration : Z) :
  (∀ time,
     time ∈ generateAvailableTimeSlots st date duration ↔
     ∃ hour minute,
       0 ≤ hour ≤ 23 ∧ (minute = 0 ∨ minute = 30) ∧ time = TimeString.format hour minute ∧
       isTimeSlotAvailable st date time duration = true) ∧
  generateAvailableTimeSlots st date duration
    `sublist_of` ((λ slot, TimeString.format slot.1 slot.2) <$> grid 10 19) ∧
  (JsDate.getDay date = 0 → generateAvailableTimeSlots st date duration = []).
Proof.
  split; [intros time; apply generateAvailableTimeSlots_elem|]. split.
  - unfold generateAvailableTimeSlots.
    destruct (decide (JsDate.getDay date = 0)); [apply sublist_nil_l|].
    destruct (_ && _); [apply sublist_nil_l|].
    unfold workingHours. destruct (decide (JsDate.getDay date = 6)).
    + trans ((λ slot : Z * Z, TimeString.format slot.1 slot.2) <$> grid 10 13).
      * apply bind_sublist_grid. intros [hour minute]. simpl.
        case_decide; [by left|]. destruct (isTimeSlotAvailable _ _ _ _); [by right|by left].
      * apply fmap_sublist. vm_compute. repeat (apply sublist_skip || apply sublist_cons).
        apply sublist_nil_l.
    + apply bind_sublist_grid. intros [hour minute]. simpl.
      case_decide; [by left|]. destruct (isTimeSlotAvailable _ _ _ _); [by right|by left].
  - intros Hsun. unfold generateAvailableTimeSlots. by rewrite decide_True.
Qed.

(** ** The answer of the available-slots request *)

Lemma refreshCache_lookup (now : Z) (st : Store) (id : Z) (service : Service.t) :
  cachedServices (refreshCache now st) !! id = Some service → service ∈ services st.
Proof.
  unfold refreshCache. simpl.
  assert (∀ l (m : gmap Z Service.t),
            foldl (λ m s, <[Service._id s := s]> m) m l !! id = Some service →
            service ∈ l ∨ m !! id = Some service) as Hfold.
  { induction l as [|x l IH]; intros m; simpl; [by right|].
    intros [Hin|Hm]%IH; [left; by apply list_elem_of_further|].
    destruct (decide (Service._id x = id)) as [<-|Hne].
    - rewrite lookup_insert_eq in Hm. injection Hm as ->. left. apply list_elem_of_here.
    - rewrite lookup_insert_ne in Hm by done. by right. }
  intros [?|Hempty]%Hfold; [done|]. by rewrite lookup_empty in Hempty.
Qed.

Lemma Service_findById_elem (st : Store) (id : Z) (service : Service.t) :
  Service_findById st id = Some service → service ∈ services st.
Proof.
  unfold Service_findById. intros H%head_Some_elem_of.
  by apply list_elem_of_filter in H as [_ ?].
Qed.

(** The service lookup: what it finds is a stored service or the entry the
    cache held, and it finds nothing only when the store has no such service. *)
Lemma wp_lookupService_found now serviceId Q w :
  (∀ cache found,
     (∀ service, found = Some service →
        service ∈ services (db w) ∨
        cachedServices (serviceCache w) !! serviceId = Some service) →
     (found = None → Service_findById (db w) serviceId = None) →
     Q (mkWorld (db w) cache (rateLimit w) (session w)) (inr found)) →
  wp (lookupService now serviceId) Q w.
Proof.
  intros H. unfold lookupService. apply wp_bind. unfold wp at 1, getService.
  cbn [fst snd].
  destruct (decide (ttl < now - lastUpdated (serviceCache w))).
  - destruct (cachedServices (refreshCache now (db w)) !! serviceId) as [s|] eqn:Hc.
    + apply wp_ret, H; [|done]. intros service [= <-]. left.
      by apply (refreshCache_lookup now _ serviceId).
    + apply wp_query. apply H; [|done]. intros service Hs. left.
      by apply (Service_findById_elem _ serviceId).
  - destruct (cachedServices (serviceCache w) !! serviceId) as [s|] eqn:Hc.
    + apply wp_ret, H; [|done]. intros service [= <-]. by right.
    + apply wp_query. apply H; [|done]. intros service Hs. left.
      by apply (Service_findById_elem _ serviceId).
Qed.

Lemma bind_ext_elem {A B} (f g : A → list B) (l : list A) :
  (∀ x, x ∈ l → f x = g x) → l ≫= f = l ≫= g.
Proof.
  induction l as [|x l IH]; intros H; [done|].
  rewrite !bind_cons, (H x) by apply list_elem_of_here. f_equal. apply IH.
  intros y Hy. apply H. by apply list_elem_of_further.
Qed.

Lemma filter_bind_list {A B} (P : B → Prop) `{!∀ y, Decision (P y)} (f : A → list B)
    (l : list A) :
  filter P (l ≫= f) = l ≫= (λ x, filter P (f x)).
Proof.
  induction l as [|x l IH]; [done|]. by rewrite !bind_cons, filter_app, IH.
Qed.

Lemma bind_filter_list {A B} (Q : A → Prop) `{!∀ x, Decision (Q x)} (f : A → list B)
    (l : list A) :
  filter Q l ≫= f = l ≫= (λ x, if decide (Q x) then f x else []).
Proof.
  induction l as [|x l IH]; [done|].
  rewrite filter_cons, bind_cons. case_decide; by rewrite ?bind_cons, IH.
Qed.

(** The slots [slotsReply] collects are those of [generateAvailableTimeSlots]
    that have not begun. *)
Lemma slotsReply_slots (now date : Z) (service : Service.t) (w : World) :
  success (run (slotsReply now date (Some service)) w).2 = true ∧
  statusCode (run (slotsReply now date (Some service)) w).2 = 200 ∧
  body (run (slotsReply now date (Some service)) w).2 =
    TimeSlots (filter (λ time, started now date time = false)
                 (generateAvailableTimeSlots (db w) date (Service.duration service))).
Proof.
  apply (wp_run _ (λ _ r, success r = true ∧ statusCode r = 200 ∧
           body r = TimeSlots (filter (λ time, started now date time = false)
                      (generateAvailableTimeSlots (db w) date (Service.duration service))))).
  unfold slotsReply, generateAvailableTimeSlots.
  case_decide; [by apply wp_reply|].
  apply wp_bind, wp_query. destruct (_ && _); [by apply wp_reply|].
  destruct (workingHours (JsDate.getDay date)) as [startHour endHour] eqn:Hw.
  assert (startHour = 10 ∧ endHour ≤ 19) as [-> HendHour].
  { unfold workingHours in Hw. case_decide; injection Hw as <- <-; lia. }
  apply wp_bind, wp_query.
  match goal with
  | |- context [match ?l with [] => _ | _ => _ end] =>
      assert (l = filter (λ time, started now date time = false)
                    (grid 10 endHour ≫= λ '(hour, minute),
                       if decide (endHour * 60 < hour * 60 + minute + Service.duration service)
                       then []
                       else if isTimeSlotAvailable (db w) date (TimeString.format hour minute)
                                 (Service.duration service)
                            then [TimeString.format hour minute] else [])) as ->
  end.
  { rewrite filter_bind_list, bind_filter_list. apply bind_ext_elem.
    intros [hour minute] [Hh Hm]%grid_elem. simpl.
    assert (TimeString.at_ date (TimeString.format hour minute)
            = Some (JsDate.setHours date hour minute 0 0)) as Hat.
    { unfold TimeString.at_. rewrite format_parse; [done|lia|lia]. }
    assert (started now date (TimeString.format hour minute)
            = bool_decide (JsDate.startOfDay date = JsDate.startOfDay now) &&
              bool_decide (JsDate.setHours date hour minute 0 0 ≤ now)) as Hstarted.
    { unfold started. by rewrite Hat. }
    destruct (decide (hour * 60 + minute + Service.duration service ≤ endHour * 60))
      as [Hfit|Hfit]; [rewrite decide_False by lia|by rewrite decide_True by lia].
    destruct (bool_decide (JsDate.startOfDay date = JsDate.startOfDay now) &&
              bool_decide (JsDate.setHours date hour minute 0 0 ≤ now)) eqn:Hs.
    - destruct (isTimeSlotAvailable _ _ _ _); [|done].
      rewrite filter_cons, decide_False, filter_nil; [done|]. by rewrite Hstarted.
    - destruct (isTimeSlotAvailable _ _ _ _); [|done].
      rewrite filter_cons, decide_True, filter_nil; [done|]. by rewrite Hstarted. }
  match goal with
  | |- context [match ?l with [] => _ | _ => _ end] => destruct l eqn:Hl
  end.
  - by apply wp_bind, wp_query, wp_reply.
  - by apply wp_reply.
Qed.

(** The answer of [getAvailableTimeSlots]: a 404 when the service is
    neither cached nor stored; otherwise, for the service found, the slots
    that [generateAvailableTimeSlots] computes for its duration on the store
    the cleanup has left, without those of today that have begun. *)
Theorem available_slots_answer (mail : Mailer) (now date serviceId : Z) (w : World) :
  let r := (run (getAvailableTimeSlots mail now date serviceId) w).2 in
  let swept := (runFullCleanup mail now (db w)).1 in
  (statusCode r = 404 ∧ success r = false ∧ Service_findById (db w) serviceId = None) ∨
  (∃ service,
     (service ∈ services (db w) ∨
      cachedServices (serviceCache w) !! serviceId = Some service) ∧
     success r = true ∧ statusCode r = 200 ∧
     body r = TimeSlots (filter (λ time, started now date time = false)
                (generateAvailableTimeSlots swept date (Service.duration service)))).
Proof.
  cbn zeta.
  assert (services (runFullCleanup mail now (db w)).1 = services (db w)) as Hservices.
  { by destruct (sameLocks_runFullCleanup mail now (db w)) as [_ ?]. }
  apply (wp_run _ (λ _ r,
    (statusCode r = 404 ∧ success r = false ∧ Service_findById (db w) serviceId = None) ∨
    (∃ service,
       (service ∈ services (db w) ∨
        cachedServices (serviceCache w) !! serviceId = Some service) ∧
       success r = true ∧ statusCode r = 200 ∧
       body r = TimeSlots (filter (λ time, started now date time = false)
                  (generateAvailableTimeSlots (runFullCleanup mail now (db w)).1 date
                     (Service.duration service)))))).
  unfold getAvailableTimeSlots. apply wp_bind, wp_effect.
  destruct (runFullCleanup mail now (db w)) as [swept results] eqn:Hrun. cbn [fst snd] in *.
  apply wp_bind, wp_lookupService_found. cbn [db withDb serviceCache].
  intros cache [service|] Hfound Hnone.
  - destruct (Hfound service eq_refl) as [Hin|Hc].
    + pose proof (slotsReply_slots now date service
                    (mkWorld swept cache (rateLimit w) (session w))) as Hslots.
      unfold run in Hslots. unfold wp.
      destruct (slotsReply now date (Some service) _) as [w1 [r|r]]; simpl in *;
        right; exists service; rewrite <- Hservices; by split; [left|].
    + pose proof (slotsReply_slots now date service
                    (mkWorld swept cache (rateLimit w) (session w))) as Hslots.
      unfold run in Hslots. unfold wp.
      destruct (slotsReply now date (Some service) _) as [w1 [r|r]]; simpl in *;
        right; exists service; by split; [right|].
  - apply wp_reply. left. split; [done|]. split; [done|].
    specialize (Hnone eq_refl). unfold Service_findById in *. by rewrite <- Hservices.
Qed.

(** ** The temporary lock of a slot *)

Lemma onDayOf_self (date : Z) : onDayOf date date.
Proof.
  unfold onDayOf, JsDate.startOfDay, JsDate.msPerDay.
  pose proof (Z.mod_pos_bound date (24 * 60 * 60 * 1000)). lia.
Qed.

(** What an accepted [createBooking] has seen and done. *)
Lemma createBooking_success now sessionID serviceId date time w :
  success (run (createBooking now sessionID serviceId date time) w).2 = true →
  let w' := (run (createBooking now sessionID serviceId date time) w).1 in
  db w' = set_timeLocks (timeLocks (db w) ++ [TimeLock.mk date time serviceId sessionID now])
            (db w) ∧
  session w' =
    (λ s, mkSession (Some (mkSessionBooking serviceId date time now))
            (Some (now + BOOKING_SESSION_TIMEOUT_MINS * 60 * 1000)) (sessionBookingId s))
    <$> session w ∧
  ∃ service, isTimeSlotAvailable (db w) date time (Service.duration service) = true.
Proof.
  cbn zeta.
  apply (wp_run _ (λ w' r,
    success r = true →
    db w' = set_timeLocks (timeLocks (db w) ++ [TimeLock.mk date time serviceId sessionID now])
              (db w) ∧
    session w' =
      (λ s, mkSession (Some (mkSessionBooking serviceId date time now))
              (Some (now + BOOKING_SESSION_TIMEOUT_MINS * 60 * 1000)) (sessionBookingId s))
      <$> session w ∧
    ∃ service, isTimeSlotAvailable (db w) date time (Service.duration service) = true)).
  unfold createBooking. apply wp_bind, wp_lookupService. intros cache [service|].
  - apply wp_bind, wp_query. cbn [db].
    destruct (isTimeSlotAvailable (db w) date time (Service.duration service)) eqn:Hav; simpl.
    + apply wp_bind, acquireLock_cases; [done|].
      intros Hfresh. apply wp_bind, wp_setSession, wp_reply. intros _.
      split; [done|]. split; [done|]. by exists service.
    + apply wp_bind, wp_query. destruct (isBlocked _); by apply wp_reply.
  - by apply wp_reply.
Qed.

Lemma unavailable_by_lock (st : Store) (date : Z) (time : string) (duration : Z)
    (lock : TimeLock.t) :
  lock ∈ activeLocks st date →
  (∀ hour minute, TimeString.parse time = Some (hour, minute) → 0 < duration →
     lockBlocks st (JsDate.setHours date hour minute 0 0)
       (JsDate.setHours date hour minute 0 0 + duration * 60000) lock = true) →
  isTimeSlotAvailable st date time duration = false.
Proof.
  intros Hin Hblocks. unfold isTimeSlotAvailable.
  destruct (decide (time = "")); [done|].
  destruct (decide (duration ≤ 0 ∨ 240 < duration)); [done|].
  destruct (TimeString.parse time) as [[hour minute]|]; [|done]. cbn zeta.
  destruct (decide (JsDate.getDay date = 0)); [done|].
  match goal with |- (if ?c then _ else _) = _ => destruct c end; [done|].
  assert (existsb (lockBlocks st (JsDate.setHours date hour minute 0 0)
                     (JsDate.setHours date hour minute 0 0 + duration * 60000))
            (activeLocks st date) = true) as ->; [|done].
  apply existsb_elem_of. exists lock. split; [done|]. apply Hblocks; [done|lia].
Qed.

(** Once [createBooking] has accepted a slot, the lock it stored keeps the
    slot from everyone: the availability check refuses the same date and time
    for a service of any duration, and the session holds the booking data
    for [BOOKING_SESSION_TIMEOUT_MINS] minutes.  (The day has fewer than 50
    locks before, the number the check reads, and the service is stored with
    a positive duration.) *)
Theorem locked_slot_is_unavailable
    (now : Z) (sessionID : string) (serviceId date : Z) (time : string) (w : World)
    (service : Service.t) :
  success (run (createBooking now sessionID serviceId date time) w).2 = true →
  Service_findById (db w) serviceId = Some service → 0 < Service.duration service →
  (length (filter (λ l, onDayOf date (TimeLock.date l)) (timeLocks (db w))) < 50)%nat →
  let w' := (run (createBooking now sessionID serviceId date time) w).1 in
  TimeLock.mk date time serviceId sessionID now ∈ timeLocks (db w') ∧
  (bookingDataExpiry <$> session w') =
    (λ _, Some (now + 15 * 60 * 1000)) <$> session w ∧
  ∀ duration, isTimeSlotAvailable (db w') date time duration = false.
Proof.
  intros Hok Hservice Hpos Hfew. cbn zeta.
  destruct (createBooking_success now sessionID serviceId date time w Hok)
    as (Hdb & Hsession & seen & Hseen).
  rewrite Hdb, Hsession. split; [|split].
  - simpl. apply elem_of_app. right. apply list_elem_of_here.
  - by destruct (session w).
  - intros duration.
    apply (unavailable_by_lock _ _ _ _ (TimeLock.mk date time serviceId sessionID now)).
    + apply activeLocks_complete; simpl.
      * rewrite filter_app, length_app, filter_cons, decide_True by apply onDayOf_self.
        simpl. lia.
      * apply elem_of_app. right. apply list_elem_of_here.
      * apply onDayOf_self.
      * apply list_elem_of_fmap. exists service. split.
        -- unfold Service_findById in Hservice. apply head_Some_elem_of in Hservice.
           by apply list_elem_of_filter in Hservice as [-> _].
        -- by apply (Service_findById_elem _ serviceId).
    + intros hour minute Hparse Hd.
      apply (lockBlocks_spec _ _ _ _ service (JsDate.setHours date hour minute 0 0));
        [done|done|done| |lia].
      unfold TimeString.at_. simpl. by rewrite Hparse.
Qed.

(** ** The rate limiter *)

Lemma rateLimit_cleanup_lookup (now : Z) (rl : RateLimit) (key : string) :
  match resetTimers rl !! key with
  | Some t =>
      if decide (t + 3600000 < now)
      then attempts (rateLimit_cleanup now rl) !! key = None ∧
           resetTimers (rateLimit_cleanup now rl) !! key = None
      else attempts (rateLimit_cleanup now rl) !! key = attempts rl !! key ∧
           resetTimers (rateLimit_cleanup now rl) !! key = Some t
  | None =>
      attempts (rateLimit_cleanup now rl) !! key = attempts rl !! key ∧
      resetTimers (rateLimit_cleanup now rl) !! key = None
  end.
Proof.
  unfold rateLimit_cleanup. simpl.
  destruct (resetTimers rl !! key) as [t|] eqn:Ht.
  - case_decide as Hstale.
    + split; apply map_lookup_filter_None; right; intros x _; simpl;
        rewrite Ht; by rewrite bool_decide_eq_true_2.
    + split.
      * destruct (attempts rl !! key) as [n|] eqn:Hn.
        -- apply map_lookup_filter_Some. split; [done|]. simpl. rewrite Ht.
           by rewrite bool_decide_eq_false_2.
        -- apply map_lookup_filter_None. by left.
      * apply map_lookup_filter_Some. split; [done|]. simpl. rewrite Ht.
        by rewrite bool_decide_eq_false_2.
  - split.
    + destruct (attempts rl !! key) as [n|] eqn:Hn.
      * apply map_lookup_filter_Some. split; [done|]. simpl. by rewrite Ht.
      * apply map_lookup_filter_None. by left.
    + apply map_lookup_filter_None. by left.
Qed.

(** A call inside the window of the key counts one more attempt and leaves
    the window as it is. *)
Lemma rateLimit_check_within (now : Z) (key : string) (maxAttempts window : Z)
    (rl : RateLimit) (n t : Z) :
  attempts rl !! key = Some n → n ≠ 0 → resetTimers rl !! key = Some t → now ≤ t →
  (rateLimit_check now key maxAttempts window rl).1 = bool_decide (n + 1 ≤ maxAttempts) ∧
  attempts (rateLimit_check now key maxAttempts window rl).2 !! key = Some (n + 1) ∧
  resetTimers (rateLimit_check now key maxAttempts window rl).2 !! key = Some t.
Proof.
  intros Hn Hn0 Ht Hnow. unfold rateLimit_check.
  set (rl1 := if decide (lastCleanup rl = 0 ∨ 3600000 < now - lastCleanup rl)
              then _ else rl).
  assert (attempts rl1 !! key = Some n ∧ resetTimers rl1 !! key = Some t) as [Hn1 Ht1].
  { subst rl1. case_decide; [|done]. simpl.
    pose proof (rateLimit_cleanup_lookup now rl key) as Hc. rewrite Ht in Hc.
    rewrite decide_False in Hc by lia. by rewrite Hn in Hc. }
  clearbody rl1.
  assert (readAttempts rl1 key = Counted n) as Hread by (unfold readAttempts; by rewrite Hn1).
  rewrite Hread.
  assert (match n with 0 => restart now key window rl1 | _ => rl1 end = rl1) as ->
    by by destruct n.
  cbn beta iota zeta. rewrite Ht1, decide_False by lia. rewrite Hread.
  cbn [fst snd attempts resetTimers]. by rewrite lookup_insert_eq.
Qed.

(** The names the handlers use as keys are no names of [Object.prototype]. *)
Lemma ownKey_proto (key : string) : key ∉ inheritedNames → key ≠ "__proto__".
Proof. intros Hkey ->. apply Hkey. unfold inheritedNames. set_solver. Qed.

Lemma restart_lookup (now : Z) (key : string) (window : Z) (rl : RateLimit) :
  key ≠ "__proto__" →
  readAttempts (restart now key window rl) key = Counted 0 ∧
  resetTimers (restart now key window rl) !! key = Some (now + window).
Proof.
  intros Hkey. unfold restart, readAttempts. rewrite decide_False by done.
  cbn [attempts resetTimers]. by rewrite !lookup_insert_eq.
Qed.

(** A call for a key that is not counted, or whose window is over, opens a
    new window and counts one attempt. *)
Lemma rateLimit_check_restart (now : Z) (key : string) (maxAttempts window : Z)
    (rl : RateLimit) :
  0 ≤ window → key ∉ inheritedNames →
  attempts rl !! key = None ∨ (∃ t, resetTimers rl !! key = Some t ∧ t < now) →
  (rateLimit_check now key maxAttempts window rl).1 = bool_decide (1 ≤ maxAttempts) ∧
  attempts (rateLimit_check now key maxAttempts window rl).2 !! key = Some 1 ∧
  resetTimers (rateLimit_check now key maxAttempts window rl).2 !! key = Some (now + window).
Proof.
  intros Hw Hkey Hstate. pose proof (ownKey_proto key Hkey) as Hproto.
  unfold rateLimit_check.
  set (rl1 := if decide (lastCleanup rl = 0 ∨ 3600000 < now - lastCleanup rl)
              then _ else rl).
  assert (attempts rl1 !! key = None ∨ (∃ t, resetTimers rl1 !! key = Some t ∧ t < now))
    as Hstate1.
  { subst rl1. case_decide; [|done]. cbn [attempts resetTimers].
    pose proof (rateLimit_cleanup_lookup now rl key) as Hc.
    destruct Hstate as [Hnone|(t & Ht & Hlate)].
    - left. destruct (resetTimers rl !! key) as [t|]; [case_decide|];
        destruct Hc as [Hc _]; by rewrite Hc.
    - rewrite Ht in Hc. case_decide; [left; tauto|right]. exists t. tauto. }
  clearbody rl1.
  set (rl2 := match readAttempts rl1 key with
              | Counted 0 | NaN | Undefined => restart now key window rl1
              | Counted _ | Inherited => rl1
              end).
  set (rl3 := match resetTimers rl2 !! key with
              | Some t => if decide (t < now) then restart now key window rl2 else rl2
              | None => rl2
              end).
  assert (readAttempts rl3 key = Counted 0 ∧ resetTimers rl3 !! key = Some (now + window))
    as [Hread Htimer].
  { assert (rl2 = restart now key window rl1 ∨
            rl2 = rl1 ∧ ∃ t, resetTimers rl1 !! key = Some t ∧ t < now) as [Hrl2|[Hrl2 Hlate]].
    { subst rl2. unfold readAttempts.
      destruct (attempts rl1 !! key) as [n|] eqn:Hn.
      - destruct Hstate1 as [|Hlate]; [done|]. destruct n; auto.
      - left. destruct (decide (key ∈ notANumber rl1)); [done|].
        by rewrite decide_False by done. }
    - destruct (restart_lookup now key window rl1 Hproto) as [Hr Ht].
      subst rl3. rewrite Hrl2, Ht. by rewrite decide_False by lia.
    - destruct Hlate as (t & Ht & Hlate). subst rl3. rewrite Hrl2, Ht.
      rewrite decide_True by done. by apply restart_lookup. }
  clearbody rl3. rewrite Hread. cbn [fst snd attempts resetTimers].
  by rewrite lookup_insert_eq.
Qed.

Lemma rateLimit_checks_cons (now : Z) (times : list Z) (key : string)
    (maxAttempts window : Z) (rl : RateLimit) :
  rateLimit_checks (now :: times) key maxAttempts window rl =
  ((rateLimit_check now key maxAttempts window rl).1 ::
     (rateLimit_checks times key maxAttempts window
        (rateLimit_check now key maxAttempts window rl).2).1,
   (rateLimit_checks times key maxAttempts window
      (rateLimit_check now key maxAttempts window rl).2).2).
Proof.
  cbn [rateLimit_checks]. destruct (rateLimit_check now key maxAttempts window rl) as [ok rl1].
  cbn [fst snd]. by destruct (rateLimit_checks times key maxAttempts window rl1).
Qed.

Lemma rateLimit_checks_within (times : list Z) (key : string) (maxAttempts window : Z)
    (rl : RateLimit) (n t : Z) :
  attempts rl !! key = Some n → 0 < n → resetTimers rl !! key = Some t →
  Forall (λ now, now ≤ t) times →
  (rateLimit_checks times key maxAttempts window rl).1 =
    (λ i, bool_decide (n + Z.of_nat i ≤ maxAttempts)) <$> seq 1 (length times) ∧
  attempts (rateLimit_checks times key maxAttempts window rl).2 !! key =
    Some (n + Z.of_nat (length times)).
Proof.
  revert rl n. induction times as [|now times IH]; intros rl n Hn Hpos Ht Htimes.
  - simpl. split; [done|]. rewrite Hn. f_equal. lia.
  - apply Forall_cons in Htimes as [Hnow Htimes]. rewrite rateLimit_checks_cons.
    destruct (rateLimit_check_within now key maxAttempts window rl n t Hn ltac:(lia) Ht Hnow)
      as (Hok & Hn1 & Ht1).
    destruct (IH _ (n + 1) Hn1 ltac:(lia) Ht1 Htimes) as [Hoks Hcount].
    cbn [fst snd length]. split.
    + rewrite Hok, Hoks.
      change (seq 1 (S (length times))) with (1%nat :: seq 2 (length times)).
      rewrite fmap_cons. apply (f_equal2 cons); [apply bool_decide_ext; lia|].
      rewrite <- (fmap_S_seq 1), <- list_fmap_compose.
      apply list_fmap_ext. intros _ i _. simpl. apply bool_decide_ext. lia.
    + rewrite Hcount. f_equal. lia.
Qed.

(** A key that names a property every object inherits is refused on its
    first call, whose [++] leaves [NaN], and counted from the second. *)
Lemma rateLimit_checks_inherited_key :
  (rateLimit_checks [0; 1] "constructor" 5 10 (mkRateLimit ∅ ∅ 0 ∅)).1 = [false; true].
Proof. vm_compute. reflexivity. Qed.

(** [rateLimit.check] admits the first [maxAttempts] calls of a window and
    refuses the rest: for a key it has not counted, and that is no name of a
    property the counter objects inherit from [Object.prototype], the calls
    made from the first one until the window it opens is over get [true] for
    as long as their number is at most [maxAttempts], and [false] after
    that. *)
Theorem rate_limit_admits_first_calls_only
    (first : Z) (later : list Z) (key : string) (maxAttempts window : Z) (rl : RateLimit) :
  0 ≤ window → key ∉ inheritedNames → attempts rl !! key = None →
  Forall (λ now, now ≤ first + window) later →
  (rateLimit_checks (first :: later) key maxAttempts window rl).1 =
    (λ i, bool_decide (Z.of_nat i ≤ maxAttempts)) <$> seq 1 (S (length later)).
Proof.
  intros Hw Hkey Hfresh Hlater. rewrite rateLimit_checks_cons.
  destruct (rateLimit_check_restart first key maxAttempts window rl Hw Hkey
              (or_introl Hfresh))
    as (Hok & Hn1 & Ht1).
  destruct (rateLimit_checks_within later key maxAttempts window _ 1 (first + window)
              Hn1 ltac:(lia) Ht1 Hlater) as [Hoks _].
  cbn [fst snd]. rewrite Hok, Hoks.
  change (seq 1 (S (length later))) with (1%nat :: seq 2 (length later)).
  rewrite fmap_cons. apply (f_equal2 cons); [apply bool_decide_ext; lia|].
  rewrite <- (fmap_S_seq 1), <- list_fmap_compose.
  apply list_fmap_ext. intros _ i _. simpl. apply bool_decide_ext. lia.
Qed.

(** Once the window of a key is over, the next call is counted as the first
    of a new window, however many attempts were counted before; the key is
    no name of a property the counter objects inherit from
    [Object.prototype]. *)
Theorem rate_limit_reopens_after_window
    (now : Z) (key : string) (maxAttempts window : Z) (rl : RateLimit) (t : Z) :
  0 ≤ window → key ∉ inheritedNames → resetTimers rl !! key = Some t → t < now →
  (rateLimit_check now key maxAttempts window rl).1 = bool_decide (1 ≤ maxAttempts) ∧
  attempts (rateLimit_check now key maxAttempts window rl).2 !! key = Some 1 ∧
  resetTimers (rateLimit_check now key maxAttempts window rl).2 !! key = Some (now + window).
Proof.
  intros Hw Hkey Ht Hlate. apply rateLimit_check_restart; [done|done|]. right. by exists t.
Qed.

(** ** Verifying a booking *)

Lemma string_length_app (s t : string) :
  String.length (s +:+ t) = (String.length s + String.length t)%nat.
Proof. induction s as [|c s IH]; simpl; [done|]. by rewrite IH. Qed.

Lemma string_app_inj_prefix (s1 s2 t1 t2 : string) :
  String.length s1 = String.length s2 → s1 +:+ t1 = s2 +:+ t2 → s1 = s2.
Proof.
  revert s2. induction s1 as [|c s1 IH]; intros [|c2 s2] Hlen Happ; simpl in *; try done.
  injection Happ as -> Happ. f_equal. apply IH; [lia|done].
Qed.

(** Codes of one length match exactly when they are equal, and a code always
    matches itself. *)
Lemma codeMatches_same_length (stored code : string) :
  String.length code = String.length stored →
  codeMatches (Some stored) code = bool_decide (code = stored).
Proof.
  intros Hlen. unfold codeMatches, padEnd32. cbn zeta.
  rewrite !string_length_app, Hlen, decide_True by done.
  apply bool_decide_ext. split.
  - intros H. symmetry. by apply (string_app_inj_prefix _ _ _ _ (eq_sym Hlen)) in H.
  - by intros ->.
Qed.

(** What [verifyBooking] does once the limiter has admitted the call. *)
Lemma verifyBooking_admitted (now : Z) (bookingId : ObjectId) (code : string) (w : World)
    (booking : Booking.t) :
  (rateLimit_check now (verifyKey bookingId) 5 (15 * 60 * 1000) (rateLimit w)).1 = true →
  Booking_findById (db w) bookingId = Some booking →
  Booking.verified booking = false →
  let w' := (run (verifyBooking now bookingId code) w).1 in
  let r := (run (verifyBooking now bookingId code) w).2 in
  if codeMatches (Booking.verificationCode booking) code
  then success r = true ∧ statusCode r = 200 ∧ body r = BookingId bookingId ∧
       db w' = Booking_update bookingId markVerified (db w) ∧
       sessionBookingId <$> session w' = (λ _, None) <$> session w
  else success r = false ∧ statusCode r = 400 ∧ db w' = db w ∧ session w' = session w.
Proof.
  intros Hadmit Hfind Hunverified. cbn zeta.
  destruct (Booking_findById_elem _ _ _ Hfind) as [_ Hid].
  apply (wp_run _ (λ w' r,
    if codeMatches (Booking.verificationCode booking) code
    then success r = true ∧ statusCode r = 200 ∧ body r = BookingId bookingId ∧
         db w' = Booking_update bookingId markVerified (db w) ∧
         sessionBookingId <$> session w' = (λ _, None) <$> session w
    else success r = false ∧ statusCode r = 400 ∧ db w' = db w ∧ session w' = session w)).
  unfold verifyBooking. apply wp_bind. unfold wp at 1, checkRateLimit.
  destruct (rateLimit_check now (verifyKey bookingId) 5 (15 * 60 * 1000) (rateLimit w))
    as [ok rl] eqn:Hcheck. simpl in Hadmit. subst ok. cbn [fst snd negb].
  apply wp_bind, wp_query. cbn [db]. rewrite Hfind, Hunverified.
  destruct (codeMatches (Booking.verificationCode booking) code); cbn [negb].
  - apply wp_bind, wp_update, wp_bind, wp_setSession, wp_reply. rewrite Hid.
    repeat split; try done. simpl. by destruct (session w).
  - by apply wp_reply.
Qed.

(** [verifyBooking], when the limiter admits the call, accepts a code of
    the length of the stored one exactly when it is the stored code: the
    booking is then stored verified, nothing else of the store changes, and
    the session forgets the booking id; any other code of that length is
    answered 400 and changes nothing. *)
Theorem verify_accepts_exactly_the_stored_code
    (now : Z) (bookingId : ObjectId) (code stored : string) (w : World) (booking : Booking.t) :
  (rateLimit_check now (verifyKey bookingId) 5 (15 * 60 * 1000) (rateLimit w)).1 = true →
  Booking_findById (db w) bookingId = Some booking →
  Booking.verified booking = false →
  Booking.verificationCode booking = Some stored →
  String.length code = String.length stored →
  let w' := (run (verifyBooking now bookingId code) w).1 in
  let r := (run (verifyBooking now bookingId code) w).2 in
  (success r = true ↔ code = stored) ∧
  (code = stored →
   db w' = Booking_update bookingId markVerified (db w) ∧
   Booking_findById (db w') bookingId = Some (markVerified booking) ∧
   sessionBookingId <$> session w' = (λ _, None) <$> session w) ∧
  (code ≠ stored → statusCode r = 400 ∧ db w' = db w ∧ session w' = session w).
Proof.
  intros Hadmit Hfind Hunverified Hstored Hlen. cbn zeta.
  pose proof (verifyBooking_admitted now bookingId code w booking Hadmit Hfind Hunverified)
    as Hrun. cbn zeta in Hrun.
  rewrite Hstored, (codeMatches_same_length stored code Hlen) in Hrun.
  destruct (Booking_findById_elem _ _ _ Hfind) as [_ Hid].
  case_bool_decide as Hcode.
  - destruct Hrun as (Hs & _ & _ & Hdb & Hsess). split; [by rewrite Hs|]. split; [|done].
    intros _. split; [done|]. split; [|done].
    rewrite Hdb, Booking_findById_update by done. rewrite Hfind. simpl.
    by rewrite decide_True.
  - destruct Hrun as (Hs & Hcode400 & Hdb & Hsess). split; [by rewrite Hs|]. by split.
Qed.

(** Guessing is bounded: once five attempts on a booking are counted in a
    window that is not over, [verifyBooking] answers 429 and touches neither
    the store nor the session, whatever the code, the right one included. *)
Theorem verify_refuses_further_guesses
    (now : Z) (bookingId : ObjectId) (code : string) (w : World) (n t : Z) :
  attempts (rateLimit w) !! verifyKey bookingId = Some n → 5 ≤ n →
  resetTimers (rateLimit w) !! verifyKey bookingId = Some t → now ≤ t →
  let w' := (run (verifyBooking now bookingId code) w).1 in
  let r := (run (verifyBooking now bookingId code) w).2 in
  statusCode r = 429 ∧ success r = false ∧ db w' = db w ∧ session w' = session w ∧
  attempts (rateLimit w') !! verifyKey bookingId = Some (n + 1).
Proof.
  intros Hn Hfive Ht Hnow. cbn zeta.
  destruct (rateLimit_check_within now (verifyKey bookingId) 5 (15 * 60 * 1000)
              (rateLimit w) n t Hn ltac:(lia) Ht Hnow) as (Hok & Hcount & _).
  rewrite bool_decide_eq_false_2 in Hok by lia.
  apply (wp_run _ (λ w' r,
    statusCode r = 429 ∧ success r = false ∧ db w' = db w ∧ session w' = session w ∧
    attempts (rateLimit w') !! verifyKey bookingId = Some (n + 1))).
  unfold verifyBooking. apply wp_bind. unfold wp at 1, checkRateLimit.
  destruct (rateLimit_check now (verifyKey bookingId) 5 (15 * 60 * 1000) (rateLimit w))
    as [ok rl] eqn:Hcheck. simpl in Hok, Hcount. subst ok. cbn [fst snd negb].
  by apply wp_reply.
Qed.

(** ** From the lock to the booking *)

Lemma bookingDataOf_world (now : Z) (req : ClientInfo) (w : World) :
  (bookingDataOf now req w).1 = w.
Proof. unfold bookingDataOf. by repeat case_match. Qed.

(** The find-or-create step writes to the clients only. *)
Lemma wp_findOrCreateClient_frame now clientName phone email cc
    (Q : World → Response + Client.t → Prop) w :
  (∀ resp, success resp = false → Q w (inl resp)) →
  (∀ cs client, Q (withDb (set_clients cs (db w)) w) (inr client)) →
  wp (findOrCreateClient now clientName phone email cc) Q w.
Proof.
  intros Hfail Hok. unfold findOrCreateClient.
  apply wp_bind, wp_query.
  destruct (Client_findByEmail (db w) email) as [client|].
  - destruct (Client.isBlocked client); [by apply wp_reply, Hfail|].
    destruct (bool_decide (Client.name client ≠ _ ∨ _)).
    + destruct (negb (validClientPaths _ _)); [by apply wp_reply, Hfail|].
      apply wp_bind, wp_update, wp_ret. apply Hok.
    + apply wp_ret. replace w with (withDb (set_clients (clients (db w)) (db w)) w) at 1.
      * apply Hok.
      * destruct w as [[] ? ? ?]. done.
  - apply wp_bind, wp_query.
    destruct (negb (validClientPaths _ _)); [by apply wp_reply, Hfail|].
    apply wp_bind, wp_update, wp_ret. apply Hok.
Qed.

Lemma blockedDates_sendMail mail kind now to id st :
  blockedDates (sendMail mail kind now to id st).2 = blockedDates st.
Proof.
  unfold sendMail. case_decide; [done|]. destruct (mail kind to id); simpl; try done.
  assert (blockedDates (incrementDailyEmailCounter now to st) = blockedDates st) as H1.
  { unfold incrementDailyEmailCounter. destruct (Client_findByEmail st to); [|done].
    unfold Client_incrementEmailCounter. by case_decide. }
  by destruct id.
Qed.

Lemma Booking_update_fresh (id : ObjectId) (f : Booking.t → Booking.t) (l : list Booking.t)
    (b : Booking.t) :
  id = freshId (Booking._id <$> l) → Booking._id b = id →
  (λ x, if decide (Booking._id x = id) then f x else x) <$> (l ++ [b]) = l ++ [f b].
Proof.
  intros Hid Hb. rewrite fmap_app. simpl. rewrite decide_True by done. f_equal.
  rewrite <- (list_fmap_id l) at 2. apply list_fmap_ext. intros _ x Hx%list_elem_of_lookup_2.
  simpl. rewrite decide_False; [done|].
  apply (list_elem_of_fmap_2 Booking._id) in Hx. apply freshId_gt in Hx. lia.
Qed.

(** What an accepted [completeBooking] has stored: one new booking, pending
    and not verified, with the drawn code and the service, date and time of
    the booking data; the lock of the session on that slot is gone; the
    session is left with the id of the booking. *)
Lemma completeBooking_success
    (mail : Mailer) (now : Z) (sessionID verificationCode : string) (req : ClientInfo)
    (w : World) :
  success (run (completeBooking mail now sessionID verificationCode req) w).2 = true →
  let w' := (run (completeBooking mail now sessionID verificationCode req) w).1 in
  let r := (run (completeBooking mail now sessionID verificationCode req) w).2 in
  ∃ stored serviceId date time,
    (bookingDataOf now req w).2 = inr (Some serviceId, Some date, Some time) ∧
    body r = BookingId (Booking._id stored) ∧
    Booking._id stored = freshId (Booking._id <$> bookings (db w)) ∧
    Booking.status stored = pending ∧ Booking.verified stored = false ∧
    Booking.verificationCode stored = Some verificationCode ∧
    Booking.service stored = serviceId ∧ Booking.date stored = date ∧
    Booking.time stored = time ∧
    bookings (db w') = bookings (db w) ++ [stored] ∧
    timeLocks (db w') = timeLocks (TimeLock_deleteOne date time serviceId sessionID (db w)) ∧
    services (db w') = services (db w) ∧
    blockedDates (db w') = blockedDates (db w) ∧
    session w' = (λ _, mkSession None None (Some (Booking._id stored))) <$> session w.
Proof.
  cbn zeta.
  apply (wp_run _ (λ w' r,
    success r = true →
    ∃ stored serviceId date time,
      (bookingDataOf now req w).2 = inr (Some serviceId, Some date, Some time) ∧
      body r = BookingId (Booking._id stored) ∧
      Booking._id stored = freshId (Booking._id <$> bookings (db w)) ∧
      Booking.status stored = pending ∧ Booking.verified stored = false ∧
      Booking.verificationCode stored = Some verificationCode ∧
      Booking.service stored = serviceId ∧ Booking.date stored = date ∧
      Booking.time stored = time ∧
      bookings (db w') = bookings (db w) ++ [stored] ∧
      timeLocks (db w') = timeLocks (TimeLock_deleteOne date time serviceId sessionID (db w)) ∧
      services (db w') = services (db w) ∧
      blockedDates (db w') = blockedDates (db w) ∧
      session w' = (λ _, mkSession None None (Some (Booking._id stored))) <$> session w)).
  unfold completeBooking. apply wp_bind. unfold wp at 1.
  pose proof (bookingDataOf_world now req w) as Hworld.
  destruct (bookingDataOf now req w) as [w0 [resp|[[bookingServiceId bookingDate] bookingTime]]]
    eqn:Hdata; simpl in Hworld; subst w0; cbn [fst snd].
  { unfold bookingDataOf in Hdata. repeat case_match; by simplify_eq. }
  destruct bookingServiceId as [bookingServiceId|]; [|by apply wp_reply].
  destruct bookingDate as [bookingDate|]; [|by apply wp_reply].
  destruct bookingTime as [bookingTime|]; [|by apply wp_reply].
  case_decide; [by apply wp_reply|].
  case_decide; [by apply wp_reply|].
  case_decide; [by apply wp_reply|].
  apply wp_bind, wp_lookupService. intros cache [service|]; [|by apply wp_reply].
  apply wp_bind, wp_checkRateLimit. intros ok rl.
  destruct (negb ok); [by apply wp_reply|].
  apply wp_bind, wp_findOrCreateClient_frame; [intros resp Hs; by rewrite Hs|].
  intros cs client. cbn [db withDb].
  destruct (usageExhausted _); [by apply wp_reply|].
  apply wp_bind, wp_query. cbn [db withDb].
  change (bookings (set_clients cs (db w))) with (bookings (db w)).
  set (id := freshId (Booking._id <$> bookings (db w))).
  set (booking := newBooking id now (Client._id client) _ _ _ _ _ _ _ _).
  apply wp_bind.
  destruct (validBookingPaths _ _ _); [|by apply wp_reply].
  apply wp_update, wp_bind, wp_update, wp_bind.
  destruct (validCount _); [|by apply wp_reply].
  apply wp_effect, wp_bind, wp_effect.
  cbn [db withDb fst snd Client_saveTotal].
  set (st2 := Client_update _ _ (TimeLock_deleteOne _ _ _ _ (Booking_insert booking _))).
  unfold sendVerificationEmail.
  destruct (sendMail mail Verification now (ci_email req) (Some (Booking._id booking)) st2).1
    eqn:Hsent; cbn [negb].
  - apply wp_bind, wp_effect, wp_bind, wp_setSession, wp_reply. intros _.
    cbn [db withDb session body].
    assert (∃ stored,
              bookings (sendMail mail Verification now (ci_email req)
                          (Some (Booking._id booking)) st2).2 = bookings (db w) ++ [stored] ∧
              (stored = booking ∨ stored = Booking.count_email now booking)) as
      (stored & Hbookings & Hstored).
    { destruct (bookings_sendMail mail Verification now (ci_email req) (Booking._id booking) st2)
        as [-> | ->].
      - exists booking. by split; [|left].
      - exists (Booking.count_email now booking). split; [|by right].
        simpl. by apply Booking_update_fresh. }
    exists stored, bookingServiceId, bookingDate, bookingTime.
    assert (Booking._id stored = id ∧ Booking.status stored = pending ∧
            Booking.verified stored = false ∧
            Booking.verificationCode stored = Some verificationCode ∧
            Booking.service stored = bookingServiceId ∧ Booking.date stored = bookingDate ∧
            Booking.time stored = bookingTime) as (Hid & Hst & Hv & Hcode & Hsvc & Hdate & Htime).
    { destruct Hstored as [-> | ->]; [done|].
      unfold Booking.count_email. by case_decide. }
    split; [done|]. split; [by rewrite Hid|]. split; [done|]. split; [done|].
    split; [done|]. split; [done|]. split; [done|]. split; [done|]. split; [done|].
    split; [by rewrite bookings_Client_incrementEmailCounter|].
    destruct (sameLocks_Client_incrementEmailCounter now
                (Client.touch now (Client.set_totalBookings (Client.totalBookings client + 1)
                                     client))
                (sendMail mail Verification now (ci_email req)
                   (Some (Booking._id booking)) st2).2) as [Hlocks Hservices].
    destruct (sameLocks_sendMail mail Verification now (ci_email req)
                (Some (Booking._id booking)) st2) as [Hlocks2 Hservices2].
    split; [by rewrite Hlocks, Hlocks2|]. split; [by rewrite Hservices, Hservices2|].
    split.
    + unfold Client_incrementEmailCounter. case_decide; simpl; by rewrite blockedDates_sendMail.
    + rewrite Hid. by destruct (session w).
  - apply wp_bind, wp_update, wp_bind, wp_effect, wp_reply. done.
Qed.

Lemma overlappingBookings_complete (st : Store) (date : Z) (b : Booking.t) :
  (length (filter (λ b, onDayOf date (Booking.date b) ∧
                        (Booking.status b = pending ∨ Booking.status b = confirmed))
             (bookings st)) ≤ 50)%nat →
  b ∈ bookings st → onDayOf date (Booking.date b) →
  Booking.status b = pending ∨ Booking.status b = confirmed →
  b ∈ overlappingBookings st date.
Proof.
  intros Hlen Hin Hday Hst. unfold overlappingBookings.
  rewrite take_ge by done. by apply list_elem_of_filter.
Qed.

Lemma unavailable_by_booking (st : Store) (date : Z) (time : string) (duration : Z)
    (booking : Booking.t) :
  booking ∈ overlappingBookings st date →
  (∀ hour minute, TimeString.parse time = Some (hour, minute) → 0 < duration →
     bookingBlocks st (JsDate.setHours date hour minute 0 0)
       (JsDate.setHours date hour minute 0 0 + duration * 60000) booking = true) →
  isTimeSlotAvailable st date time duration = false.
Proof.
  intros Hin Hblocks. unfold isTimeSlotAvailable.
  destruct (decide (time = "")); [done|].
  destruct (decide (duration ≤ 0 ∨ 240 < duration)); [done|].
  destruct (TimeString.parse time) as [[hour minute]|]; [|done]. cbn zeta.
  destruct (decide (JsDate.getDay date = 0)); [done|].
  match goal with |- (if ?c then _ else _) = _ => destruct c end; [done|].
  destruct (existsb (lockBlocks _ _ _) _); [done|].
  assert (existsb (bookingBlocks st (JsDate.setHours date hour minute 0 0)
                     (JsDate.setHours date hour minute 0 0 + duration * 60000))
            (overlappingBookings st date) = true) as ->; [|done].
  apply existsb_elem_of. exists booking. split; [done|]. apply Hblocks; [done|lia].
Qed.

Lemma Booking_findById_last (l : list Booking.t) (b : Booking.t) (st : Store) :
  bookings st = l ++ [b] → Booking._id b = freshId (Booking._id <$> l) →
  Booking_findById st (Booking._id b) = Some b.
Proof.
  intros Hl Hid. unfold Booking_findById. rewrite Hl, filter_app.
  rewrite (nil_of_no_elem (filter _ l)).
  - simpl. by rewrite filter_cons, decide_True.
  - intros x [Hx Hin]%list_elem_of_filter.
    apply (list_elem_of_fmap_2 Booking._id) in Hin. apply freshId_gt in Hin. lia.
Qed.

(** A slot that [completeBooking] has booked is not offered again: with the
    new pending booking stored, the availability check refuses its date and
    time for a service of any duration.  (The service of the booking is
    stored with a positive duration, and the day had fewer than 50 pending or
    confirmed bookings, the number the check reads.) *)
Theorem booked_slot_is_unavailable
    (mail : Mailer) (now : Z) (sessionID verificationCode : string) (req : ClientInfo)
    (w : World) (serviceId date : Z) (time : string) (service : Service.t) :
  success (run (completeBooking mail now sessionID verificationCode req) w).2 = true →
  (bookingDataOf now req w).2 = inr (Some serviceId, Some date, Some time) →
  Service_findById (db w) serviceId = Some service → 0 < Service.duration service →
  (length (filter (λ b, onDayOf date (Booking.date b) ∧
                        (Booking.status b = pending ∨ Booking.status b = confirmed))
             (bookings (db w))) < 50)%nat →
  let w' := (run (completeBooking mail now sessionID verificationCode req) w).1 in
  ∀ duration, isTimeSlotAvailable (db w') date time duration = false.
Proof.
  intros Hok Hdata Hservice Hpos Hfew. cbn zeta. intros duration.
  destruct (completeBooking_success mail now sessionID verificationCode req w Hok)
    as (stored & sid & d & t & Hdata' & _ & Hid & Hst & _ & _ & Hsvc & Hdate & Htime &
        Hbookings & _ & Hservices & _).
  rewrite Hdata in Hdata'. injection Hdata' as <- <- <-.
  apply (unavailable_by_booking _ _ _ _ stored).
  - apply overlappingBookings_complete.
    + rewrite Hbookings, filter_app, length_app, filter_cons.
      rewrite decide_True by (rewrite Hdate, Hst; split; [apply onDayOf_self|by left]).
      simpl. lia.
    + rewrite Hbookings. apply elem_of_app. right. apply list_elem_of_here.
    + rewrite Hdate. apply onDayOf_self.
    + by left.
  - intros hour minute Hparse Hd.
    apply (bookingBlocks_spec _ _ _ _ service (JsDate.setHours date hour minute 0 0));
      [done|done| | |lia].
    + unfold Service_findById in *. by rewrite Hservices, Hsvc.
    + unfold TimeString.at_. by rewrite Hdate, Htime, Hparse.
Qed.

(** The code that [completeBooking] mails is the code that [verifyBooking]
    accepts: after an accepted [completeBooking], a [verifyBooking] with the
    id it answered and the code it drew, admitted by the limiter, succeeds,
    and the booking is then among those [Booking.find({ status: 'pending',
    verified: true })] returns to the staff and to the sweep. *)
Theorem mailed_code_verifies
    (mail : Mailer) (now later : Z) (sessionID verificationCode : string) (req : ClientInfo)
    (w : World) :
  success (run (completeBooking mail now sessionID verificationCode req) w).2 = true →
  let w1 := (run (completeBooking mail now sessionID verificationCode req) w).1 in
  let id := freshId (Booking._id <$> bookings (db w)) in
  (rateLimit_check later (verifyKey id) 5 (15 * 60 * 1000) (rateLimit w1)).1 = true →
  body (run (completeBooking mail now sessionID verificationCode req) w).2 = BookingId id ∧
  success (run (verifyBooking later id verificationCode) w1).2 = true ∧
  ∃ verified,
    verified ∈ pendingVerifiedBookings (db (run (verifyBooking later id verificationCode) w1).1) ∧
    Booking._id verified = id.
Proof.
  intros Hok. cbn zeta. intros Hadmit.
  destruct (completeBooking_success mail now sessionID verificationCode req w Hok)
    as (stored & sid & d & t & _ & Hbody & Hid & Hst & Hv & Hcode & _ & _ & _ &
        Hbookings & _).
  rewrite <- Hid in *. split; [done|].
  assert (Booking_findById
            (db (run (completeBooking mail now sessionID verificationCode req) w).1)
            (Booking._id stored) = Some stored) as Hfind.
  { by apply (Booking_findById_last (bookings (db w))). }
  pose proof (verifyBooking_admitted later (Booking._id stored) verificationCode _ stored
                Hadmit Hfind Hv) as Hrun. cbn zeta in Hrun.
  rewrite Hcode, (codeMatches_same_length verificationCode verificationCode eq_refl) in Hrun.
  rewrite bool_decide_eq_true_2 in Hrun by done.
  destruct Hrun as (Hs & _ & _ & Hdb & _). split; [done|].
  exists (markVerified stored). split; [|done].
  rewrite Hdb. unfold pendingVerifiedBookings. apply list_elem_of_filter. split; [done|].
  simpl. apply list_elem_of_fmap. exists stored. split.
  - by rewrite decide_True.
  - rewrite Hbookings. apply elem_of_app. right. apply list_elem_of_here.
Qed.

Lemma deleteOne_app_last {A} (matches : A → bool) (l : list A) (b : A) :
  (∀ x, x ∈ l → matches x = false) → matches b = true →
  deleteOne matches (l ++ [b]) = l.
Proof.
  intros Hl Hb. induction l as [|x l IH]; simpl; [by rewrite Hb|].
  rewrite (Hl x) by apply list_elem_of_here. f_equal. apply IH.
  intros y Hy. apply Hl. by apply list_elem_of_further.
Qed.

(** The lock is handed over to the booking: when the session that locked a
    slot with [createBooking] completes the booking of that slot, the lock
    is deleted and the locks are as they were before [createBooking]. *)
Theorem lock_is_released_by_the_booking
    (mail : Mailer) (now later : Z) (sessionID verificationCode : string)
    (serviceId date : Z) (time : string) (req : ClientInfo) (w : World) :
  success (run (createBooking now sessionID serviceId date time) w).2 = true →
  let w1 := (run (createBooking now sessionID serviceId date time) w).1 in
  (bookingDataOf later req w1).2 = inr (Some serviceId, Some date, Some time) →
  success (run (completeBooking mail later sessionID verificationCode req) w1).2 = true →
  let w2 := (run (completeBooking mail later sessionID verificationCode req) w1).1 in
  TimeLock.mk date time serviceId sessionID now ∈ timeLocks (db w1) ∧
  timeLocks (db w2) = timeLocks (db w).
Proof.
  intros Hcreated. cbn zeta. intros Hdata Hcompleted.
  destruct (createBooking_locks now sessionID serviceId date time w) as [Hfail|Hlocked];
    cbn zeta in *; [destruct Hfail as [Hfail _]; congruence|].
  destruct Hlocked as (_ & Hfresh & Hlocks1).
  split; [rewrite Hlocks1; apply elem_of_app; right; apply list_elem_of_here|].
  destruct (completeBooking_success mail later sessionID verificationCode req _ Hcompleted)
    as (stored & sid & d & t & Hdata' & _ & _ & _ & _ & _ & _ & _ & _ & _ & Hlocks2 & _).
  rewrite Hdata in Hdata'. injection Hdata' as <- <- <-.
  rewrite Hlocks2. simpl. rewrite Hlocks1. apply deleteOne_app_last.
  - intros lock Hin. apply bool_decide_eq_false_2. intros (Hd & Ht & Hs & _).
    apply Hfresh. apply list_elem_of_fmap. exists lock. split; [|done].
    unfold lockKey. by rewrite Hd, Ht, Hs.
  - by apply bool_decide_eq_true_2.
Qed.

(** The booking data of the session expire: a [completeBooking] that comes
    more than [BOOKING_SESSION_TIMEOUT_MINS] minutes after the
    [createBooking] of its session is answered 400 and changes nothing. *)
Theorem session_booking_data_expire
    (mail : Mailer) (now later : Z) (sessionID verificationCode : string)
    (serviceId date : Z) (time : string) (req : ClientInfo) (w : World) :
  is_Some (session w) → 0 ≤ now → now + 15 * 60 * 1000 < later →
  success (run (createBooking now sessionID serviceId date time) w).2 = true →
  let w1 := (run (createBooking now sessionID serviceId date time) w).1 in
  run (completeBooking mail later sessionID verificationCode req) w1 =
    (w1, errorResponse 400
           "Sesiunea a expirat. Vă rugăm să începeți procesul de rezervare din nou.").
Proof.
  intros [s Hs] Hnow Hlate Hcreated. cbn zeta.
  destruct (createBooking_success now sessionID serviceId date time w Hcreated)
    as (_ & Hsession & _). rewrite Hs in Hsession. simpl in Hsession.
  set (w1 := (run (createBooking now sessionID serviceId date time) w).1) in *.
  clearbody w1.
  unfold run, completeBooking, bind, bookingDataOf. rewrite Hsession. simpl.
  destruct (_ + _) eqn:Hexpiry; [lia| |lia].
  rewrite <- Hexpiry. by rewrite decide_True by lia.
Qed.

(** ** The other passes of the sweep *)

Lemma filter_ext_elem {A} (P Q : A → Prop) `{!∀ x, Decision (P x)} `{!∀ x, Decision (Q x)}
    (l : list A) :
  (∀ x, x ∈ l → P x ↔ Q x) → filter P l = filter Q l.
Proof.
  induction l as [|x l IH]; intros Hext; [done|].
  rewrite !filter_cons.
  rewrite IH by (intros y Hy; apply Hext; by apply list_elem_of_further).
  pose proof (Hext x (list_elem_of_here _ _)) as Hx.
  destruct (decide (P x)), (decide (Q x)); try done; tauto.
Qed.

Lemma length_filter_split {A} (P : A → Prop) `{!∀ x, Decision (P x)} (l : list A) :
  (length (filter P l) + length (filter (λ x, ¬ P x) l) = length l)%nat.
Proof.
  induction l as [|x l IH]; [done|].
  rewrite !filter_cons. destruct (decide (P x)).
  - rewrite decide_False by tauto. simpl. lia.
  - rewrite decide_True by done. simpl. lia.
Qed.

Lemma foldl_dropUnconfirmed_exact now l acc :
  bookings (store (foldl (dropUnconfirmed now) acc l)) =
  filter (λ b, Booking._id b ∉ Booking._id <$> l) (bookings (store acc)).
Proof.
  revert acc. induction l as [|x l IH]; intros acc; simpl.
  - symmetry. apply filter_all. intros b _. apply not_elem_of_nil.
  - rewrite IH. unfold dropUnconfirmed.
    pose proof (bookings_releaseClientBooking now x (store acc) (docs acc)) as Hrel.
    destruct (releaseClientBooking _ _ _ _) as [st1 ds1]. simpl in *. rewrite Hrel.
    rewrite list_filter_filter. apply filter_ext_elem. intros b _.
    rewrite not_elem_of_cons. tauto.
Qed.

Lemma foldl_dropUnconfirmed_cleaned now l acc :
  cleaned (counts (foldl (dropUnconfirmed now) acc l)) =
    cleaned (counts acc) + Z.of_nat (length l) ∧
  errors (counts (foldl (dropUnconfirmed now) acc l)) = errors (counts acc).
Proof.
  revert acc. induction l as [|x l IH]; intros acc; [simpl; split; [lia|done]|].
  cbn [foldl length]. destruct (IH (dropUnconfirmed now acc x)) as [-> ->]. unfold dropUnconfirmed.
  destruct (releaseClientBooking _ _ _ _) as [st1 ds1]. simpl. split; [lia|done].
Qed.

Lemma foldl_dropUnconfirmed_blockedDates now l acc :
  blockedDates (store (foldl (dropUnconfirmed now) acc l)) = blockedDates (store acc).
Proof.
  revert acc. induction l as [|x l IH]; intros acc; [done|].
  cbn [foldl]. rewrite IH. unfold dropUnconfirmed, releaseClientBooking.
  by destruct (clientDoc _ _).
Qed.

Lemma NoDup_ids_booking (l : list Booking.t) (b b' : Booking.t) :
  NoDup (Booking._id <$> l) → b ∈ l → b' ∈ l → Booking._id b = Booking._id b' → b = b'.
Proof.
  intros Hnd (i & Hi)%list_elem_of_lookup_1 (j & Hj)%list_elem_of_lookup_1 Hid.
  assert (i = j) as ->; [|congruence].
  apply (NoDup_lookup _ i j (Booking._id b) Hnd); rewrite list_lookup_fmap.
  - by rewrite Hi.
  - rewrite Hj. simpl. by rewrite Hid.
Qed.

Lemma cleanupUnconfirmedBookings_exact now st :
  bookings (cleanupUnconfirmedBookings now st).1 =
  filter (λ b, Booking._id b ∉ Booking._id <$> oldUnconfirmedBookings now st) (bookings st).
Proof.
  unfold cleanupUnconfirmedBookings.
  destruct (oldUnconfirmedBookings now st) as [|x l] eqn:Hl.
  - simpl. symmetry. apply filter_all. intros; apply not_elem_of_nil.
  - rewrite <- Hl. cbn [fst]. by rewrite foldl_dropUnconfirmed_exact.
Qed.

(** The pass over the abandoned bookings deletes exactly the bookings that
    are pending, not verified and created more than 15 minutes before; every
    other booking stays where and as it was, the pass reports the number it
    deleted, and it touches nothing else than bookings and clients.
    (Booking ids are unique.) *)
Theorem unconfirmed_sweep_deletes_exactly_the_abandoned (now : Z) (st : Store) :
  NoDup (Booking._id <$> bookings st) →
  let st' := (cleanupUnconfirmedBookings now st).1 in
  let report := (cleanupUnconfirmedBookings now st).2 in
  bookings st' =
    filter (λ b, ¬ (Booking.status b = pending ∧ Booking.verified b = false ∧
                    Booking.createdAt b < now - 15 * 60 * 1000))
           (bookings st) ∧
  cleaned report = Z.of_nat (length (bookings st)) - Z.of_nat (length (bookings st')) ∧
  errors report = 0 ∧
  timeLocks st' = timeLocks st ∧ blockedDates st' = blockedDates st ∧
  services st' = services st.
Proof.
  intros Hnd. cbn zeta.
  set (abandoned := λ b, Booking.status b = pending ∧ Booking.verified b = false ∧
                         Booking.createdAt b < now - 15 * 60 * 1000).
  assert (oldUnconfirmedBookings now st = filter abandoned (bookings st)) as Hold.
  { unfold oldUnconfirmedBookings. apply filter_ext_elem. intros b _.
    unfold abandoned, JsDate.addMinutes, JsDate.msPerMinute.
    replace (now + -15 * 60000) with (now - 15 * 60 * 1000) by lia. done. }
  assert (filter (λ b, ¬ abandoned b) (bookings st) =
          filter (λ b, Booking._id b ∉ Booking._id <$> oldUnconfirmedBookings now st)
                 (bookings st)) as Hsame.
  { apply filter_ext_elem. intros b Hb. rewrite Hold. split.
    - intros Hnot (b' & Hid & [Hab Hb']%list_elem_of_filter)%list_elem_of_fmap.
      by rewrite (NoDup_ids_booking _ b b' Hnd Hb Hb' Hid) in Hnot.
    - intros Hout Hab. apply Hout. apply list_elem_of_fmap_2.
      by apply list_elem_of_filter. }
  pose proof (length_filter_split abandoned (bookings st)) as Hcount.
  rewrite <- Hold in Hcount. rewrite Hsame in Hcount.
  change (filter _ (bookings st)) with (filter (λ b, ¬ abandoned b) (bookings st)) at 1.
  rewrite Hsame. clear Hsame Hold. clearbody abandoned.
  unfold cleanupUnconfirmedBookings.
  destruct (oldUnconfirmedBookings now st) as [|x l] eqn:Hl.
  - simpl in *. rewrite filter_all by (intros; apply not_elem_of_nil).
    repeat split; try done. rewrite filter_all in Hcount by (intros; apply not_elem_of_nil). lia.
  - rewrite <- Hl in *. cbn [fst snd].
    rewrite foldl_dropUnconfirmed_exact. cbn [store].
    destruct (foldl_dropUnconfirmed_cleaned now (oldUnconfirmedBookings now st)
                (mkSweep st (populateClients st (oldUnconfirmedBookings now st))
                   (mkCounts 0 0 0))) as [Hcleaned Herrors].
    split; [done|]. split; [rewrite Hcleaned; simpl; lia|]. split; [done|].
    pose proof (foldl_store_rel sameLocks (dropUnconfirmed now)
                  (oldUnconfirmedBookings now st)
                  (mkSweep st (populateClients st (oldUnconfirmedBookings now st))
                     (mkCounts 0 0 0))
                  (sameLocks_dropUnconfirmed now)) as [Hlocks Hservices].
    rewrite foldl_dropUnconfirmed_blockedDates. by simpl in *.
Qed.

Lemma declinedIf_ids note hit l k :
  Forall2 (declinedIf note hit) l k → Booking._id <$> k = Booking._id <$> l.
Proof.
  induction 1 as [|b b' l k (Hid & _) _ IH]; [done|]. rewrite !fmap_cons. by f_equal.
Qed.

Lemma cleanupDeclinedBookings_keeps now st b :
  b ∈ bookings st → ¬ oldDeclined now b → b ∈ bookings (cleanupDeclinedBookings now st).1.
Proof.
  intros Hb Hnot. unfold cleanupDeclinedBookings.
  destruct (filter (oldDeclined now) (bookings st)); [done|].
  simpl. by apply list_elem_of_filter.
Qed.

Lemma runFullCleanup_passes mail now st :
  (runFullCleanup mail now st).1 =
  (cleanupExpiredBlockedDates now
     (cleanupDeclinedBookings now
        (cleanupUnconfirmedBookings now
           (cleanupExpiredBookings mail now st).1).1).1).1.
Proof.
  unfold runFullCleanup.
  destruct (cleanupExpiredBookings mail now st) as [st1 c1]. simpl.
  destruct (cleanupUnconfirmedBookings now st1) as [st2 c2]. simpl.
  by destruct (cleanupDeclinedBookings now st2) as [st3 c3].
Qed.

(** A booking the cleanup has no reason to touch is still stored, unchanged,
    after a full cleanup: one that is not pending-verified with its moment
    passed, not pending-unverified and older than 15 minutes, and not
    declined and older than 7 days.  In particular no confirmed, completed
    or cancelled booking is ever removed or altered.  (Booking ids are
    unique.) *)
Theorem full_cleanup_spares_the_other_bookings
    (mail : Mailer) (now : Z) (st : Store) (b : Booking.t) :
  NoDup (Booking._id <$> bookings st) →
  b ∈ bookings st →
  ¬ (Booking.status b = pending ∧ Booking.verified b = true ∧ isExpired now b = true) →
  ¬ (Booking.status b = pending ∧ Booking.verified b = false ∧
     Booking.createdAt b < now - 15 * 60 * 1000) →
  ¬ (Booking.status b = declined ∧ Booking.createdAt b < now - 7 * 24 * 60 * 60 * 1000) →
  b ∈ bookings (runFullCleanup mail now st).1.
Proof.
  intros Hnd Hb Hexp Hab Hdec. rewrite runFullCleanup_passes.
  pose proof (cleanupExpiredBookings_bookings mail now st) as Hpass.
  set (st1 := (cleanupExpiredBookings mail now st).1) in *.
  assert (b ∈ bookings st1) as Hb1.
  { destruct (Forall2_elem_of_l _ _ _ _ Hpass Hb) as (b' & Hb' & _ & _ & Hmiss).
    rewrite <- Hmiss; [done|].
    intros (e & Hid & (He & ? & ? & ?)%expiredBookings_elem)%list_elem_of_fmap.
    rewrite (NoDup_ids_booking _ b e Hnd Hb He Hid) in Hexp. by apply Hexp. }
  assert (NoDup (Booking._id <$> bookings st1)) as Hnd1.
  { by rewrite (declinedIf_ids _ _ _ _ Hpass). }
  clearbody st1. clear Hpass.
  set (st2 := (cleanupUnconfirmedBookings now st1).1).
  assert (b ∈ bookings st2) as Hb2.
  { subst st2. rewrite cleanupUnconfirmedBookings_exact. apply list_elem_of_filter.
    split; [|done].
    intros (e & Hid & [Hold He]%oldUnconfirmedBookings_elem)%list_elem_of_fmap.
    rewrite <- (NoDup_ids_booking _ b e Hnd1 Hb1 He Hid) in Hold. apply Hab.
    unfold JsDate.addMinutes, JsDate.msPerMinute in Hold. split; [tauto|]. split; [tauto|lia]. }
  clearbody st2.
  change (bookings (cleanupExpiredBlockedDates now (cleanupDeclinedBookings now st2).1).1)
    with (bookings (cleanupDeclinedBookings now st2).1).
  apply cleanupDeclinedBookings_keeps; [done|].
  intros [Hst Hold]. apply Hdec. split; [done|].
  unfold JsDate.addDays, JsDate.msPerDay in Hold. lia.
Qed.

(** After a full cleanup nothing is left for it to clean: no stored booking
    is pending-verified with its moment passed, pending-unverified and older
    than 15 minutes, or declined and older than 7 days, and no blocked date
    lies before the last millisecond of the previous day; a second cleanup at
    the same time changes nothing; and the locks and services are as they
    were before the first. *)
Theorem full_cleanup_leaves_nothing_to_clean (mail : Mailer) (now : Z) (st : Store) :
  let st' := (runFullCleanup mail now st).1 in
  (∀ b, b ∈ bookings st' →
     ¬ (Booking.status b = pending ∧ Booking.verified b = true ∧ isExpired now b = true) ∧
     ¬ (Booking.status b = pending ∧ Booking.verified b = false ∧
        Booking.createdAt b < now - 15 * 60 * 1000) ∧
     ¬ (Booking.status b = declined ∧
        Booking.createdAt b < now - 7 * 24 * 60 * 60 * 1000)) ∧
  (∀ d, d ∈ blockedDates st' → JsDate.startOfDay now - 1 ≤ BlockedDate.date d) ∧
  (runFullCleanup mail now st').1 = st' ∧
  timeLocks st' = timeLocks st ∧ services st' = services st.
Proof.
  cbn zeta. split; [|split; [|split; [apply runFullCleanup_idem|apply sameLocks_runFullCleanup]]].
  - intros b. rewrite runFullCleanup_passes.
    change (bookings (cleanupExpiredBlockedDates now ?s).1) with (bookings s).
    intros [[Hb Hu]%cleanupUnconfirmedBookings_left Hd]%cleanupDeclinedBookings_left.
    split; [|split].
    + intros (Hst & Hv & Hexp).
      by rewrite (cleanupExpiredBookings_none_left mail now st b Hb Hst Hv) in Hexp.
    + intros (Hst & Hv & Hold). apply Hu, oldUnconfirmedBookings_elem. split; [|done].
      unfold JsDate.addMinutes, JsDate.msPerMinute. split; [done|]. split; [done|lia].
    + intros (Hst & Hold). apply Hd. split; [done|].
      unfold JsDate.addDays, JsDate.msPerDay. lia.
  - intros d. rewrite runFullCleanup_passes. unfold cleanupExpiredBlockedDates at 1.
    cbn [fst blockedDates set_blockedDates].
    intros [Hkeep _]%list_elem_of_filter. unfold blockExpired in Hkeep.
    unfold JsDate.endOfDay, JsDate.setHours, JsDate.addDays, JsDate.startOfDay,
      JsDate.msPerDay in *.
    replace (now + -1 * (24 * 60 * 60 * 1000)) with (now + (-1) * 86400000) in Hkeep by lia.
    rewrite Z_mod_plus_full in Hkeep. lia.
Qed.

(** ** A new verification code *)

Lemma renewCode_id code now b : Booking._id (renewCode code now b) = Booking._id b.
Proof. done. Qed.

(** What [resendVerificationCode] leaves behind. *)
Lemma resendVerificationCode_outcome mail now code id w :
  let w' := (run (resendVerificationCode mail now code id) w).1 in
  let r := (run (resendVerificationCode mail now code id) w).2 in
  session w' = session w ∧
  if success r
  then ∃ booking sent,
         Booking_findById (db w) id = Some booking ∧
         (sent = booking ∨ sent = Booking.count_email now booking) ∧
         Booking_findById (db w') id = Some (renewCode code now sent)
  else db w' = db w.
Proof.
  cbn zeta.
  apply (wp_run _ (λ w' r,
    session w' = session w ∧
    if success r
    then ∃ booking sent,
           Booking_findById (db w) id = Some booking ∧
           (sent = booking ∨ sent = Booking.count_email now booking) ∧
           Booking_findById (db w') id = Some (renewCode code now sent)
    else db w' = db w)).
  unfold resendVerificationCode.
  apply wp_bind, wp_checkRateLimit. intros ok rl.
  destruct (negb ok); [by apply wp_reply|].
  apply wp_bind, wp_query. cbn [db].
  destruct (Booking_findById (db w) id) as [booking|] eqn:Hfind; [|by apply wp_reply].
  destruct (Booking_findById_elem _ _ _ Hfind) as [_ Hid].
  apply wp_bind, wp_query, wp_bind, wp_query.
  destruct (usageExhausted _); [by apply wp_reply|].
  destruct (usageExhausted _); [by apply wp_reply|].
  apply wp_bind, wp_effect. cbn [db withDb]. unfold sendVerificationEmail.
  destruct (sendMail mail Verification now (Booking.email booking) (Some id) (db w)).1
    eqn:Hsent; cbn [negb].
  - assert (∃ sent, (sent = booking ∨ sent = Booking.count_email now booking) ∧
              Booking_findById
                (sendMail mail Verification now (Booking.email booking) (Some id) (db w)).2 id
              = Some sent) as (sent & Hsentb & Hfind1).
    { destruct (bookings_sendMail mail Verification now (Booking.email booking) id (db w))
        as [H|H]; rewrite (Booking_findById_same _ _ _ H).
      - exists booking. by split; [left|].
      - exists (Booking.count_email now booking). split; [by right|].
        rewrite Booking_findById_update by apply count_email_id. rewrite Hfind. simpl.
        by rewrite decide_True. }
    set (st1 := (sendMail mail Verification now (Booking.email booking) (Some id) (db w)).2)
      in *.
    apply wp_bind, wp_update. cbn [db withDb].
    assert (∀ st2, bookings st2 =
                   bookings (Booking_update (Booking._id booking) (renewCode code now) st1) →
              Booking_findById st2 id = Some (renewCode code now sent)) as Hdone.
    { intros st2 H. rewrite (Booking_findById_same _ _ _ H).
      rewrite Booking_findById_update by apply renewCode_id. rewrite Hfind1. simpl.
      rewrite decide_True; [done|].
      destruct (Booking_findById_elem _ _ _ Hfind1) as [_ Hid1]. congruence. }
    apply wp_bind. unfold countClientEmail.
    destruct (populateClient (db w) booking) as [doc|].
    + apply wp_bind, wp_effect, wp_ret, wp_reply. cbn [db withDb session success].
      split; [done|]. exists booking, sent. split; [done|]. split; [done|].
      apply Hdone. by rewrite bookings_Client_incrementEmailCounter.
    + apply wp_ret, wp_reply. cbn [db withDb session success].
      split; [done|]. exists booking, sent. split; [done|]. split; [done|]. by apply Hdone.
  - apply wp_reply. cbn [db withDb session success]. split; [done|].
    by apply sendMail_failed.
Qed.

(** A resent code replaces the stored one.  When [resendVerificationCode]
    fails, the store is as it was, so the code mailed before still stands.
    When it succeeds, the booking carries the new code and the time of the
    mail, with its status and verified flag as before; and a later
    [verifyBooking] of the unverified booking, admitted by the limiter, with
    a guess of the new code's length succeeds exactly when the guess is the
    new code: the code mailed before no longer verifies. *)
Theorem resent_code_replaces_the_stored_one
    (mail : Mailer) (now later : Z) (code : string) (id : ObjectId) (w : World) :
  let w1 := (run (resendVerificationCode mail now code id) w).1 in
  let r1 := (run (resendVerificationCode mail now code id) w).2 in
  (success r1 = false → db w1 = db w) ∧
  (success r1 = true →
   ∃ booking renewed,
     Booking_findById (db w) id = Some booking ∧
     Booking_findById (db w1) id = Some renewed ∧
     Booking.verificationCode renewed = Some code ∧
     Booking.lastEmailSentAt renewed = Some now ∧
     Booking.status renewed = Booking.status booking ∧
     Booking.verified renewed = Booking.verified booking ∧
     (Booking.verified booking = false →
      (rateLimit_check later (verifyKey id) 5 (15 * 60 * 1000) (rateLimit w1)).1 = true →
      ∀ guess, String.length guess = String.length code →
        success (run (verifyBooking later id guess) w1).2 = true ↔ guess = code)).
Proof.
  cbn zeta.
  destruct (resendVerificationCode_outcome mail now code id w) as [_ Hout]. cbn zeta in Hout.
  destruct (success _); (split; [done|]); [|done].
  intros _. destruct Hout as (booking & sent & Hfind & Hsent & Hfind1).
  exists booking, (renewCode code now sent). split; [done|]. split; [done|].
  split; [done|]. split; [done|].
  assert (Booking.status sent = Booking.status booking ∧
          Booking.verified sent = Booking.verified booking) as [Hst Hv].
  { destruct Hsent as [->| ->]; [done|]. by rewrite count_email_status, count_email_verified. }
  split; [done|]. split; [done|].
  intros Hunverified Hadmit guess Hlen.
  pose proof (verifyBooking_admitted later id guess _ (renewCode code now sent) Hadmit Hfind1)
    as Hrun. cbn zeta in Hrun.
  cbn [renewCode Booking.verified Booking.verificationCode] in Hrun.
  rewrite Hv in Hrun. specialize (Hrun Hunverified).
  rewrite (codeMatches_same_length code guess Hlen) in Hrun.
  case_bool_decide as Hcode.
  - destruct Hrun as (Hs & _). by rewrite Hs.
  - destruct Hrun as (Hs & _). by rewrite Hs.
Qed.

Lemma blockedDates_Client_incrementEmailCounter now doc st :
  blockedDates (Client_incrementEmailCounter now doc st).2 = blockedDates st.
Proof. unfold Client_incrementEmailCounter. by case_decide. Qed.

Lemma blockedDates_autoExpire mail now acc booking :
  blockedDates (store (autoExpire mail now acc booking)) = blockedDates (store acc).
Proof.
  unfold autoExpire.
  assert (blockedDates (sendAutoDeclineEmail mail now booking (store acc) (docs acc)).1.2 =
          blockedDates (store acc)) as H1.
  { unfold sendAutoDeclineEmail. destruct (Service_findById _ _); [|done].
    unfold sendBookingRejectionEmail.
    pose proof (blockedDates_sendMail mail Rejection now (Booking.email booking)
                  (Some (Booking._id booking)) (store acc)) as H.
    destruct (sendMail _ _ _ _ _ _) as [[] st1]; simpl in *; [|done].
    destruct (clientDoc (docs acc) booking) as [doc|]; [|done].
    pose proof (blockedDates_Client_incrementEmailCounter now doc st1) as H2.
    destruct (Client_incrementEmailCounter now doc st1); simpl in *. congruence. }
  destruct (sendAutoDeclineEmail _ _ _ _ _) as [[sent st1] ds1]; simpl in *.
  assert (blockedDates (releaseClientBooking now booking st1 ds1).1 = blockedDates st1) as H2.
  { unfold releaseClientBooking. by destruct (clientDoc ds1 booking). }
  destruct (releaseClientBooking _ _ _ _) as [st2 ds2]; simpl in *. congruence.
Qed.

Lemma foldl_autoExpire_blockedDates mail now l acc :
  blockedDates (store (foldl (autoExpire mail now) acc l)) = blockedDates (store acc).
Proof.
  revert acc. induction l as [|x l IH]; intros acc; [done|].
  cbn [foldl]. by rewrite IH, blockedDates_autoExpire.
Qed.

Lemma blockedDates_before_their_pass mail now st :
  blockedDates (cleanupDeclinedBookings now
                  (cleanupUnconfirmedBookings now
                     (cleanupExpiredBookings mail now st).1).1).1 = blockedDates st.
Proof.
  assert (∀ st0, blockedDates (cleanupDeclinedBookings now st0).1 = blockedDates st0) as ->.
  { intros st0. unfold cleanupDeclinedBookings. by destruct (filter _ _). }
  assert (∀ st0, blockedDates (cleanupUnconfirmedBookings now st0).1 = blockedDates st0) as ->.
  { intros st0. unfold cleanupUnconfirmedBookings.
    destruct (oldUnconfirmedBookings now st0) as [|x l] eqn:Hl; [done|].
    cbn [fst]. by rewrite foldl_dropUnconfirmed_blockedDates. }
  unfold cleanupExpiredBookings. destruct (pendingVerifiedBookings st); [done|].
  destruct (expiredBookings now st); [done|].
  cbn [fst]. by rewrite foldl_autoExpire_blockedDates.
Qed.

Lemma startOfDay_le_day now date :
  JsDate.startOfDay now ≤ date → JsDate.startOfDay now ≤ JsDate.startOfDay date.
Proof.
  unfold JsDate.startOfDay, JsDate.msPerDay.
  pose proof (Z.div_mod now 86400000). pose proof (Z.mod_pos_bound now 86400000).
  pose proof (Z.div_mod date 86400000). pose proof (Z.mod_pos_bound date 86400000).
  replace (24 * 60 * 60 * 1000) with 86400000 by lia. nia.
Qed.

(** The cleanup never lifts a block that still matters: for every day from
    today on, the block found for the day, and with it the answers of
    [isDateTimeBlocked] and [getBlockedHours], are after a full cleanup what
    they were before. *)
Theorem cleanup_keeps_the_blocks_from_today
    (mail : Mailer) (now : Z) (st : Store) (date : Z) :
  JsDate.startOfDay now ≤ date →
  let st' := (runFullCleanup mail now st).1 in
  BlockedDate_findForDay st' date = BlockedDate_findForDay st date ∧
  (∀ time, isDateTimeBlocked st' date time = isDateTimeBlocked st date time) ∧
  getBlockedHours st' date = getBlockedHours st date.
Proof.
  intros Hday. cbn zeta.
  assert (BlockedDate_findForDay (runFullCleanup mail now st).1 date =
          BlockedDate_findForDay st date) as Hfind.
  { rewrite runFullCleanup_passes. unfold BlockedDate_findForDay, cleanupExpiredBlockedDates.
    cbn [fst blockedDates set_blockedDates]. rewrite blockedDates_before_their_pass.
    f_equal. rewrite list_filter_filter. apply filter_ext_elem. intros d _.
    split; [tauto|]. intros Hin. split; [done|].
    unfold blockExpired.
    pose proof (startOfDay_le_day now date Hday) as Hle.
    unfold JsDate.endOfDay, JsDate.setHours, JsDate.addDays, JsDate.startOfDay,
      JsDate.msPerDay in *.
    replace (now + -1 * (24 * 60 * 60 * 1000)) with (now + (-1) * 86400000) by lia.
    rewrite Z_mod_plus_full. lia. }
  split; [done|]. split.
  - intros time. unfold isDateTimeBlocked. by rewrite Hfind.
  - unfold getBlockedHours. by rewrite Hfind.
Qed.

(** ** The registry of blocked dates *)

Lemma parse_test time hm : TimeString.parse time = Some hm → TimeString.test time = true.
Proof. unfold TimeString.test. by intros ->. Qed.

(** What the registry of blocked dates adds to the availability check: a
    slot is available exactly when it is available with an empty registry
    and the block stored for its day, if there is one, neither closes the
    whole day nor lists the time at which the slot starts.  Only the start
    counts: a blocked hour inside the slot does not make it unavailable. *)
Theorem availability_and_the_registry (st : Store) (date : Z) (time : string) (duration : Z) :
  isTimeSlotAvailable st date time duration =
  isTimeSlotAvailable (set_blockedDates [] st) date time duration &&
  match BlockedDate_findForDay st date with
  | None => true
  | Some block =>
      negb (BlockedDate.isFullDayBlocked block) &&
      negb (bool_decide (time ∈ BlockedDate.blockedHours block))
  end.
Proof.
  unfold isTimeSlotAvailable.
  destruct (decide (time = "")) as [|Htime]; [done|].
  destruct (decide (duration ≤ 0 ∨ 240 < duration)); [done|].
  destruct (TimeString.parse time) as [[hour minute]|] eqn:Hparse; [|done].
  destruct (decide (JsDate.getDay date = 0)); [done|].
  match goal with |- (if ?c then _ else _) = _ => destruct c end; [done|].
  change (activeLocks (set_blockedDates [] st) date) with (activeLocks st date).
  change (overlappingBookings (set_blockedDates [] st) date) with (overlappingBookings st date).
  change (lockBlocks (set_blockedDates [] st)) with (lockBlocks st).
  change (bookingBlocks (set_blockedDates [] st)) with (bookingBlocks st).
  destruct (existsb (lockBlocks st _ _) _); [done|].
  destruct (existsb (bookingBlocks st _ _) _); [done|].
  unfold isDateTimeBlocked.
  change (BlockedDate_findForDay (set_blockedDates [] st) date) with (@None BlockedDate.t).
  assert (Js.truthyS (Some time) = Some time) as ->.
  { unfold Js.truthyS. by destruct time. }
  rewrite (parse_test _ _ Hparse). cbn [negb Js.truthyS isBlocked notBlocked andb].
  destruct (BlockedDate_findForDay st date) as [block|]; [|done].
  destruct (BlockedDate.isFullDayBlocked block); [done|].
  cbn [isBlocked negb andb]. by destruct (bool_decide (time ∈ _)).
Qed.

Lemma findForDay_startOfDay st date :
  BlockedDate_findForDay st (JsDate.startOfDay date) = BlockedDate_findForDay st date.
Proof. unfold BlockedDate_findForDay. by rewrite startOfDay_idem, endOfDay_startOfDay. Qed.

Lemma startOfDay_in_day date :
  JsDate.startOfDay date ≤ JsDate.startOfDay date ≤ JsDate.endOfDay date.
Proof. unfold JsDate.endOfDay, JsDate.setHours. lia. Qed.

Lemma uniq_elem (l : list string) (x : string) : x ∈ uniq l ↔ x ∈ l.
Proof.
  induction l as [|y l IH]; [done|]. simpl.
  rewrite !elem_of_cons, list_elem_of_filter, IH.
  destruct (decide (x = y)); tauto.
Qed.

Lemma head_filter_replaced {A} (P : A → Prop) `{!∀ x, Decision (P x)} (hit : A → Prop)
    `{!∀ x, Decision (hit x)} (new old : A) (l : list A) :
  head (filter P l) = Some old → hit old → P new →
  head (filter P ((λ d, if decide (hit d) then new else d) <$> l)) = Some new.
Proof.
  intros Hhead Hhit Hnew. induction l as [|x l IH]; [done|].
  rewrite fmap_cons, filter_cons. rewrite filter_cons in Hhead.
  destruct (decide (hit x)) as [Hx|Hx].
  - by rewrite decide_True.
  - destruct (decide (P x)) as [HP|HP]; [|by apply IH].
    simpl in Hhead. congruence.
Qed.

(** What an accepted [blockDate] request leaves behind. *)
Lemma blockDate_done now userId req w :
  statusCode (run (blockDate now userId req) w).2 = 200 →
  ∃ date block,
    br_date req = Some date ∧
    JsDate.startOfDay now ≤ JsDate.startOfDay date ∧
    body (run (blockDate now userId req) w).2 = BlockedDateInfo block ∧
    BlockedDate.isFullDayBlocked block = br_isFullDay req ∧
    BlockedDate.blockedHours block =
      (if br_isFullDay req then [] else uniq (default [] (br_hours req))) ∧
    BlockedDate.createdBy block = userId ∧
    JsDate.startOfDay date ≤ BlockedDate.date block ≤ JsDate.endOfDay date ∧
    (run (blockDate now userId req) w).1 =
      withDb (set_blockedDates
                (match BlockedDate_findForDay (db w) date with
                 | Some old =>
                     (λ d, if decide (BlockedDate._id d = BlockedDate._id old)
                           then block else d) <$> blockedDates (db w)
                 | None => blockedDates (db w) ++ [block]
                 end) (db w)) w ∧
    match BlockedDate_findForDay (db w) date with
    | Some old => BlockedDate._id block = BlockedDate._id old
    | None => BlockedDate._id block = freshId (BlockedDate._id <$> blockedDates (db w)) ∧
              BlockedDate.date block = JsDate.startOfDay date
    end.
Proof.
  unfold blockDate.
  destruct (blockDateChecks now req) as [refusal|selectedDate] eqn:Hchecks.
  { destruct (blockDateChecks_inl _ _ _ Hchecks) as [_ Hc].
    unfold run, reply. simpl. lia. }
  destruct (br_date req) as [date|] eqn:Hdate; [|by unfold blockDateChecks in Hchecks; rewrite Hdate in Hchecks].
  pose proof (blockDateChecks_inr _ _ _ _ Hdate Hchecks) as ->.
  assert (JsDate.startOfDay now ≤ JsDate.startOfDay date) as Hday.
  { unfold blockDateChecks in Hchecks. rewrite Hdate in Hchecks.
    repeat (case_match; simplify_eq; try done); lia. }
  unfold run, bind, query, update, reply. cbn [fst snd].
  destruct (hasConflict _); [simpl; lia|].
  rewrite findForDay_startOfDay.
  destruct (BlockedDate_findForDay (db w) date) as [old|] eqn:Hfind;
    (destruct (negb (forallb withinProgram _)); [simpl; lia|]);
    cbn [fst snd statusCode body];
    intros _; exists date; eexists; rewrite Hfind; (split; [done|]); (split; [done|]);
    (split; [reflexivity|]); cbn [BlockedDate.isFullDayBlocked BlockedDate.blockedHours
      BlockedDate.createdBy BlockedDate.date BlockedDate._id]; (split; [done|]);
    (split; [done|]); (split; [done|]).
  - split; [|done].
    unfold BlockedDate_findForDay in Hfind. apply head_Some_elem_of in Hfind.
    by apply list_elem_of_filter in Hfind as [? _].
  - split; [apply startOfDay_in_day|]. done.
Qed.

Lemma blockDate_findForDay now userId req w date block :
  br_date req = Some date →
  JsDate.startOfDay date ≤ BlockedDate.date block ≤ JsDate.endOfDay date →
  (run (blockDate now userId req) w).1 =
    withDb (set_blockedDates
              (match BlockedDate_findForDay (db w) date with
               | Some old =>
                   (λ d, if decide (BlockedDate._id d = BlockedDate._id old)
                         then block else d) <$> blockedDates (db w)
               | None => blockedDates (db w) ++ [block]
               end) (db w)) w →
  BlockedDate_findForDay (db (run (blockDate now userId req) w).1) date = Some block.
Proof.
  intros Hdate Hin ->. unfold withDb. cbn [db]. unfold BlockedDate_findForDay at 1.
  cbn [blockedDates set_blockedDates].
  destruct (BlockedDate_findForDay (db w) date) as [old|] eqn:Hfind.
  - by apply (head_filter_replaced _ (λ d, BlockedDate._id d = BlockedDate._id old) block old).
  - unfold BlockedDate_findForDay in Hfind. rewrite filter_app.
    destruct (filter _ (blockedDates (db w))); [|done].
    rewrite filter_cons, decide_True by done. done.
Qed.

Lemma unavailable_by_block st date time duration block :
  BlockedDate_findForDay st date = Some block →
  BlockedDate.isFullDayBlocked block = true ∨ time ∈ BlockedDate.blockedHours block →
  isTimeSlotAvailable st date time duration = false.
Proof.
  intros Hfind Hblock. unfold isTimeSlotAvailable.
  destruct (decide (time = "")) as [|Htime]; [done|].
  destruct (decide (duration ≤ 0 ∨ 240 < duration)); [done|].
  destruct (TimeString.parse time) as [[hour minute]|] eqn:Hparse; [|done].
  destruct (decide (JsDate.getDay date = 0)); [done|].
  match goal with |- (if ?c then _ else _) = _ => destruct c end; [done|].
  destruct (existsb (lockBlocks st _ _) _); [done|].
  destruct (existsb (bookingBlocks st _ _) _); [done|].
  unfold isDateTimeBlocked. rewrite Hfind.
  assert (Js.truthyS (Some time) = Some time) as ->.
  { unfold Js.truthyS. by destruct time. }
  rewrite (parse_test _ _ Hparse). cbn [negb Js.truthyS isBlocked notBlocked andb].
  destruct (BlockedDate.isFullDayBlocked block); [done|].
  destruct Hblock as [|Hhour]; [done|].
  by rewrite bool_decide_eq_true_2.
Qed.

(** An accepted [blockDate] request takes effect: the answer carries the
    block now found for the day, whole-day or with the requested hours
    (duplicates removed), and from then on no slot of that day that starts
    at a requested hour, or no slot at all for a whole-day block, is
    available, whatever the service; a whole-day block empties the list of
    slots offered.  Bookings, clients, locks and services are untouched.
    (The hours lie within 10:00-19:00, as the schema demands on saving.) *)
Theorem block_date_takes_effect
    (now : Z) (userId : ObjectId) (req : BlockRequest) (w : World) :
  let w' := (run (blockDate now userId req) w).1 in
  let r := (run (blockDate now userId req) w).2 in
  statusCode r = 200 →
  (br_isFullDay req = false →
   Forall (λ hour, withinProgram hour = true) (default [] (br_hours req))) →
  ∃ date block,
    br_date req = Some date ∧ body r = BlockedDateInfo block ∧
    BlockedDate_findForDay (db w') date = Some block ∧
    BlockedDate.isFullDayBlocked block = br_isFullDay req ∧
    BlockedDate.blockedHours block =
      (if br_isFullDay req then [] else uniq (default [] (br_hours req))) ∧
    BlockedDate.createdBy block = userId ∧
    (∀ time duration,
       br_isFullDay req = true ∨ time ∈ default [] (br_hours req) →
       isTimeSlotAvailable (db w') date time duration = false) ∧
    (br_isFullDay req = true →
     ∀ duration, generateAvailableTimeSlots (db w') date duration = []) ∧
    bookings (db w') = bookings (db w) ∧ clients (db w') = clients (db w) ∧
    timeLocks (db w') = timeLocks (db w) ∧ services (db w') = services (db w).
Proof.
  cbn zeta. intros Hok _.
  destruct (blockDate_done now userId req w Hok)
    as (date & block & Hdate & _ & Hbody & Hfull & Hhours & Hby & Hin & Hworld & _).
  pose proof (blockDate_findForDay now userId req w date block Hdate Hin Hworld) as Hfind.
  exists date, block. do 6 (split; [done|]). split; [|split].
  - intros time duration Hreq. apply (unavailable_by_block _ _ _ _ block Hfind).
    rewrite Hfull, Hhours. destruct Hreq as [->|Hhour]; [by left|].
    destruct (br_isFullDay req); [by left|right]. by apply uniq_elem.
  - intros Hday duration. unfold generateAvailableTimeSlots.
    destruct (decide (JsDate.getDay date = 0)); [done|].
    unfold isDateTimeBlocked. cbn [Js.truthyS]. rewrite Hfind, Hfull, Hday. done.
  - rewrite Hworld. done.
Qed.

Lemma unblockDate_found id block w :
  BlockedDate_findById (db w) id = Some block →
  run (unblockDate (Some id)) w =
    (withDb (BlockedDate_findByIdAndDelete id (db w)) w,
     mkResponse 200 true
       ("Blocarea pentru " +:+ formatDateInRomanian (BlockedDate.date block) +:+
        " a fost eliminată") NoBody).
Proof. intros Hfind. unfold run, unblockDate, bind, query. cbn [fst snd]. by rewrite Hfind. Qed.

Lemma unblockDate_missing id w :
  BlockedDate_findById (db w) id = None →
  run (unblockDate (Some id)) w = (w, errorResponse 404 "Data blocată nu a fost găsită").
Proof. intros Hfind. unfold run, unblockDate, bind, query. cbn [fst snd]. by rewrite Hfind. Qed.

(** Unblocking undoes a new block: when the day had no block, an accepted
    [blockDate] followed by [unblockDate] of the block it answered with is
    accepted too and leaves the store exactly as it was before the two; the
    same [unblockDate] once more finds nothing, answers 404 and changes
    nothing.  (The hours lie within 10:00-19:00, as the schema demands on
    saving.) *)
Theorem unblock_undoes_a_new_block
    (now : Z) (userId : ObjectId) (req : BlockRequest) (date : Z) (w : World) :
  let w1 := (run (blockDate now userId req) w).1 in
  let r1 := (run (blockDate now userId req) w).2 in
  statusCode r1 = 200 →
  (br_isFullDay req = false →
   Forall (λ hour, withinProgram hour = true) (default [] (br_hours req))) →
  br_date req = Some date →
  BlockedDate_findForDay (db w) date = None →
  ∃ block,
    body r1 = BlockedDateInfo block ∧
    let w2 := (run (unblockDate (Some (BlockedDate._id block))) w1).1 in
    let r2 := (run (unblockDate (Some (BlockedDate._id block))) w1).2 in
    statusCode r2 = 200 ∧ w2 = w ∧
    run (unblockDate (Some (BlockedDate._id block))) w2 =
      (w2, errorResponse 404 "Data blocată nu a fost găsită").
Proof.
  cbn zeta. intros Hok _ Hdate Hnone.
  destruct (blockDate_done now userId req w Hok)
    as (date' & block & Hdate' & _ & Hbody & _ & _ & _ & _ & Hworld & Hid).
  assert (date' = date) as -> by congruence. rewrite Hnone in Hworld, Hid.
  destruct Hid as [Hid _].
  exists block. split; [done|]. rewrite Hworld.
  assert (filter (λ d, BlockedDate._id d = BlockedDate._id block) (blockedDates (db w)) = [])
    as Hnew.
  { apply nil_of_no_elem. intros d [Heq Hd]%list_elem_of_filter.
    apply (list_elem_of_fmap_2 BlockedDate._id) in Hd. apply freshId_gt in Hd. lia. }
  assert (filter (λ d, BlockedDate._id d ≠ BlockedDate._id block) (blockedDates (db w)) =
          blockedDates (db w)) as Hold.
  { apply filter_all. intros d Hd Heq.
    apply (list_elem_of_fmap_2 BlockedDate._id) in Hd. apply freshId_gt in Hd. lia. }
  set (w1 := withDb (set_blockedDates (blockedDates (db w) ++ [block]) (db w)) w).
  assert (BlockedDate_findById (db w1) (BlockedDate._id block) = Some block) as Hfound.
  { unfold BlockedDate_findById. subst w1. unfold withDb, set_blockedDates.
    cbn [db blockedDates].
    by rewrite filter_app, Hnew, filter_cons, decide_True, filter_nil. }
  assert (withDb (BlockedDate_findByIdAndDelete (BlockedDate._id block) (db w1)) w1 = w)
    as Hback.
  { subst w1. unfold withDb, BlockedDate_findByIdAndDelete, set_blockedDates.
    cbn [db blockedDates services bookings clients timeLocks serviceCache rateLimit session].
    rewrite filter_app, Hold, filter_cons, decide_False, filter_nil, app_nil_r by auto.
    by destruct w as [[]]. }
  rewrite (unblockDate_found _ _ _ Hfound). cbn [fst snd statusCode]. rewrite Hback.
  split; [done|]. split; [done|]. apply unblockDate_missing.
  unfold BlockedDate_findById. by rewrite Hnew.
Qed.

(** ** Clients *)

Ltac refuse_with_status :=
  apply wp_reply; cbn; (split; [done|]); (split; [set_solver|done]).

(** A blocked client cannot book: whenever the client on file for the
    request's email is blocked, [completeBooking] fails, with a 400, 404, 429
    or the 403 of the blocked client, and stores nothing: bookings, clients
    and locks are as they were, and so is the session. *)
Theorem blocked_client_cannot_book
    (mail : Mailer) (now : Z) (sessionID verificationCode : string) (req : ClientInfo)
    (client : Client.t) (w : World) :
  Client_findByEmail (db w) (ci_email req) = Some client →
  Client.isBlocked client = true →
  let w' := (run (completeBooking mail now sessionID verificationCode req) w).1 in
  let r := (run (completeBooking mail now sessionID verificationCode req) w).2 in
  success r = false ∧ statusCode r ∈ [400; 404; 429; 403] ∧
  db w' = db w ∧ session w' = session w.
Proof.
  intros Hfind Hblocked. cbn zeta.
  apply (wp_run _ (λ w' r,
    success r = false ∧ statusCode r ∈ [400; 404; 429; 403] ∧
    db w' = db w ∧ session w' = session w)).
  unfold completeBooking. apply wp_bind. unfold wp at 1.
  pose proof (bookingDataOf_world now req w) as Hworld.
  destruct (bookingDataOf now req w) as [w0 [resp|[[bookingServiceId bookingDate] bookingTime]]]
    eqn:Hdata; simpl in Hworld; subst w0; cbn [fst snd].
  { unfold bookingDataOf in Hdata. repeat case_match; simplify_eq; cbn;
      (split; [done|]); (split; [set_solver|done]). }
  destruct bookingServiceId as [bookingServiceId|]; [|refuse_with_status].
  destruct bookingDate as [bookingDate|]; [|refuse_with_status].
  destruct bookingTime as [bookingTime|]; [|refuse_with_status].
  case_decide; [refuse_with_status|].
  case_decide; [refuse_with_status|].
  case_decide; [refuse_with_status|].
  apply wp_bind, wp_lookupService. intros cache [service|]; [|refuse_with_status].
  apply wp_bind, wp_checkRateLimit. intros ok rl.
  destruct (negb ok); [refuse_with_status|].
  apply wp_bind. unfold findOrCreateClient. apply wp_bind, wp_query. cbn [db].
  rewrite Hfind, Hblocked. refuse_with_status.
Qed.

Lemma blockedSince_update now st cid id f :
  (∀ c, Client._id (f c) = Client._id c ∧ Client.isBlocked (f c) = Client.isBlocked c ∧
        Client.blockDate (f c) = Client.blockDate c) →
  blockedSince now st cid → blockedSince now (Client_update id f st) cid.
Proof.
  intros Hf (c & Hfind & Hb & Hd). unfold blockedSince.
  rewrite Client_findById_update by apply Hf. rewrite Hfind. simpl.
  destruct (Hf c) as (_ & Hb' & Hd').
  case_decide; eexists; (split; [done|]); [by rewrite Hb', Hd'|done].
Qed.

Lemma blockedSince_same now st st' cid :
  clients st' = clients st → blockedSince now st cid → blockedSince now st' cid.
Proof. unfold blockedSince, Client_findById. by intros ->. Qed.

Lemma blockedSince_Client_incrementEmailCounter now at_ doc st cid :
  blockedSince now st cid → blockedSince now (Client_incrementEmailCounter at_ doc st).2 cid.
Proof.
  intros H. unfold Client_incrementEmailCounter. case_decide; [done|]. simpl.
  by apply blockedSince_update.
Qed.

Lemma blockedSince_sendMail now mail kind at_ to st cid :
  blockedSince now st cid → blockedSince now (sendMail mail kind at_ to None st).2 cid.
Proof.
  intros H. unfold sendMail. case_decide; [done|]. destruct (mail kind to None); simpl; try done.
  unfold incrementDailyEmailCounter. destruct (Client_findByEmail st to); [|done].
  by apply blockedSince_Client_incrementEmailCounter.
Qed.

Lemma bookings_sendMail_unnamed mail kind now to st :
  bookings (sendMail mail kind now to None st).2 = bookings st.
Proof.
  unfold sendMail. case_decide; [done|]. destruct (mail kind to None); simpl; try done.
  unfold incrementDailyEmailCounter. destruct (Client_findByEmail st to); [|done].
  apply bookings_Client_incrementEmailCounter.
Qed.

(** [blockUser] on a stored booking that has its client always succeeds,
    whatever becomes of the mail: afterwards the booking is stored declined
    and its client is stored blocked, with the time of the request as the
    date of the block. *)
Theorem block_user_blocks_and_declines
    (mail : Mailer) (now : Z) (bookingId : ObjectId) (reason : option string) (w : World)
    (booking : Booking.t) (doc : Client.t) :
  Booking_findById (db w) bookingId = Some booking →
  populateClient (db w) booking = Some doc →
  let w' := (run (blockUser mail now bookingId reason) w).1 in
  let r := (run (blockUser mail now bookingId reason) w).2 in
  success r = true ∧ statusCode r = 200 ∧
  (∃ declined', Booking_findById (db w') bookingId = Some declined' ∧
                Booking.status declined' = declined) ∧
  blockedSince now (db w') (Client._id doc).
Proof.
  intros Hfind Hdoc. cbn zeta.
  destruct (Booking_findById_elem _ _ _ Hfind) as [_ Hid].
  assert (Client_findById (db w) (Client._id doc) = Some doc) as Hclient.
  { unfold populateClient in Hdoc. destruct (Booking.client booking) as [cid|]; [|done].
    simpl in Hdoc. by destruct (Client_findById_elem _ _ _ Hdoc) as [_ ->]. }
  apply (wp_run _ (λ w' r,
    success r = true ∧ statusCode r = 200 ∧
    (∃ declined', Booking_findById (db w') bookingId = Some declined' ∧
                  Booking.status declined' = declined) ∧
    blockedSince now (db w') (Client._id doc))).
  unfold blockUser. apply wp_bind, wp_query. rewrite Hfind.
  apply wp_bind, wp_query. rewrite Hdoc.
  apply wp_bind. unfold blockClientOf. apply wp_bind, wp_effect, wp_ret.
  cbn [db withDb fst snd Client_block].
  set (st1 := Client_update (Client._id doc) _ (db w)).
  assert (blockedSince now st1 (Client._id doc)) as Hblocked.
  { unfold blockedSince. subst st1. rewrite Client_findById_update by done.
    rewrite Hclient. simpl. rewrite decide_True by done. by eexists. }
  assert (∀ st2, bookings st2 = bookings (db w) →
            ∃ declined', Booking_findById (Booking_update (Booking._id booking)
                                             (Booking.set_status declined) st2) bookingId
                         = Some declined' ∧ Booking.status declined' = declined) as Hdeclined.
  { intros st2 H. rewrite Booking_findById_update by done.
    rewrite (Booking_findById_same _ _ _ H), Hfind. simpl. rewrite decide_True by done.
    by eexists. }
  apply wp_bind, wp_query.
  destruct (usageExhausted _).
  { unfold saveStatus. apply wp_bind, wp_update, wp_reply. cbn [db withDb].
    split; [done|]. split; [done|]. split; [by apply Hdeclined|].
    by apply (blockedSince_same now st1). }
  destruct (usageExhausted _).
  { unfold saveStatus. apply wp_bind, wp_update, wp_reply. cbn [db withDb].
    split; [done|]. split; [done|]. split; [by apply Hdeclined|].
    by apply (blockedSince_same now st1). }
  apply wp_bind, wp_query. destruct (Service_findById _ _).
  - apply wp_bind, wp_effect. unfold sendUserBlockedEmail. cbn [db withDb].
    set (st2 := (sendMail mail UserBlocked now (Booking.email booking) None st1).2).
    assert (blockedSince now st2 (Client._id doc)) as Hblocked2
      by by apply blockedSince_sendMail.
    assert (bookings st2 = bookings (db w)) as Hbookings2
      by (subst st2; by rewrite bookings_sendMail_unnamed).
    clearbody st2.
    unfold saveStatus. apply wp_bind, wp_update. cbn [db withDb].
    apply wp_bind. unfold countClientEmail.
    destruct (sendMail mail UserBlocked now (Booking.email booking) None st1).1.
    + apply wp_bind, wp_effect, wp_ret, wp_reply. cbn [db withDb].
      split; [done|]. split; [done|]. split.
      * destruct (Hdeclined st2 Hbookings2) as (d & Hd & Hs). exists d. split; [|done].
        rewrite <- Hd. apply Booking_findById_same, bookings_Client_incrementEmailCounter.
      * apply blockedSince_Client_incrementEmailCounter.
        by apply (blockedSince_same now st2).
    + apply wp_ret, wp_reply. cbn [db withDb].
      split; [done|]. split; [done|]. split; [by apply Hdeclined|].
      by apply (blockedSince_same now st2).
  - unfold saveStatus. apply wp_bind, wp_update, wp_reply. cbn [db withDb].
    split; [done|]. split; [done|]. split; [by apply Hdeclined|].
    by apply (blockedSince_same now st1).
Qed.

Lemma length_list_ascii_of_string (s : string) :
  length (list_ascii_of_string s) = String.length s.
Proof. induction s as [|c s IH]; simpl; congruence. Qed.

Lemma length_string_of_list_ascii (l : list ascii) :
  String.length (string_of_list_ascii l) = length l.
Proof. induction l as [|c l IH]; simpl; congruence. Qed.

Lemma length_dropSpaces (l : list ascii) : (length (JsString.dropSpaces l) ≤ length l)%nat.
Proof. induction l as [|c l IH]; simpl; [done|]. destruct (JsString.isSpace c); simpl; lia. Qed.

Lemma length_trim (s : string) : (String.length (JsString.trim s) ≤ String.length s)%nat.
Proof.
  unfold JsString.trim. rewrite length_string_of_list_ascii, length_rev.
  etrans; [apply length_dropSpaces|]. rewrite length_rev.
  etrans; [apply length_dropSpaces|]. by rewrite length_list_ascii_of_string.
Qed.

Lemma length_toLowerCase (s : string) :
  String.length (JsString.toLowerCase s) = String.length s.
Proof.
  unfold JsString.toLowerCase.
  by rewrite length_string_of_list_ascii, length_map, length_list_ascii_of_string.
Qed.

Lemma slice0_short (n : nat) (s : string) : (String.length s ≤ n)%nat → Js.slice0 n s = s.
Proof.
  unfold Js.slice0. revert n. induction s as [|c s IH]; intros n Hn.
  - by destruct n.
  - destruct n as [|n]; simpl in *; [lia|]. f_equal. apply IH. lia.
Qed.

Lemma Client_findByEmail_None st email :
  email ≠ "" → (String.length email ≤ 100)%nat → Client_findByEmail st email = None →
  JsString.toLowerCase (JsString.trim email) ∉ Client.email <$> clients st.
Proof.
  intros Hne Hlen. unfold Client_findByEmail.
  rewrite decide_False by done. rewrite decide_False by lia.
  rewrite slice0_short by (rewrite length_toLowerCase; pose proof (length_trim email); lia).
  intros Hhead (c & Heq & Hc)%list_elem_of_fmap.
  assert (c ∈ filter (λ c, Client.email c = JsString.toLowerCase (JsString.trim email))
                (clients st)) as Hin by by apply list_elem_of_filter.
  destruct (filter _ (clients st)); [by apply elem_of_nil in Hin|done].
Qed.

Lemma emails_Client_update st id f :
  (∀ c, Client.email (f c) = Client.email c) →
  Client.email <$> clients (Client_update id f st) = Client.email <$> clients st.
Proof.
  intros Hf. unfold Client_update. simpl. rewrite <- list_fmap_compose.
  apply list_fmap_ext. intros _ c _. simpl. by case_decide.
Qed.

Lemma emailsUnique_update st id f :
  (∀ c, Client.email (f c) = Client.email c) →
  emailsUnique st → emailsUnique (Client_update id f st).
Proof. intros Hf. unfold emailsUnique. by rewrite emails_Client_update. Qed.

Lemma emailsUnique_same st st' :
  clients st' = clients st → emailsUnique st → emailsUnique st'.
Proof. unfold emailsUnique. by intros ->. Qed.

Lemma emailsUnique_Client_incrementEmailCounter now doc st :
  emailsUnique st → emailsUnique (Client_incrementEmailCounter now doc st).2.
Proof.
  intros H. unfold Client_incrementEmailCounter. case_decide; [done|].
  by apply emailsUnique_update.
Qed.

Lemma emailsUnique_sendMail mail kind now to id st :
  emailsUnique st → emailsUnique (sendMail mail kind now to id st).2.
Proof.
  intros H. unfold sendMail. case_decide; [done|]. destruct (mail kind to id); simpl; try done.
  assert (emailsUnique (incrementDailyEmailCounter now to st)) as H1.
  { unfold incrementDailyEmailCounter. destruct (Client_findByEmail st to); [|done].
    by apply emailsUnique_Client_incrementEmailCounter. }
  destruct id; [|done]. by apply (emailsUnique_same (incrementDailyEmailCounter now to st)).
Qed.

(** One client per email: if no two stored clients share an email, the same
    holds after [completeBooking], whatever its outcome; a client is
    inserted only when none is on file for the email of the request.  (The
    email has at most 100 characters, as the route checks.) *)
Theorem complete_booking_keeps_one_client_per_email
    (mail : Mailer) (now : Z) (sessionID verificationCode : string) (req : ClientInfo)
    (w : World) :
  (String.length (ci_email req) ≤ 100)%nat →
  emailsUnique (db w) →
  let w' := (run (completeBooking mail now sessionID verificationCode req) w).1 in
  emailsUnique (db w') ∧
  (length (clients (db w')) = length (clients (db w)) ∨
   Client_findByEmail (db w) (ci_email req) = None ∧
   Client.email <$> clients (db w') =
     (Client.email <$> clients (db w)) ++
     [JsString.toLowerCase (JsString.trim (ci_email req))]).
Proof.
  intros Hlen Huniq. cbn zeta.
  set (grown st := length (clients st) = length (clients (db w)) ∨
                   Client_findByEmail (db w) (ci_email req) = None ∧
                   Client.email <$> clients st =
                     (Client.email <$> clients (db w)) ++
                     [JsString.toLowerCase (JsString.trim (ci_email req))]).
  assert (∀ st id f, (∀ c, Client.email (f c) = Client.email c) →
            grown st → grown (Client_update id f st)) as Hgrown_update.
  { intros st id f Hf [H|[Hnone H]]; [left|right].
    - unfold Client_update. simpl. by rewrite length_fmap.
    - split; [done|]. by rewrite emails_Client_update. }
  assert (∀ st st', clients st' = clients st → grown st → grown st') as Hgrown_same.
  { intros st st' H. unfold grown. by rewrite H. }
  assert (∀ at_ doc st, grown st → grown (Client_incrementEmailCounter at_ doc st).2)
    as Hgrown_incr.
  { intros at_ doc st H. unfold Client_incrementEmailCounter. case_decide; [done|].
    by apply Hgrown_update. }
  assert (∀ kind at_ to id st, grown st → grown (sendMail mail kind at_ to id st).2)
    as Hgrown_mail.
  { intros kind at_ to id st H. unfold sendMail. case_decide; [done|].
    destruct (mail kind to id); simpl; try done.
    assert (grown (incrementDailyEmailCounter at_ to st)) as H1.
    { unfold incrementDailyEmailCounter. destruct (Client_findByEmail st to); [|done].
      by apply Hgrown_incr. }
    destruct id; [|done]. by apply (Hgrown_same (incrementDailyEmailCounter at_ to st)). }
  apply (wp_run _ (λ w' _, emailsUnique (db w') ∧ grown (db w'))).
  assert (grown (db w)) as Hsame by by left.
  unfold completeBooking. apply wp_bind. unfold wp at 1.
  pose proof (bookingDataOf_world now req w) as Hworld.
  destruct (bookingDataOf now req w) as [w0 [resp|[[bookingServiceId bookingDate] bookingTime]]]
    eqn:Hdata; simpl in Hworld; subst w0; cbn [fst snd]; [done|].
  destruct bookingServiceId as [bookingServiceId|]; [|by apply wp_reply].
  destruct bookingDate as [bookingDate|]; [|by apply wp_reply].
  destruct bookingTime as [bookingTime|]; [|by apply wp_reply].
  case_decide as Hemail; [by apply wp_reply|].
  case_decide; [by apply wp_reply|].
  case_decide; [by apply wp_reply|].
  apply wp_bind, wp_lookupService. intros cache [service|]; [|by apply wp_reply].
  apply wp_bind, wp_checkRateLimit. intros ok rl.
  destruct (negb ok); [by apply wp_reply|].
  set (fullPhoneNumber := if bool_decide _ then _ else _).
  set (w1 := mkWorld (db w) cache rl (session w)).
  apply wp_bind.
  assert (∀ Q : World → Response + Client.t → Prop,
            (∀ resp, Q w1 (inl resp)) →
            (∀ st1 client, emailsUnique st1 → grown st1 → Q (withDb st1 w1) (inr client)) →
            wp (findOrCreateClient now (ci_clientName req) fullPhoneNumber (ci_email req)
                  (ci_countryCode req)) Q w1) as Hclient.
  { intros Q Hfail Hok. unfold findOrCreateClient. apply wp_bind, wp_query. cbn [db w1].
    destruct (Client_findByEmail (db w) (ci_email req)) as [client|] eqn:Hfind.
    - destruct (Client.isBlocked client); [by apply wp_reply|].
      destruct (bool_decide (Client.name client ≠ _ ∨ _)).
      + destruct (negb (validClientPaths _ _)); [by apply wp_reply|].
        apply wp_bind, wp_update, wp_ret. cbn [db w1].
        apply (Hok (Client_update _ _ (db w))).
        * by apply emailsUnique_update.
        * by apply Hgrown_update.
      + apply wp_ret. replace w1 with (withDb (db w) w1) by done. by apply Hok.
    - apply wp_bind, wp_query.
      destruct (negb (validClientPaths _ _)); [by apply wp_reply|].
      apply wp_bind, wp_update, wp_ret. cbn [db w1].
      apply (Hok (Client_insert _ (db w))).
      + unfold emailsUnique, Client_insert. simpl. rewrite fmap_app. simpl.
        apply NoDup_app. split; [done|]. split; [|apply NoDup_singleton].
        intros e He ->%list_elem_of_singleton.
        by apply (Client_findByEmail_None (db w) (ci_email req)).
      + right. split; [done|]. unfold Client_insert. simpl. by rewrite fmap_app. }
  apply Hclient; [done|]. clear Hclient. intros st1 client Hu1 Hg1.
  destruct (usageExhausted _); [by apply wp_reply|].
  apply wp_bind, wp_query. cbn [db withDb].
  set (booking := newBooking _ now (Client._id client) _ _ _ _ _ _ _ _).
  apply wp_bind.
  destruct (validBookingPaths _ _ _); [|by apply wp_reply].
  apply wp_update, wp_bind, wp_update, wp_bind.
  destruct (validCount _).
  - apply wp_effect, wp_bind, wp_effect.
    cbn [db withDb fst snd Client_saveTotal].
    set (st2 := Client_update _ _ (TimeLock_deleteOne _ _ _ _ (Booking_insert booking _))).
    assert (emailsUnique st2 ∧ grown st2) as [Hu2 Hg2].
    { subst st2. split.
      - apply emailsUnique_update; [done|]. by apply (emailsUnique_same st1).
      - apply Hgrown_update; [done|]. by apply (Hgrown_same st1). }
    clearbody st2. unfold sendVerificationEmail.
    pose proof (emailsUnique_sendMail mail Verification now (ci_email req)
                  (Some (Booking._id booking)) st2 Hu2) as Hu3.
    pose proof (Hgrown_mail Verification now (ci_email req)
                  (Some (Booking._id booking)) st2 Hg2) as Hg3.
    destruct (sendMail mail Verification now (ci_email req) (Some (Booking._id booking)) st2)
      as [emailOk st3]. cbn [fst snd] in *.
    destruct emailOk; cbn [negb].
    + apply wp_bind, wp_effect, wp_bind, wp_setSession, wp_reply. cbn [db withDb].
      split; [by apply emailsUnique_Client_incrementEmailCounter|by apply Hgrown_incr].
    + apply wp_bind, wp_update, wp_bind, wp_effect, wp_reply.
      cbn [db withDb fst snd Client_saveTotal].
      split.
      * apply emailsUnique_update; [done|]. by apply (emailsUnique_same st3).
      * apply Hgrown_update; [done|]. by apply (Hgrown_same st3).
  - apply wp_reply. cbn [db withDb]. split.
    + by apply (emailsUnique_same st1).
    + by apply (Hgrown_same st1).
Qed.

(** ** The further properties at sample inputs *)

(** 14:30 is written and read back. *)
Lemma time_format_roundtrip_witness :
  (0 ≤ 14 ≤ 23 ∧ 0 ≤ 30 ≤ 59) ∧
  TimeString.parse (TimeString.format 14 30) = Some (14, 30).
Proof.
  assert (0 ≤ 14 ≤ 23) as Hh by lia. assert (0 ≤ 30 ≤ 59) as Hm by lia.
  split; [by split|]. exact (proj1 (proj2 (time_format_roundtrip 14 30 Hh Hm))).
Defined.

(** The slot locked on Monday for Tuesday 14:00 is unavailable to the
    hour-long service too. *)
Lemma locked_slot_witness :
  success (run (createBooking Scenario.monday "session-a" 1 Sample.tuesday "14:00")
             Scenario.world).2 = true ∧
  isTimeSlotAvailable (db Scenario.locked) Sample.tuesday "14:00" 60 = false.
Proof.
  assert (success (run (createBooking Scenario.monday "session-a" 1 Sample.tuesday "14:00")
                     Scenario.world).2 = true) as Hok by (vm_compute; reflexivity).
  split; [exact Hok|].
  refine (proj2 (proj2 (locked_slot_is_unavailable Scenario.monday "session-a" 1
                          Sample.tuesday "14:00" Scenario.world Sample.tuns Hok _ _ _)) 60).
  - vm_compute; reflexivity.
  - simpl. lia.
  - vm_compute. lia.
Defined.

(** Two calls allowed: of four calls inside the window the last two are
    refused. *)
Lemma rate_limit_first_calls_witness :
  (rateLimit_checks [0; 1; 2; 3] "k" 2 10 (mkRateLimit ∅ ∅ 0 ∅)).1 =
  [true; true; false; false].
Proof.
  refine (rate_limit_admits_first_calls_only 0 [1; 2; 3] "k" 2 10 (mkRateLimit ∅ ∅ 0 ∅)
            _ _ _ _).
  - lia.
  - apply (bool_decide_unpack _). vm_compute. exact I.
  - reflexivity.
  - repeat (constructor; [lia|]). constructor.
Defined.

(** A key that spent its five attempts is admitted again once its window
    is over. *)
Lemma rate_limit_reopens_witness :
  (rateLimit_check 11 "k" 5 10 (mkRateLimit {["k" := 5]} {["k" := 10]} 0 ∅)).1 = true.
Proof.
  refine (proj1 (rate_limit_reopens_after_window 11 "k" 5 10
                   (mkRateLimit {["k" := 5]} {["k" := 10]} 0 ∅) 10 _ _ _ _)).
  - lia.
  - apply (bool_decide_unpack _). vm_compute. exact I.
  - vm_compute; reflexivity.
  - lia.
Defined.

(** The stored code 123456 verifies the booking; 654321 does not. *)
Lemma verify_stored_code_witness :
  success (run (verifyBooking Scenario.monday 1 "123456") Scenario.withBooking).2 = true ∧
  ¬ success (run (verifyBooking Scenario.monday 1 "654321") Scenario.withBooking).2 = true.
Proof.
  split.
  - refine (proj2 (proj1 (verify_accepts_exactly_the_stored_code Scenario.monday 1
                            "123456" "123456" Scenario.withBooking Scenario.pendingBooking
                            _ _ _ _ _)) eq_refl); vm_compute; reflexivity.
  - intros Hok.
    refine (_ (proj1 (proj1 (verify_accepts_exactly_the_stored_code Scenario.monday 1
                               "654321" "123456" Scenario.withBooking Scenario.pendingBooking
                               _ _ _ _ _)) Hok)); [discriminate|..]; vm_compute; reflexivity.
Defined.

(** The sixth guess inside the window is answered 429. *)
Lemma verify_refuses_witness :
  statusCode (run (verifyBooking 50 1 "123456") Scenario.spent).2 = 429.
Proof.
  refine (proj1 (verify_refuses_further_guesses 50 1 "123456" Scenario.spent 5 100 _ _ _ _)).
  - vm_compute; reflexivity.
  - lia.
  - vm_compute; reflexivity.
  - lia.
Defined.

(** Once Ion Pop has booked Tuesday 14:00, the slot is unavailable. *)
Lemma booked_slot_witness :
  isTimeSlotAvailable (db Scenario.booked) Sample.tuesday "14:00" 30 = false.
Proof.
  refine (booked_slot_is_unavailable Sample.mailSent (Scenario.monday + 60000) "session-a"
            "123456" Scenario.request Scenario.locked 1 Sample.tuesday "14:00" Sample.tuns
            _ _ _ _ _ 30).
  - vm_compute; reflexivity.
  - vm_compute; reflexivity.
  - vm_compute; reflexivity.
  - simpl. lia.
  - vm_compute. lia.
Defined.

(** The code mailed to Ion Pop verifies the booking. *)
Lemma mailed_code_witness :
  success (run (verifyBooking (Scenario.monday + 120000) 1 "123456") Scenario.booked).2 = true.
Proof.
  refine (proj1 (proj2 (mailed_code_verifies Sample.mailSent (Scenario.monday + 60000)
                          (Scenario.monday + 120000) "session-a" "123456" Scenario.request
                          Scenario.locked _ _))).
  - vm_compute; reflexivity.
  - vm_compute; reflexivity.
Defined.

(** The lock taken on Monday is gone once the booking is made. *)
Lemma lock_released_witness :
  timeLocks (db Scenario.booked) = [].
Proof.
  refine (proj2 (lock_is_released_by_the_booking Sample.mailSent Scenario.monday
                   (Scenario.monday + 60000) "session-a" "123456" 1 Sample.tuesday "14:00"
                   Scenario.request Scenario.world _ _ _)).
  - vm_compute; reflexivity.
  - vm_compute; reflexivity.
  - vm_compute; reflexivity.
Defined.

(** Sixteen minutes after the lock the booking is refused. *)
Lemma session_expiry_witness :
  statusCode (run (completeBooking Sample.mailSent (Scenario.monday + 16 * 60000) "session-a"
                     "123456" Scenario.request) Scenario.locked).2 = 400.
Proof.
  refine (f_equal (λ out, statusCode out.2)
            (session_booking_data_expire Sample.mailSent Scenario.monday
               (Scenario.monday + 16 * 60000) "session-a" "123456" 1 Sample.tuesday "14:00"
               Scenario.request Scenario.world _ _ _ _)).
  - by eexists.
  - vm_compute. discriminate.
  - vm_compute. reflexivity.
  - vm_compute; reflexivity.
Defined.

(** A booking left unverified since the day before is deleted; a confirmed
    one stays. *)
Lemma unconfirmed_sweep_witness :
  let kept := Sample.booking 2 confirmed true Sample.tuesday "15:00" in
  let st := Sample.store [Scenario.pendingBooking; kept] [] in
  bookings (cleanupUnconfirmedBookings Sample.tuesday st).1 = [kept] ∧
  cleaned (cleanupUnconfirmedBookings Sample.tuesday st).2 = 1.
Proof.
  intros kept st.
  refine (_ (unconfirmed_sweep_deletes_exactly_the_abandoned Sample.tuesday st _)).
  - intros (Hbookings & Hcleaned & _). split.
    + rewrite Hbookings. vm_compute. reflexivity.
    + rewrite Hcleaned, Hbookings. vm_compute. reflexivity.
  - apply (bool_decide_unpack _). vm_compute. exact I.
Defined.

(** A confirmed booking outlives the cleanup. *)
Lemma cleanup_spares_witness :
  let kept := Sample.booking 2 confirmed true Sample.tuesday "15:00" in
  let st := Sample.store [Scenario.pendingBooking; kept] [] in
  kept ∈ bookings (runFullCleanup Sample.mailSent (Sample.tuesday + 86400000) st).1.
Proof.
  intros kept st.
  refine (full_cleanup_spares_the_other_bookings Sample.mailSent (Sample.tuesday + 86400000)
            st kept _ _ _ _ _).
  - apply (bool_decide_unpack _). vm_compute. exact I.
  - apply list_elem_of_further, list_elem_of_here.
  - intros (H & _). discriminate H.
  - intros (H & _). discriminate H.
  - intros (H & _). discriminate H.
Defined.

(** The blocks of today are found after the cleanup as before. *)
Lemma cleanup_keeps_blocks_witness :
  let block := BlockedDate.mk 1 Sample.tuesday true [] "Suntem închiși" 9 0 0 in
  let st := mkStore [Sample.tuns] [] [] [] [block] in
  BlockedDate_findForDay (runFullCleanup Sample.mailSent (Sample.tuesday + 3600000) st).1
    (Sample.tuesday + 7200000) = Some block.
Proof.
  intros block st.
  refine (eq_trans (proj1 (cleanup_keeps_the_blocks_from_today Sample.mailSent
                             (Sample.tuesday + 3600000) st (Sample.tuesday + 7200000) _)) _).
  - vm_compute. discriminate.
  - vm_compute. reflexivity.
Defined.

(** Closing the Tuesday leaves no slot to book. *)
Lemma block_date_witness :
  statusCode (run (blockDate Scenario.monday 9 Scenario.closeTuesday) Scenario.world).2 = 200 ∧
  generateAvailableTimeSlots
    (db (run (blockDate Scenario.monday 9 Scenario.closeTuesday) Scenario.world).1)
    Sample.tuesday 30 = [].
Proof.
  assert (statusCode (run (blockDate Scenario.monday 9 Scenario.closeTuesday)
                        Scenario.world).2 = 200) as Hok by (vm_compute; reflexivity).
  split; [exact Hok|].
  refine (_ (block_date_takes_effect Scenario.monday 9 Scenario.closeTuesday Scenario.world
               Hok _)).
  - intros (date & block & Hdate & _ & _ & _ & _ & _ & _ & Hslots & _).
    injection Hdate as <-. by apply Hslots.
  - discriminate.
Defined.

(** Blocking two hours of the Tuesday and unblocking them again. *)
Lemma unblock_witness :
  ∃ block,
    body (run (blockDate Scenario.monday 9 Scenario.blockHours) Scenario.world).2 =
      BlockedDateInfo block ∧
    (run (unblockDate (Some (BlockedDate._id block)))
       (run (blockDate Scenario.monday 9 Scenario.blockHours) Scenario.world).1).1 =
      Scenario.world.
Proof.
  refine (_ (unblock_undoes_a_new_block Scenario.monday 9 Scenario.blockHours Sample.tuesday
               Scenario.world _ _ _ _)).
  - intros (block & Hbody & _ & Hback & _). by exists block.
  - vm_compute; reflexivity.
  - intros _. repeat constructor.
  - reflexivity.
  - reflexivity.
Defined.

(** Ion Pop, blocked, is refused. *)
Lemma blocked_client_witness :
  let w := Sample.world (mkStore [Sample.tuns] [] [Scenario.barred] [] []) in
  success (run (completeBooking Sample.mailSent Scenario.monday "session-a" "123456"
                  Scenario.request) w).2 = false.
Proof.
  intros w.
  refine (proj1 (blocked_client_cannot_book Sample.mailSent Scenario.monday "session-a"
                   "123456" Scenario.request Scenario.barred w _ _)).
  - vm_compute; reflexivity.
  - reflexivity.
Defined.

(** Blocking the user of booking 1 blocks Ion Pop, although no mail goes out. *)
Lemma block_user_witness :
  blockedSince Scenario.monday
    (db (run (blockUser Sample.noMail Scenario.monday 1 None) Scenario.withBooking).1) 7.
Proof.
  refine (proj2 (proj2 (proj2 (block_user_blocks_and_declines Sample.noMail Scenario.monday 1
                                 None Scenario.withBooking Scenario.pendingBooking Sample.ion
                                 _ _)))).
  - vm_compute; reflexivity.
  - vm_compute; reflexivity.
Defined.

(** Ion Pop books again: still one client with the email. *)
Lemma one_client_per_email_witness :
  emailsUnique (db Scenario.booked).
Proof.
  refine (proj1 (complete_booking_keeps_one_client_per_email Sample.mailSent
                   (Scenario.monday + 60000) "session-a" "123456" Scenario.request
                   Scenario.locked _ _)).
  - vm_compute. lia.
  - apply (bool_decide_unpack _). vm_compute. exact I.
Defined.

(** After a second code was mailed, the first no longer verifies the booking. *)
Lemma resent_code_witness :
  let w1 := (run (resendVerificationCode Sample.mailSent (Scenario.monday + 120000) "222222" 1)
               Scenario.booked).1 in
  success (run (resendVerificationCode Sample.mailSent (Scenario.monday + 120000) "222222" 1)
             Scenario.booked).2 = true ∧
  success (run (verifyBooking (Scenario.monday + 180000) 1 "222222") w1).2 = true ∧
  ¬ success (run (verifyBooking (Scenario.monday + 180000) 1 "123456") w1).2 = true.
Proof.
  intros w1.
  assert (success (run (resendVerificationCode Sample.mailSent (Scenario.monday + 120000)
                          "222222" 1) Scenario.booked).2 = true) as Hok
    by (vm_compute; reflexivity).
  split; [exact Hok|].
  destruct (proj2 (resent_code_replaces_the_stored_one Sample.mailSent
                     (Scenario.monday + 120000) (Scenario.monday + 180000) "222222" 1
                     Scenario.booked) Hok)
    as (booking & renewed & Hfind & _ & _ & _ & _ & _ & Hverify).
  assert (Booking.verified booking = false) as Hunverified.
  { vm_compute in Hfind. injection Hfind as <-. reflexivity. }
  assert ((rateLimit_check (Scenario.monday + 180000) (verifyKey 1) 5 (15 * 60 * 1000)
             (rateLimit w1)).1 = true) as Hadmit by (vm_compute; reflexivity).
  split.
  - by apply (Hverify Hunverified Hadmit "222222").
  - intros Hold. by apply (Hverify Hunverified Hadmit "123456") in Hold.
Defined.
